(** * WakeAssist: the alarm escalation state machine and its hardware layer

    A shallow embedding of [firmware/src/hardware.cpp] and
    [firmware/src/alarm_controller.cpp].  The two global objects [hardware]
    and [alarmController] become one explicit [World] that every member
    function takes and returns; [millis()] becomes the argument [now], a
    32-bit unsigned value, and every subtraction of two timestamps wraps
    around as [unsigned long] does on the ESP32. *)

From Stdlib Require Import ZArith List Bool String Lia.
Import ListNotations.
Local Open Scope Z_scope.

(** ** 32-bit clock arithmetic *)

Definition UINT32_MOD : Z := 4294967296.
Definition UINT32_MAX : Z := 4294967295.

(** [a - b] on [unsigned long]. *)
Definition sub32 (a b : Z) : Z := (a - b) mod UINT32_MOD.

(** A value [millis()] can return. *)
Definition is_millis (t : Z) : Prop := 0 <= t < UINT32_MOD.

(** ** config.h *)

Definition BUTTON_DEBOUNCE_MS : Z := 50.
Definition RESET_HOLD_TIME_MS : Z := 10000.
Definition LED_BLINK_SLOW : Z := 1000.
Definition LED_BLINK_MEDIUM : Z := 500.
Definition LED_BLINK_FAST : Z := 200.
Definition ALARM_WARNING_DURATION_MS : Z := 30000.
Definition ALARM_ALERT_DURATION_MS : Z := 30000.
Definition ALARM_SAFETY_TIMEOUT_MS : Z := 300000.
Definition ALARM_TRIGGERED_DELAY_MS : Z := 3000.
Definition BUZZER_OFF : Z := 0.
Definition BUZZER_ON : Z := 255.
Definition BUZZER_PULSE_ON_MS : Z := 500.
Definition BUZZER_PULSE_OFF_MS : Z := 500.

(** ** Data model (hardware.h, alarm_controller.h) *)

Inductive HardwareStatus : Type :=
| HW_STATUS_UNKNOWN
| HW_STATUS_OK
| HW_STATUS_FAILED
| HW_STATUS_DISABLED.

Inductive AlarmState : Type :=
| ALARM_IDLE
| ALARM_TRIGGERED
| ALARM_WARNING
| ALARM_ALERT
| ALARM_EMERGENCY
| ALARM_STOPPED_USER
| ALARM_STOPPED_TIMEOUT
| ALARM_STOPPED_ERROR.

Inductive AlarmStopSource : Type :=
| STOP_NONE
| STOP_TELEGRAM_COMMAND
| STOP_SILENCE_BUTTON
| STOP_SAFETY_TIMEOUT
| STOP_HARDWARE_ERROR
| STOP_COMPLETED.

Definition HardwareStatus_eqb (a b : HardwareStatus) : bool :=
  match a, b with
  | HW_STATUS_UNKNOWN, HW_STATUS_UNKNOWN
  | HW_STATUS_OK, HW_STATUS_OK
  | HW_STATUS_FAILED, HW_STATUS_FAILED
  | HW_STATUS_DISABLED, HW_STATUS_DISABLED => true
  | _, _ => false
  end.

Definition AlarmState_eqb (a b : AlarmState) : bool :=
  match a, b with
  | ALARM_IDLE, ALARM_IDLE
  | ALARM_TRIGGERED, ALARM_TRIGGERED
  | ALARM_WARNING, ALARM_WARNING
  | ALARM_ALERT, ALARM_ALERT
  | ALARM_EMERGENCY, ALARM_EMERGENCY
  | ALARM_STOPPED_USER, ALARM_STOPPED_USER
  | ALARM_STOPPED_TIMEOUT, ALARM_STOPPED_TIMEOUT
  | ALARM_STOPPED_ERROR, ALARM_STOPPED_ERROR => true
  | _, _ => false
  end.

(** The enumerators in declaration order, as the C++ enum numbers them. *)
Definition AlarmState_rank (s : AlarmState) : Z :=
  match s with
  | ALARM_IDLE => 0
  | ALARM_TRIGGERED => 1
  | ALARM_WARNING => 2
  | ALARM_ALERT => 3
  | ALARM_EMERGENCY => 4
  | ALARM_STOPPED_USER => 5
  | ALARM_STOPPED_TIMEOUT => 6
  | ALARM_STOPPED_ERROR => 7
  end.

Record AlarmStatistics : Type := mkAlarmStatistics {
  startTime : Z;
  stopTime : Z;
  duration : Z;
  stopSource : AlarmStopSource;
  maxStageReached : AlarmState;
  hardwareIssueDetected : bool
}.

Record HardwareState : Type := mkHardwareState {
  smallBuzzer : HardwareStatus;
  largeBuzzer : HardwareStatus;
  buttonTest : bool;
  buttonSilence : bool;
  buttonReset : bool;
  resetButtonPressTime : Z;
  ledsEnabled : bool
}.

Record LEDState : Type := mkLEDState {
  enabled : bool;
  ledCurrentState : bool;
  interval : Z;
  lastToggle : Z
}.

Record ButtonState : Type := mkButtonState {
  lastReading : bool;
  stableState : bool;
  lastChange : Z
}.

(** The [Hardware] object.  Besides its member variables it carries what the
    object has last written to the pins the controller drives: the PWM duty
    of the two buzzer channels ([ledcWrite]) and the level of the alarm LED
    ([digitalWrite]).  The Wi-Fi and status LEDs are never touched by the
    functions embedded here and are left out. *)
Record Hardware : Type := mkHardware {
  state : HardwareState;
  alarmLED : LEDState;
  testButton : ButtonState;
  silenceButton : ButtonState;
  resetButton : ButtonState;
  lastPulseToggle : Z;
  pulseState : bool;
  pulseStartTime : Z;
  pwmSmall : Z;
  pwmLarge : Z;
  pinAlarmLED : bool
}.

(** Templates of config.h handed to the notification sink. *)
Inductive Message : Type :=
| MSG_WAKE_RECEIVED
| MSG_WARNING_STARTED
| MSG_ALERT_STARTED
| MSG_EMERGENCY_STARTED
| MSG_ALARM_STOPPED (seconds : Z) (sourceStr : string)
| MSG_ALARM_TIMEOUT
| MSG_ERROR_BUZZER_SMALL
| MSG_ERROR_BUZZER_LARGE
| MSG_ERROR_BOTH_BUZZERS
| MSG_TEST_START
| MSG_TEST_SMALL
| MSG_TEST_LARGE
| MSG_TEST_COMPLETE.

Inductive Channel : Type :=
| BUZZER_PWM_CHANNEL_SMALL
| BUZZER_PWM_CHANNEL_LARGE.

(** What the device does to the outside, in program order: a duty written to
    a buzzer channel, a message passed to [telegramBot.sendMessage], and the
    session record written by [calculateStatistics]. *)
Inductive Event : Type :=
| EvLedcWrite (ch : Channel) (duty : Z)
| EvSendMessage (m : Message)
| EvStatistics (s : AlarmStatistics).

(** The [AlarmController] object; [lastCheck] is the function-local static of
    [update]. *)
Record AlarmController : Type := mkAlarmController {
  currentState : AlarmState;
  previousState : AlarmState;
  stageStartTime : Z;
  alarmStartTime : Z;
  telegramNotificationsEnabled : bool;
  hardwareChecksEnabled : bool;
  lastStatistics : AlarmStatistics;
  lastHardwareError : string;
  testMode : bool;
  lastCheck : Z
}.

Record World : Type := mkWorld {
  ctl : AlarmController;
  hw : Hardware;
  botOnline : bool;
  trace : list Event
}.

Definition with_ctl (c : AlarmController) (w : World) : World :=
  mkWorld c (hw w) (botOnline w) (trace w).

Definition with_hw (h : Hardware) (w : World) : World :=
  mkWorld (ctl w) h (botOnline w) (trace w).

Definition emit (e : Event) (w : World) : World :=
  mkWorld (ctl w) (hw w) (botOnline w) (trace w ++ [e]).

(** ** hardware.cpp *)

Module Hardware.

Definition ledcWrite (ch : Channel) (duty : Z) (w : World) : World :=
  let h := hw w in
  let h' :=
    match ch with
    | BUZZER_PWM_CHANNEL_SMALL =>
        mkHardware (state h) (alarmLED h) (testButton h) (silenceButton h)
          (resetButton h) (lastPulseToggle h) (pulseState h)
          (pulseStartTime h) duty (pwmLarge h) (pinAlarmLED h)
    | BUZZER_PWM_CHANNEL_LARGE =>
        mkHardware (state h) (alarmLED h) (testButton h) (silenceButton h)
          (resetButton h) (lastPulseToggle h) (pulseState h)
          (pulseStartTime h) (pwmSmall h) duty (pinAlarmLED h)
    end in
  emit (EvLedcWrite ch duty) (with_hw h' w).

Definition setSmallBuzzer (dutyCycle : Z) (w : World) : World :=
  ledcWrite BUZZER_PWM_CHANNEL_SMALL dutyCycle w.

Definition setLargeBuzzer (dutyCycle : Z) (w : World) : World :=
  ledcWrite BUZZER_PWM_CHANNEL_LARGE dutyCycle w.

Definition stopAllBuzzers (w : World) : World :=
  setLargeBuzzer 0 (setSmallBuzzer 0 w).

Definition set_pulse (toggle : Z) (ps : bool) (start : Z) (w : World) : World :=
  let h := hw w in
  with_hw (mkHardware (state h) (alarmLED h) (testButton h) (silenceButton h)
             (resetButton h) toggle ps start (pwmSmall h) (pwmLarge h)
             (pinAlarmLED h)) w.

(** Returns [true] when the 30 s pattern is complete. *)
Definition pulseSmallBuzzer (now : Z) (w : World) : bool * World :=
  let currentTime := now in
  let w1 :=
    if pulseStartTime (hw w) =? 0
    then setSmallBuzzer BUZZER_ON (set_pulse currentTime true currentTime w)
    else w in
  if ALARM_WARNING_DURATION_MS <=? sub32 currentTime (pulseStartTime (hw w1))
  then
    let w2 := stopAllBuzzers w1 in
    (true, set_pulse (lastPulseToggle (hw w2)) (pulseState (hw w2)) 0 w2)
  else if pulseState (hw w1)
  then
    if BUZZER_PULSE_ON_MS <=? sub32 currentTime (lastPulseToggle (hw w1))
    then
      let w2 := setSmallBuzzer BUZZER_OFF w1 in
      (false, set_pulse currentTime false (pulseStartTime (hw w2)) w2)
    else (false, w1)
  else
    if BUZZER_PULSE_OFF_MS <=? sub32 currentTime (lastPulseToggle (hw w1))
    then
      let w2 := setSmallBuzzer BUZZER_ON w1 in
      (false, set_pulse currentTime true (pulseStartTime (hw w2)) w2)
    else (false, w1).

Definition set_alarmLED (l : LEDState) (pin : bool) (w : World) : World :=
  let h := hw w in
  with_hw (mkHardware (state h) l (testButton h) (silenceButton h)
             (resetButton h) (lastPulseToggle h) (pulseState h)
             (pulseStartTime h) (pwmSmall h) (pwmLarge h) pin) w.

Definition setAlarmLED (st : bool) (w : World) : World :=
  if negb (ledsEnabled (state (hw w))) then w
  else
    let l := alarmLED (hw w) in
    set_alarmLED (mkLEDState false (ledCurrentState l) (interval l) (lastToggle l))
      st w.

Definition blinkAlarmLED (now : Z) (ivl : Z) (w : World) : World :=
  let l := alarmLED (hw w) in
  set_alarmLED (mkLEDState true (ledCurrentState l) ivl now)
    (pinAlarmLED (hw w)) w.

(** [testBuzzer(pin, ms)]: on, blocking delay, off. *)
Definition testBuzzer (ch : Channel) (w : World) : World :=
  ledcWrite ch BUZZER_OFF (ledcWrite ch BUZZER_ON w).

(** *** Buttons *)

Definition debounceButton (now : Z) (rawState : bool) (b : ButtonState)
  : bool * ButtonState :=
  let currentTime := now in
  let b1 :=
    if negb (Bool.eqb rawState (lastReading b))
    then mkButtonState rawState (stableState b) currentTime
    else b in
  let b2 :=
    if BUTTON_DEBOUNCE_MS <? sub32 currentTime (lastChange b1)
    then
      if negb (Bool.eqb rawState (stableState b1))
      then mkButtonState (lastReading b1) rawState (lastChange b1)
      else b1
    else b1 in
  (stableState b2, b2).

(** [updateButtons]: the three raw readings are what [digitalRead] returned,
    already compared with [BUTTON_PRESSED]. *)
Definition updateButtons (now : Z) (testRaw silenceRaw resetRaw : bool)
  (h : Hardware) : Hardware :=
  let '(bt, tb) := debounceButton now testRaw (testButton h) in
  let '(bs, sb) := debounceButton now silenceRaw (silenceButton h) in
  let '(br, rb) := debounceButton now resetRaw (resetButton h) in
  let st := state h in
  let pressTime :=
    if br
    then (if resetButtonPressTime st =? 0 then now else resetButtonPressTime st)
    else 0 in
  mkHardware
    (mkHardwareState (smallBuzzer st) (largeBuzzer st) bt bs br pressTime
       (ledsEnabled st))
    (alarmLED h) tb sb rb (lastPulseToggle h) (pulseState h)
    (pulseStartTime h) (pwmSmall h) (pwmLarge h) (pinAlarmLED h).

Definition isResetButtonPressed (h : Hardware) : bool := buttonReset (state h).

Definition isFactoryResetRequested (now : Z) (h : Hardware) : bool :=
  if resetButtonPressTime (state h) =? 0 then false
  else
    let holdTime := sub32 now (resetButtonPressTime (state h)) in
    if RESET_HOLD_TIME_MS <=? holdTime then true else false.

(** The outcome of [checkBuzzerCircuits]: the two read-backs decide the two
    status fields. *)
Definition checkBuzzerCircuits (smallHigh largeHigh : bool) (w : World)
  : bool * World :=
  let h := hw w in
  let st := state h in
  let s := if smallHigh then HW_STATUS_OK else HW_STATUS_FAILED in
  let l := if largeHigh then HW_STATUS_OK else HW_STATUS_FAILED in
  (smallHigh && largeHigh,
   with_hw (mkHardware
              (mkHardwareState s l (buttonTest st) (buttonSilence st)
                 (buttonReset st) (resetButtonPressTime st) (ledsEnabled st))
              (alarmLED h) (testButton h) (silenceButton h) (resetButton h)
              (lastPulseToggle h) (pulseState h) (pulseStartTime h)
              (pwmSmall h) (pwmLarge h) (pinAlarmLED h)) w).

End Hardware.

(** ** alarm_controller.cpp *)

Module AlarmController.

Import Hardware.

(** The constructor. *)
Definition init : AlarmController :=
  mkAlarmController ALARM_IDLE ALARM_IDLE 0 0 true true
    (mkAlarmStatistics 0 0 0 STOP_NONE ALARM_IDLE false) EmptyString false 0.

Definition set_alarmStartTime (t : Z) (c : AlarmController) : AlarmController :=
  mkAlarmController (currentState c) (previousState c) (stageStartTime c) t
    (telegramNotificationsEnabled c) (hardwareChecksEnabled c)
    (lastStatistics c) (lastHardwareError c) (testMode c) (lastCheck c).

Definition set_testMode (b : bool) (c : AlarmController) : AlarmController :=
  mkAlarmController (currentState c) (previousState c) (stageStartTime c)
    (alarmStartTime c) (telegramNotificationsEnabled c)
    (hardwareChecksEnabled c) (lastStatistics c) (lastHardwareError c) b
    (lastCheck c).

Definition set_lastStatistics (s : AlarmStatistics) (c : AlarmController)
  : AlarmController :=
  mkAlarmController (currentState c) (previousState c) (stageStartTime c)
    (alarmStartTime c) (telegramNotificationsEnabled c)
    (hardwareChecksEnabled c) s (lastHardwareError c) (testMode c)
    (lastCheck c).

Definition set_lastHardwareError (e : string) (c : AlarmController)
  : AlarmController :=
  mkAlarmController (currentState c) (previousState c) (stageStartTime c)
    (alarmStartTime c) (telegramNotificationsEnabled c)
    (hardwareChecksEnabled c) (lastStatistics c) e (testMode c) (lastCheck c).

Definition set_lastCheck (t : Z) (c : AlarmController) : AlarmController :=
  mkAlarmController (currentState c) (previousState c) (stageStartTime c)
    (alarmStartTime c) (telegramNotificationsEnabled c)
    (hardwareChecksEnabled c) (lastStatistics c) (lastHardwareError c)
    (testMode c) t.

Definition enter_state (newState : AlarmState) (now : Z) (c : AlarmController)
  : AlarmController :=
  mkAlarmController newState (currentState c) now (alarmStartTime c)
    (telegramNotificationsEnabled c) (hardwareChecksEnabled c)
    (lastStatistics c) (lastHardwareError c) (testMode c) (lastCheck c).

Definition setTelegramNotificationsEnabled (b : bool) (w : World) : World :=
  let c := ctl w in
  with_ctl (mkAlarmController (currentState c) (previousState c)
              (stageStartTime c) (alarmStartTime c) b
              (hardwareChecksEnabled c) (lastStatistics c)
              (lastHardwareError c) (testMode c) (lastCheck c)) w.

Definition setHardwareChecksEnabled (b : bool) (w : World) : World :=
  let c := ctl w in
  with_ctl (mkAlarmController (currentState c) (previousState c)
              (stageStartTime c) (alarmStartTime c)
              (telegramNotificationsEnabled c) b (lastStatistics c)
              (lastHardwareError c) (testMode c) (lastCheck c)) w.

Definition isActive (w : World) : bool :=
  negb (AlarmState_eqb (currentState (ctl w)) ALARM_IDLE) &&
  negb (AlarmState_eqb (currentState (ctl w)) ALARM_STOPPED_USER) &&
  negb (AlarmState_eqb (currentState (ctl w)) ALARM_STOPPED_TIMEOUT) &&
  negb (AlarmState_eqb (currentState (ctl w)) ALARM_STOPPED_ERROR).

Definition getState (w : World) : AlarmState := currentState (ctl w).

Definition getLastStatistics (w : World) : AlarmStatistics :=
  lastStatistics (ctl w).

(** Best effort: the message reaches [telegramBot.sendMessage] only when
    notifications are enabled and the bot is online. *)
Definition sendTelegramNotification (m : Message) (w : World) : World :=
  if negb (telegramNotificationsEnabled (ctl w)) then w
  else if negb (botOnline w) then w
  else emit (EvSendMessage m) w.

Definition transitionToState (now : Z) (newState : AlarmState) (w : World)
  : World :=
  if AlarmState_eqb newState (currentState (ctl w)) then w
  else
    let w1 := with_ctl (enter_state newState now (ctl w)) w in
    match newState with
    | ALARM_IDLE => setAlarmLED false (stopAllBuzzers w1)
    | ALARM_TRIGGERED => setAlarmLED true w1
    | ALARM_WARNING =>
        blinkAlarmLED now LED_BLINK_SLOW
          (sendTelegramNotification MSG_WARNING_STARTED w1)
    | ALARM_ALERT =>
        blinkAlarmLED now LED_BLINK_MEDIUM
          (sendTelegramNotification MSG_ALERT_STARTED w1)
    | ALARM_EMERGENCY =>
        blinkAlarmLED now LED_BLINK_FAST
          (sendTelegramNotification MSG_EMERGENCY_STARTED w1)
    | _ => w1
    end.

Definition getStateDuration (s : AlarmState) : Z :=
  match s with
  | ALARM_TRIGGERED => ALARM_TRIGGERED_DELAY_MS
  | ALARM_WARNING => ALARM_WARNING_DURATION_MS
  | ALARM_ALERT => ALARM_ALERT_DURATION_MS
  | ALARM_EMERGENCY => UINT32_MAX
  | _ => 0
  end.

Definition isStageDurationExceeded (now : Z) (w : World) : bool :=
  let elapsed := sub32 now (stageStartTime (ctl w)) in
  let dur := getStateDuration (currentState (ctl w)) in
  dur <=? elapsed.

Definition isSafetyTimeoutReached (now : Z) (w : World) : bool :=
  if alarmStartTime (ctl w) =? 0 then false
  else
    let elapsed := sub32 now (alarmStartTime (ctl w)) in
    ALARM_SAFETY_TIMEOUT_MS <=? elapsed.

Definition updateBuzzerOutput (now : Z) (w : World) : World :=
  match currentState (ctl w) with
  | ALARM_WARNING => snd (pulseSmallBuzzer now w)
  | ALARM_ALERT => setSmallBuzzer BUZZER_ON w
  | ALARM_EMERGENCY => setLargeBuzzer BUZZER_ON w
  | _ => w
  end.

Definition checkHardwareHealth (w : World) : bool * World :=
  let hwState := state (hw w) in
  let cs := currentState (ctl w) in
  if (AlarmState_eqb cs ALARM_WARNING || AlarmState_eqb cs ALARM_ALERT) &&
     HardwareStatus_eqb (smallBuzzer hwState) HW_STATUS_FAILED
  then
    (false,
     sendTelegramNotification MSG_ERROR_BUZZER_SMALL
       (with_ctl (set_lastHardwareError "Small buzzer circuit failure" (ctl w)) w))
  else if AlarmState_eqb cs ALARM_EMERGENCY &&
          HardwareStatus_eqb (largeBuzzer hwState) HW_STATUS_FAILED
  then
    (false,
     sendTelegramNotification MSG_ERROR_BUZZER_LARGE
       (with_ctl (set_lastHardwareError "Large buzzer circuit failure" (ctl w)) w))
  else if HardwareStatus_eqb (smallBuzzer hwState) HW_STATUS_FAILED &&
          HardwareStatus_eqb (largeBuzzer hwState) HW_STATUS_FAILED
  then
    (false,
     sendTelegramNotification MSG_ERROR_BOTH_BUZZERS
       (with_ctl (set_lastHardwareError "Both buzzer circuits failed" (ctl w)) w))
  else (true, w).

Definition calculateStatistics (now : Z) (source : AlarmStopSource) (w : World)
  : World :=
  let st_startTime := alarmStartTime (ctl w) in
  let st_stopTime := now in
  let st_duration := sub32 st_stopTime st_startTime / 1000 in
  let s :=
    mkAlarmStatistics st_startTime st_stopTime st_duration source
      (currentState (ctl w))
      (match source with STOP_HARDWARE_ERROR => true | _ => false end) in
  emit (EvStatistics s) (with_ctl (set_lastStatistics s (ctl w)) w).

Definition start (now : Z) (w : World) : bool * World :=
  if isActive w then (false, w)
  else
    let w1 := with_ctl (set_testMode false (set_alarmStartTime now (ctl w))) w in
    let w2 := transitionToState now ALARM_TRIGGERED w1 in
    (true, sendTelegramNotification MSG_WAKE_RECEIVED w2).

Definition stop (now : Z) (source : AlarmStopSource) (w : World)
  : bool * World :=
  if negb (isActive w) then (false, w)
  else
    let w1 := stopAllBuzzers w in
    let w2 := calculateStatistics now source w1 in
    let '(stopState, w3) :=
      match source with
      | STOP_SAFETY_TIMEOUT =>
          (ALARM_STOPPED_TIMEOUT, sendTelegramNotification MSG_ALARM_TIMEOUT w2)
      | STOP_HARDWARE_ERROR => (ALARM_STOPPED_ERROR, w2)
      | _ =>
          let sourceStr :=
            match source with
            | STOP_TELEGRAM_COMMAND => "Telegram"
            | STOP_SILENCE_BUTTON => "Button"
            | _ => "Unknown"
            end%string in
          (ALARM_STOPPED_USER,
           sendTelegramNotification
             (MSG_ALARM_STOPPED (duration (lastStatistics (ctl w2))) sourceStr)
             w2)
      end in
    let w4 := transitionToState now stopState w3 in
    (true, transitionToState now ALARM_IDLE w4).

Definition updateIdleState (w : World) : World := w.

Definition updateTriggeredState (now : Z) (w : World) : World :=
  if isStageDurationExceeded now w
  then transitionToState now ALARM_WARNING w
  else w.

Definition updateWarningState (now : Z) (w : World) : World :=
  let w1 := updateBuzzerOutput now w in
  if isStageDurationExceeded now w1
  then transitionToState now ALARM_ALERT w1
  else w1.

Definition updateAlertState (now : Z) (w : World) : World :=
  let w1 := updateBuzzerOutput now w in
  if isStageDurationExceeded now w1
  then transitionToState now ALARM_EMERGENCY w1
  else w1.

Definition updateEmergencyState (now : Z) (w : World) : World :=
  updateBuzzerOutput now w.

(** The three parts of [update], in program order. *)
Definition updateStage (now : Z) (w : World) : World :=
  match currentState (ctl w) with
  | ALARM_IDLE => updateIdleState w
  | ALARM_TRIGGERED => updateTriggeredState now w
  | ALARM_WARNING => updateWarningState now w
  | ALARM_ALERT => updateAlertState now w
  | ALARM_EMERGENCY => updateEmergencyState now w
  | _ => w
  end.

Definition updateSafety (now : Z) (w : World) : World :=
  if isActive w && isSafetyTimeoutReached now w
  then snd (stop now STOP_SAFETY_TIMEOUT w)
  else w.

Definition updateHealth (now : Z) (w : World) : World :=
  if isActive w && hardwareChecksEnabled (ctl w)
  then
    if 10000 <=? sub32 now (lastCheck (ctl w))
    then
      let w1 := with_ctl (set_lastCheck now (ctl w)) w in
      let '(ok, w2) := checkHardwareHealth w1 in
      if negb ok then snd (stop now STOP_HARDWARE_ERROR w2) else w2
    else w
  else w.

Definition update (now : Z) (w : World) : World :=
  updateHealth now (updateSafety now (updateStage now w)).

Definition getTimeRemainingInStage (now : Z) (w : World) : Z :=
  if negb (isActive w) then 0
  else
    let elapsed := sub32 now (stageStartTime (ctl w)) / 1000 in
    let dur := getStateDuration (currentState (ctl w)) / 1000 in
    if dur <=? elapsed then 0 else dur - elapsed.

Definition getDuration (now : Z) (w : World) : Z :=
  if alarmStartTime (ctl w) =? 0 then 0
  else sub32 now (alarmStartTime (ctl w)) / 1000.

(** The blocking test script; its delays only let time pass. *)
Definition testAlarm (w : World) : bool * World :=
  if isActive w then (false, w)
  else
    let w1 := with_ctl (set_testMode true (ctl w)) w in
    let w2 := sendTelegramNotification MSG_TEST_START w1 in
    let w3 := sendTelegramNotification MSG_TEST_SMALL w2 in
    let w4 := testBuzzer BUZZER_PWM_CHANNEL_SMALL w3 in
    let w5 := sendTelegramNotification MSG_TEST_LARGE w4 in
    let w6 := testBuzzer BUZZER_PWM_CHANNEL_LARGE w5 in
    let w7 := sendTelegramNotification MSG_TEST_COMPLETE w6 in
    (true, with_ctl (set_testMode false (ctl w7)) w7).

Definition reset (w : World) : World :=
  let w1 := stopAllBuzzers w in
  let c := ctl w1 in
  with_ctl (mkAlarmController ALARM_IDLE ALARM_IDLE 0 0
              (telegramNotificationsEnabled c) (hardwareChecksEnabled c)
              (mkAlarmStatistics 0 0 0 STOP_NONE ALARM_IDLE false)
              EmptyString (testMode c) (lastCheck c)) w1.

End AlarmController.

(** ** The device as its callers see it *)

Import Hardware AlarmController.

Definition init_hw : Hardware :=
  mkHardware (mkHardwareState HW_STATUS_UNKNOWN HW_STATUS_UNKNOWN false false
                false 0 true)
    (mkLEDState false false 0 0)
    (mkButtonState false false 0) (mkButtonState false false 0)
    (mkButtonState false false 0) 0 false 0 0 0 false.

(** The world once [setup()] has run with both circuits reading back HIGH:
    both objects as their constructors leave them, the PWM channels at duty 0
    ([setupPWM]) and the circuit statuses set by the self-test. *)
Definition boot : World :=
  snd (checkBuzzerCircuits true true (mkWorld init init_hw true [])).

(** Any world the constructor and [setupPWM] can leave: the controller as
    constructed, both buzzer channels at duty 0, everything else free. *)
Definition initial (w : World) : Prop :=
  ctl w = init /\ pwmSmall (hw w) = 0 /\ pwmLarge (hw w) = 0.

(** The entry points the outer loop and the command handlers use, together
    with the two things that change under the controller's feet: the
    circuit statuses (a new [checkBuzzerCircuits]) and the bot's status. *)
Inductive Call : Type :=
| CallStart (now : Z)
| CallStop (now : Z) (source : AlarmStopSource)
| CallUpdate (now : Z)
| CallTestAlarm
| CallReset
| CallSetTelegramNotificationsEnabled (b : bool)
| CallSetHardwareChecksEnabled (b : bool)
| CallCheckBuzzerCircuits (smallHigh largeHigh : bool)
| BotStatusChange (online : bool).

Definition exec (c : Call) (w : World) : World :=
  match c with
  | CallStart now => snd (start now w)
  | CallStop now source => snd (stop now source w)
  | CallUpdate now => update now w
  | CallTestAlarm => snd (testAlarm w)
  | CallReset => reset w
  | CallSetTelegramNotificationsEnabled b => setTelegramNotificationsEnabled b w
  | CallSetHardwareChecksEnabled b => setHardwareChecksEnabled b w
  | CallCheckBuzzerCircuits s l => snd (checkBuzzerCircuits s l w)
  | BotStatusChange b => mkWorld (ctl w) (hw w) b (trace w)
  end.

Inductive reachable : World -> Prop :=
| reachable_initial (w : World) : initial w -> reachable w
| reachable_call (c : Call) (w : World) : reachable w -> reachable (exec c w).

Definition silent (w : World) : Prop :=
  pwmSmall (hw w) = 0 /\ pwmLarge (hw w) = 0.

Definition is_stopped (s : AlarmState) : bool :=
  match s with
  | ALARM_STOPPED_USER | ALARM_STOPPED_TIMEOUT | ALARM_STOPPED_ERROR => true
  | _ => false
  end.

(** The [Stopped*] state [stop] selects for a reason. *)
Definition stopped_state_of (source : AlarmStopSource) : AlarmState :=
  match source with
  | STOP_SAFETY_TIMEOUT => ALARM_STOPPED_TIMEOUT
  | STOP_HARDWARE_ERROR => ALARM_STOPPED_ERROR
  | _ => ALARM_STOPPED_USER
  end.

(** The stage [update] escalates to when the current stage has run out. *)
Definition next_stage (s : AlarmState) : AlarmState :=
  match s with
  | ALARM_TRIGGERED => ALARM_WARNING
  | ALARM_WARNING => ALARM_ALERT
  | ALARM_ALERT => ALARM_EMERGENCY
  | _ => s
  end.

(** What [checkHardwareHealth] looks at: a failed circuit that the stage [s]
    depends on, or both circuits failed. *)
Definition relevant_failure (s : AlarmState) (h : HardwareState) : bool :=
  match s with
  | ALARM_WARNING | ALARM_ALERT =>
      HardwareStatus_eqb (smallBuzzer h) HW_STATUS_FAILED
  | ALARM_EMERGENCY => HardwareStatus_eqb (largeBuzzer h) HW_STATUS_FAILED
  | _ => false
  end
  || (HardwareStatus_eqb (smallBuzzer h) HW_STATUS_FAILED &&
      HardwareStatus_eqb (largeBuzzer h) HW_STATUS_FAILED).

(** At rest with both buzzers off, or in one of the four active stages. *)
Definition rest_or_active (w : World) : Prop :=
  (currentState (ctl w) = ALARM_IDLE /\ silent w) \/ isActive w = true.

(** The session record [calculateStatistics] writes at time [now] for the
    reason [source], and the controller as a successful [stop] leaves it. *)
Definition session_record (now : Z) (source : AlarmStopSource)
  (c : AlarmController) : AlarmStatistics :=
  mkAlarmStatistics (alarmStartTime c) now (sub32 now (alarmStartTime c) / 1000)
    source (currentState c)
    (match source with STOP_HARDWARE_ERROR => true | _ => false end).

Definition stopped_ctl (now : Z) (source : AlarmStopSource)
  (c : AlarmController) : AlarmController :=
  enter_state ALARM_IDLE now
    (enter_state (stopped_state_of source) now
       (set_lastStatistics (session_record now source c) c)).

(** The four ways one [update] tick on an active machine can end, read off
    the controller afterwards. *)
Inductive tick_outcome (now : Z) (w : World) : Prop :=
| tick_timeout :
    isSafetyTimeoutReached now (updateStage now w) = true ->
    ctl (update now w) =
    stopped_ctl now STOP_SAFETY_TIMEOUT (ctl (updateStage now w)) ->
    tick_outcome now w
| tick_no_check :
    isSafetyTimeoutReached now (updateStage now w) = false ->
    hardwareChecksEnabled (ctl w) &&
    (10000 <=? sub32 now (lastCheck (ctl w))) = false ->
    ctl (update now w) = ctl (updateStage now w) ->
    tick_outcome now w
| tick_check_passed :
    isSafetyTimeoutReached now (updateStage now w) = false ->
    hardwareChecksEnabled (ctl w) = true ->
    10000 <= sub32 now (lastCheck (ctl w)) ->
    relevant_failure (currentState (ctl (updateStage now w))) (state (hw w))
    = false ->
    ctl (update now w) = set_lastCheck now (ctl (updateStage now w)) ->
    tick_outcome now w
| tick_check_failed (e : string) :
    isSafetyTimeoutReached now (updateStage now w) = false ->
    hardwareChecksEnabled (ctl w) = true ->
    10000 <= sub32 now (lastCheck (ctl w)) ->
    relevant_failure (currentState (ctl (updateStage now w))) (state (hw w))
    = true ->
    ctl (update now w) =
    stopped_ctl now STOP_HARDWARE_ERROR
      (set_lastHardwareError e (set_lastCheck now (ctl (updateStage now w)))) ->
    tick_outcome now w.

(** The source label [stop] formats into the user-stop message. *)
Definition source_label (source : AlarmStopSource) : string :=
  match source with
  | STOP_TELEGRAM_COMMAND => "Telegram"
  | STOP_SILENCE_BUTTON => "Button"
  | _ => "Unknown"
  end.

(** A sequence of calls, first call first. *)
Definition run (cs : list Call) (w : World) : World :=
  fold_left (fun w c => exec c w) cs w.

(** ** Polling a button *)

(** One poll of a button: the clock value and the raw reading. *)
Definition Sample : Type := (Z * bool)%type.

(** The stable state [debounceButton] returns at each poll of a sequence. *)
Fixpoint stable_history (b : ButtonState) (l : list Sample) : list bool :=
  match l with
  | [] => []
  | (t, r) :: l' =>
      let b' := snd (debounceButton t r b) in
      stableState b' :: stable_history b' l'
  end.

(** How often a sequence of stable states changes, coming from [s]. *)
Fixpoint changes (s : bool) (h : list bool) : nat :=
  match h with
  | [] => 0%nat
  | x :: h' => ((if Bool.eqb x s then 0 else 1) + changes x h')%nat
  end.

(** The time a run of samples spans on the clock, first poll to last. *)
Definition span (run : list Sample) : Z :=
  sub32 (fst (last run (0, false))) (fst (hd (0, false) run)).

(** One pass of the outer loop over the buttons: the clock and the three raw
    readings (test, silence, reset). *)
Definition ButtonPoll : Type := (Z * (bool * bool * bool))%type.

Definition poll_buttons (p : ButtonPoll) (h : Hardware) : Hardware :=
  let '(t, (tr, sr, rr)) := p in updateButtons t tr sr rr h.

Definition poll_all (l : list ButtonPoll) (h : Hardware) : Hardware :=
  fold_left (fun h p => poll_buttons p h) l h.

(** The debounced state of the reset button after each poll of a sequence. *)
Fixpoint reset_history (h : Hardware) (l : list ButtonPoll) : list bool :=
  match l with
  | [] => []
  | p :: l' =>
      let h' := poll_buttons p h in
      isResetButtonPressed h' :: reset_history h' l'
  end.

(** ** The escalation timeline *)

(** The clock [e] milliseconds after it showed [T]. *)
Definition tick_time (T e : Z) : Z := (T + e) mod UINT32_MOD.

(** A schedule of [update] ticks, each given by its offset in milliseconds
    from the start of the alarm: it misses no millisecond when every tick
    comes in the same millisecond as the one before or in the next. *)
Fixpoint dense_from (e0 : Z) (es : list Z) : bool :=
  match es with
  | [] => true
  | e :: r => ((e =? e0) || (e =? e0 + 1)) && dense_from e r
  end.

Definition run_updates (T : Z) (es : list Z) (w : World) : World :=
  fold_left (fun w e => update (tick_time T e) w) es w.

(** No periodic hardware check can fail: they are disabled, or neither
    circuit is marked Failed. *)
Definition checks_pass (w : World) : Prop :=
  hardwareChecksEnabled (ctl w) = false \/
  (smallBuzzer (state (hw w)) <> HW_STATUS_FAILED /\
   largeBuzzer (state (hw w)) <> HW_STATUS_FAILED).

(** The state the timeline prescribes [e] milliseconds into the alarm. *)
Definition phase (e : Z) : AlarmState :=
  if e <? 3000 then ALARM_TRIGGERED
  else if e <? 33000 then ALARM_WARNING
  else if e <? 63000 then ALARM_ALERT
  else if e <? 300000 then ALARM_EMERGENCY
  else ALARM_IDLE.

(** The controller of an alarm started at [T], as the last tick at offset
    [e] leaves it while the alarm runs... *)
Definition stage_ok (T e : Z) (c : AlarmController) : Prop :=
  (e < 3000 /\ currentState c = ALARM_TRIGGERED /\ stageStartTime c = T) \/
  (3000 <= e < 33000 /\ currentState c = ALARM_WARNING /\
   stageStartTime c = tick_time T 3000) \/
  (33000 <= e < 63000 /\ currentState c = ALARM_ALERT /\
   stageStartTime c = tick_time T 33000) \/
  (63000 <= e /\ currentState c = ALARM_EMERGENCY).

(** ... and once the safety timeout has fired, which it never does for an
    alarm whose start timestamp is 0. *)
Definition timeline_inv (T e : Z) (c : AlarmController) : Prop :=
  alarmStartTime c = T /\
  ((stage_ok T e c /\ (T <> 0 -> e < 300000)) \/
   (T <> 0 /\ 300000 <= e /\ currentState c = ALARM_IDLE /\
    stopSource (lastStatistics c) = STOP_SAFETY_TIMEOUT)).

(** One tick in each of the [n] milliseconds that follow offset [e]. *)
Fixpoint ms_after (e : Z) (n : nat) : list Z :=
  match n with
  | O => []
  | S n' => (e + 1) :: ms_after (e + 1) n'
  end.

(** One tick in each of the first [n] milliseconds of the alarm. *)
Definition every_ms (n : nat) : list Z := ms_after 0 n.

(** ** What the buzzers may do in each state *)

(** The duties the two channels may carry in state [s]: both off in Idle and
    during the Triggered delay, the large buzzer off outside Emergency, the
    small buzzer on throughout Emergency, and never a duty other than
    [BUZZER_OFF] or [BUZZER_ON]. *)
Definition policy_at (s : AlarmState) (small large : Z) : Prop :=
  (small = BUZZER_OFF \/ small = BUZZER_ON) /\
  (large = BUZZER_OFF \/ large = BUZZER_ON) /\
  match s with
  | ALARM_IDLE | ALARM_TRIGGERED => small = BUZZER_OFF /\ large = BUZZER_OFF
  | ALARM_WARNING | ALARM_ALERT => large = BUZZER_OFF
  | ALARM_EMERGENCY => small = BUZZER_ON
  | _ => False
  end.

Definition actuator_policy (w : World) : Prop :=
  policy_at (currentState (ctl w)) (pwmSmall (hw w)) (pwmLarge (hw w)).

(** ** Notifications *)

Definition is_message (e : Event) : bool :=
  match e with
  | EvSendMessage _ => true
  | _ => false
  end.

(** The messages passed to the bot so far, oldest first. *)
Definition messages (w : World) : list Event := filter is_message (trace w).

(** Whether [sendTelegramNotification] lets a message through. *)
Definition audible (w : World) : bool :=
  telegramNotificationsEnabled (ctl w) && botOnline w.

Definition announce (a : bool) (m : Message) : list Event :=
  if a then [EvSendMessage m] else [].

(** The message the entry action of a state sends. *)
Definition entry_messages (a : bool) (s : AlarmState) : list Event :=
  match s with
  | ALARM_WARNING => announce a MSG_WARNING_STARTED
  | ALARM_ALERT => announce a MSG_ALERT_STARTED
  | ALARM_EMERGENCY => announce a MSG_EMERGENCY_STARTED
  | _ => []
  end.

(** The message [stop] sends for a reason, given the seconds it reports. *)
Definition stop_messages (a : bool) (source : AlarmStopSource) (seconds : Z)
  : list Event :=
  match source with
  | STOP_SAFETY_TIMEOUT => announce a MSG_ALARM_TIMEOUT
  | STOP_HARDWARE_ERROR => []
  | _ => announce a (MSG_ALARM_STOPPED seconds (source_label source))
  end.

(** The message [checkHardwareHealth] sends in state [s]. *)
Definition failure_messages (a : bool) (s : AlarmState) (h : HardwareState)
  : list Event :=
  if (AlarmState_eqb s ALARM_WARNING || AlarmState_eqb s ALARM_ALERT) &&
     HardwareStatus_eqb (smallBuzzer h) HW_STATUS_FAILED
  then announce a MSG_ERROR_BUZZER_SMALL
  else if AlarmState_eqb s ALARM_EMERGENCY &&
          HardwareStatus_eqb (largeBuzzer h) HW_STATUS_FAILED
  then announce a MSG_ERROR_BUZZER_LARGE
  else if HardwareStatus_eqb (smallBuzzer h) HW_STATUS_FAILED &&
          HardwareStatus_eqb (largeBuzzer h) HW_STATUS_FAILED
  then announce a MSG_ERROR_BOTH_BUZZERS
  else [].

(** ** The pulse pattern of the Warning stage *)

(** Calls of [pulseSmallBuzzer] at the offsets [es] from clock value [t0]. *)
Definition pulse_run (t0 : Z) (es : list Z) (w : World) : World :=
  fold_left (fun w e => snd (pulseSmallBuzzer (tick_time t0 e) w)) es w.

(** The pattern [e] milliseconds after it began at [t0]: on during the even
    half seconds, off during the odd ones, the last toggle at the start of
    the current half second. *)
Definition pulse_inv (t0 e : Z) (h : Hardware) : Prop :=
  pulseStartTime h = t0 /\
  pulseState h = Z.even (e / 500) /\
  lastPulseToggle h = tick_time t0 (500 * (e / 500)) /\
  pwmSmall h = (if Z.even (e / 500) then BUZZER_ON else BUZZER_OFF).

(** ** The blinking alarm LED (hardware.cpp) *)

(** [updateSingleLED(led, pin)]: the LED's blink state together with the
    level last written to its pin. *)
Definition updateSingleLED (now : Z) (led : LEDState) (pin : bool)
  : LEDState * bool :=
  if negb (enabled led) then (led, pin)
  else
    let currentTime := now in
    if interval led <=? sub32 currentTime (lastToggle led)
    then
      (mkLEDState (enabled led) (negb (ledCurrentState led)) (interval led)
         currentTime,
       negb (ledCurrentState led))
    else (led, pin).

(** [updateLEDs], for the alarm LED, the one LED the record carries. *)
Definition updateLEDs (now : Z) (w : World) : World :=
  if negb (ledsEnabled (state (hw w))) then w
  else
    let '(l, p) := updateSingleLED now (alarmLED (hw w)) (pinAlarmLED (hw w)) in
    Hardware.set_alarmLED l p w.

(** Polls of [updateLEDs] at the offsets [es] from clock value [t0]. *)
Definition led_run (t0 : Z) (es : list Z) (w : World) : World :=
  fold_left (fun w e => updateLEDs (tick_time t0 e) w) es w.

(** The messages an undisturbed alarm has passed to the bot when its last
    tick came [e] milliseconds after the start. *)
Definition sent (a : bool) (e : Z) : list Event :=
  announce a MSG_WAKE_RECEIVED ++
  (if 3000 <=? e then announce a MSG_WARNING_STARTED else []) ++
  (if 33000 <=? e then announce a MSG_ALERT_STARTED else []) ++
  (if 63000 <=? e then announce a MSG_EMERGENCY_STARTED else []) ++
  (if 300000 <=? e then announce a MSG_ALARM_TIMEOUT else []).

(** ** Setup (hardware.cpp, alarm_controller.cpp, main.cpp) *)

Definition setupPWM (w : World) : World :=
  ledcWrite BUZZER_PWM_CHANNEL_LARGE 0 (ledcWrite BUZZER_PWM_CHANNEL_SMALL 0 w).

(** [Hardware::begin]: the pins are configured and driven low, the PWM
    channels set up at duty 0, and the self-test run, with the read-backs it
    gets; its result is ignored and the function returns true. *)
Definition Hardware_begin (smallHigh largeHigh : bool) (w : World)
  : bool * World :=
  let w1 := Hardware.set_alarmLED (alarmLED (hw w)) false w in
  let w2 := setupPWM w1 in
  let '(_, w3) := checkBuzzerCircuits smallHigh largeHigh w2 in
  (true, w3).

(** [AlarmController::begin]. *)
Definition AlarmController_begin (w : World) : bool * World :=
  if HardwareStatus_eqb (smallBuzzer (state (hw w))) HW_STATUS_UNKNOWN
  then (false, w)
  else
    let w1 := stopAllBuzzers w in
    let c := ctl w1 in
    (true,
     with_ctl (mkAlarmController ALARM_IDLE (previousState c) (stageStartTime c)
                 (alarmStartTime c) (telegramNotificationsEnabled c)
                 (hardwareChecksEnabled c) (lastStatistics c)
                 (lastHardwareError c) (testMode c) (lastCheck c)) w1).

(** The two objects as their constructors leave them. *)
Definition constructed (online : bool) : World :=
  mkWorld init init_hw online [].

(** The part of [setup()] that concerns the two objects: [hardware.begin()],
    a second circuit check, [alarmController.begin()] and the two setters.
    The four booleans are the read-backs of the two circuit checks. *)
Definition setup (s1 l1 s2 l2 : bool) (w : World) : World :=
  let w1 := snd (Hardware_begin s1 l1 w) in
  let w2 := snd (checkBuzzerCircuits s2 l2 w1) in
  let w3 := snd (AlarmController_begin w2) in
  setHardwareChecksEnabled true (setTelegramNotificationsEnabled true w3).

(** ** The /wake command (main.cpp, telegram_bot.cpp) *)






(** ** The alarm LED by stage *)

(** What the LED code reads and writes: the enable switch, the blink state
    of the alarm LED and the level last written to its pin. *)
Definition led_view (w : World) : bool * LEDState * bool :=
  (ledsEnabled (state (hw w)), alarmLED (hw w), pinAlarmLED (hw w)).

(** The alarm LED the entry actions of [transitionToState] set up for state
    [s]: off in Idle, steadily on during the Triggered delay, blinking with
    the stage's interval in the three alarm stages. *)
Definition led_at (s : AlarmState) (v : bool * LEDState * bool) : Prop :=
  let '(en, l, pin) := v in
  en = true /\
  match s with
  | ALARM_IDLE => enabled l = false /\ pin = false
  | ALARM_TRIGGERED => enabled l = false /\ pin = true
  | ALARM_WARNING => enabled l = true /\ interval l = LED_BLINK_SLOW
  | ALARM_ALERT => enabled l = true /\ interval l = LED_BLINK_MEDIUM
  | ALARM_EMERGENCY => enabled l = true /\ interval l = LED_BLINK_FAST
  | _ => False
  end.

Definition led_policy (w : World) : Prop :=
  led_at (currentState (ctl w)) (led_view w).

(** What [loop()] and the command handlers do to the two objects: a call of
    the controller's interface, or [hardware.updateLEDs()]. *)
Inductive LoopCall : Type :=
| Controller (c : Call)
| LedTick (now : Z).

Definition loop_exec (c : LoopCall) (w : World) : World :=
  match c with
  | Controller c => exec c w
  | LedTick now => updateLEDs now w
  end.

Definition loop_run (cs : list LoopCall) (w : World) : World :=
  fold_left (fun w c => loop_exec c w) cs w.

Definition is_reset (c : LoopCall) : bool :=
  match c with
  | Controller CallReset => true
  | _ => false
  end.

(** * Proofs *)

(** ** Frame lemmas: what each hardware call leaves alone *)

Lemma AlarmState_eqb_eq (a b : AlarmState) : AlarmState_eqb a b = true <-> a = b.
Proof. split; [destruct a, b; simpl; congruence | intros ->; destruct b; reflexivity]. Qed.

Lemma AlarmState_eqb_refl (a : AlarmState) : AlarmState_eqb a a = true.
Proof. destruct a; reflexivity. Qed.

Lemma isActive_iff (w : World) :
  isActive w = true <->
  currentState (ctl w) = ALARM_TRIGGERED \/ currentState (ctl w) = ALARM_WARNING \/
  currentState (ctl w) = ALARM_ALERT \/ currentState (ctl w) = ALARM_EMERGENCY.
Proof.
  unfold isActive. destruct (currentState (ctl w)); simpl; split; intro H;
    try discriminate; try reflexivity; intuition congruence.
Qed.

Lemma isActive_false_iff (w : World) :
  isActive w = false <->
  currentState (ctl w) = ALARM_IDLE \/ is_stopped (currentState (ctl w)) = true.
Proof.
  unfold isActive. destruct (currentState (ctl w)); simpl; split; intro H;
    try discriminate; try reflexivity; intuition congruence.
Qed.

Ltac break_if :=
  match goal with
  | |- context [if ?b then _ else _] => destruct b eqn:?
  end.

Section HardwareFrame.
Variables (now : Z) (w : World).

Lemma ledcWrite_ctl ch d : ctl (ledcWrite ch d w) = ctl w.
Proof. reflexivity. Qed.

Lemma ledcWrite_state ch d : state (hw (ledcWrite ch d w)) = state (hw w).
Proof. destruct ch; reflexivity. Qed.

Lemma ledcWrite_online ch d : botOnline (ledcWrite ch d w) = botOnline w.
Proof. reflexivity. Qed.

Lemma stopAllBuzzers_ctl : ctl (stopAllBuzzers w) = ctl w.
Proof. reflexivity. Qed.

Lemma stopAllBuzzers_state : state (hw (stopAllBuzzers w)) = state (hw w).
Proof. reflexivity. Qed.

Lemma stopAllBuzzers_online : botOnline (stopAllBuzzers w) = botOnline w.
Proof. reflexivity. Qed.

Lemma stopAllBuzzers_silent : silent (stopAllBuzzers w).
Proof. split; reflexivity. Qed.

Lemma stopAllBuzzers_trace :
  trace (stopAllBuzzers w) =
  trace w ++ [EvLedcWrite BUZZER_PWM_CHANNEL_SMALL 0;
              EvLedcWrite BUZZER_PWM_CHANNEL_LARGE 0].
Proof. unfold stopAllBuzzers; simpl. now rewrite <- app_assoc. Qed.

Lemma pulseSmallBuzzer_ctl : ctl (snd (pulseSmallBuzzer now w)) = ctl w.
Proof. unfold pulseSmallBuzzer. repeat break_if; reflexivity. Qed.

Lemma pulseSmallBuzzer_state :
  state (hw (snd (pulseSmallBuzzer now w))) = state (hw w).
Proof. unfold pulseSmallBuzzer. repeat break_if; reflexivity. Qed.

Lemma pulseSmallBuzzer_online :
  botOnline (snd (pulseSmallBuzzer now w)) = botOnline w.
Proof. unfold pulseSmallBuzzer. repeat break_if; reflexivity. Qed.

Lemma setAlarmLED_ctl b : ctl (setAlarmLED b w) = ctl w.
Proof. unfold setAlarmLED. break_if; reflexivity. Qed.

Lemma setAlarmLED_state b : state (hw (setAlarmLED b w)) = state (hw w).
Proof. unfold setAlarmLED. break_if; reflexivity. Qed.

Lemma setAlarmLED_online b : botOnline (setAlarmLED b w) = botOnline w.
Proof. unfold setAlarmLED. break_if; reflexivity. Qed.

Lemma setAlarmLED_trace b : trace (setAlarmLED b w) = trace w.
Proof. unfold setAlarmLED. break_if; reflexivity. Qed.

Lemma setAlarmLED_pwm b :
  pwmSmall (hw (setAlarmLED b w)) = pwmSmall (hw w) /\
  pwmLarge (hw (setAlarmLED b w)) = pwmLarge (hw w).
Proof. unfold setAlarmLED. break_if; split; reflexivity. Qed.

Lemma blinkAlarmLED_ctl i : ctl (blinkAlarmLED now i w) = ctl w.
Proof. reflexivity. Qed.

Lemma sendTelegramNotification_ctl m : ctl (sendTelegramNotification m w) = ctl w.
Proof. unfold sendTelegramNotification. repeat break_if; reflexivity. Qed.

Lemma sendTelegramNotification_hw m : hw (sendTelegramNotification m w) = hw w.
Proof. unfold sendTelegramNotification. repeat break_if; reflexivity. Qed.

Lemma sendTelegramNotification_online m :
  botOnline (sendTelegramNotification m w) = botOnline w.
Proof. unfold sendTelegramNotification. repeat break_if; reflexivity. Qed.

Lemma sendTelegramNotification_trace m :
  trace (sendTelegramNotification m w) =
  trace w ++
  (if telegramNotificationsEnabled (ctl w) && botOnline w
   then [EvSendMessage m] else []).
Proof.
  unfold sendTelegramNotification.
  destruct (telegramNotificationsEnabled (ctl w)), (botOnline w); simpl;
    now rewrite ?app_nil_r.
Qed.
End HardwareFrame.

(** ** [transitionToState] *)

Section Transition.
Variables (now : Z) (s : AlarmState) (w : World).

Lemma transition_ctl :
  ctl (transitionToState now s w) =
  if AlarmState_eqb s (currentState (ctl w)) then ctl w
  else enter_state s now (ctl w).
Proof.
  unfold transitionToState. break_if; [reflexivity|].
  destruct s; simpl;
    rewrite ?setAlarmLED_ctl, ?sendTelegramNotification_ctl; reflexivity.
Qed.

Lemma transition_currentState :
  currentState (ctl (transitionToState now s w)) = s.
Proof.
  rewrite transition_ctl. break_if; [|reflexivity].
  symmetry. now apply AlarmState_eqb_eq.
Qed.

Lemma transition_state : state (hw (transitionToState now s w)) = state (hw w).
Proof.
  unfold transitionToState. break_if; [reflexivity|].
  destruct s; simpl;
    rewrite ?setAlarmLED_state, ?sendTelegramNotification_hw; reflexivity.
Qed.

Lemma transition_online : botOnline (transitionToState now s w) = botOnline w.
Proof.
  unfold transitionToState. break_if; [reflexivity|].
  destruct s; simpl;
    rewrite ?setAlarmLED_online; unfold blinkAlarmLED, Hardware.set_alarmLED; simpl;
    rewrite ?sendTelegramNotification_online; reflexivity.
Qed.

Lemma transition_idle_silent : s = ALARM_IDLE ->
  currentState (ctl w) <> ALARM_IDLE -> silent (transitionToState now s w).
Proof.
  intros -> Hne. unfold transitionToState.
  destruct (AlarmState_eqb ALARM_IDLE (currentState (ctl w))) eqn:E.
  - apply AlarmState_eqb_eq in E. congruence.
  - unfold silent.
    destruct (setAlarmLED_pwm
                (stopAllBuzzers (with_ctl (enter_state ALARM_IDLE now (ctl w)) w))
                false) as [-> ->].
    split; reflexivity.
Qed.
End Transition.

(** ** [stop] *)

Lemma stopped_state_of_stopped (source : AlarmStopSource) :
  is_stopped (stopped_state_of source) = true.
Proof. destruct source; reflexivity. Qed.

Lemma stop_inactive (now : Z) (source : AlarmStopSource) (w : World) :
  isActive w = false -> stop now source w = (false, w).
Proof. intros H. unfold stop. now rewrite H. Qed.

Section StopActive.
Variables (now : Z) (source : AlarmStopSource) (w : World).
Hypothesis Hactive : isActive w = true.

Let record : AlarmStatistics :=
  mkAlarmStatistics (alarmStartTime (ctl w)) now
    (sub32 now (alarmStartTime (ctl w)) / 1000) source (currentState (ctl w))
    (match source with STOP_HARDWARE_ERROR => true | _ => false end).

(** The world in which the first of the two transitions has been made. *)
Let waypoint : World :=
  transitionToState now (stopped_state_of source)
    (match source with
     | STOP_SAFETY_TIMEOUT =>
         sendTelegramNotification MSG_ALARM_TIMEOUT
           (calculateStatistics now source (stopAllBuzzers w))
     | STOP_HARDWARE_ERROR => calculateStatistics now source (stopAllBuzzers w)
     | _ =>
         sendTelegramNotification
           (MSG_ALARM_STOPPED (duration record)
              (match source with
               | STOP_TELEGRAM_COMMAND => "Telegram"
               | STOP_SILENCE_BUTTON => "Button"
               | _ => "Unknown"
               end%string))
           (calculateStatistics now source (stopAllBuzzers w))
     end).

Lemma stop_active_unfold :
  stop now source w = (true, transitionToState now ALARM_IDLE waypoint).
Proof.
  unfold stop, waypoint, record. rewrite Hactive. simpl negb. cbv iota.
  destruct source; reflexivity.
Qed.

Lemma waypoint_ctl :
  ctl waypoint =
  enter_state (stopped_state_of source) now (set_lastStatistics record (ctl w)).
Proof.
  assert (Hne : AlarmState_eqb (stopped_state_of source) (currentState (ctl w))
                = false).
  { apply isActive_iff in Hactive.
    destruct source; destruct Hactive as [E|[E|[E|E]]]; rewrite E; reflexivity. }
  unfold waypoint. rewrite transition_ctl.
  destruct source; simpl in Hne |- *; rewrite ?sendTelegramNotification_ctl;
    simpl; rewrite Hne; reflexivity.
Qed.

Lemma stop_active_ctl :
  ctl (snd (stop now source w)) =
  enter_state ALARM_IDLE now
    (enter_state (stopped_state_of source) now
       (set_lastStatistics record (ctl w))).
Proof.
  rewrite stop_active_unfold. simpl snd. rewrite transition_ctl, waypoint_ctl.
  destruct source; reflexivity.
Qed.

Lemma stop_active_silent : silent (snd (stop now source w)).
Proof.
  rewrite stop_active_unfold. simpl snd.
  apply transition_idle_silent; [reflexivity|].
  rewrite waypoint_ctl. destruct source; discriminate.
Qed.

Lemma stop_active_state :
  state (hw (snd (stop now source w))) = state (hw w).
Proof.
  rewrite stop_active_unfold. simpl snd. rewrite transition_state.
  unfold waypoint. rewrite transition_state.
  destruct source; rewrite ?sendTelegramNotification_hw; reflexivity.
Qed.

Lemma stop_active_online : botOnline (snd (stop now source w)) = botOnline w.
Proof.
  rewrite stop_active_unfold. simpl snd. rewrite transition_online.
  unfold waypoint. rewrite transition_online.
  destruct source; rewrite ?sendTelegramNotification_online; reflexivity.
Qed.

Lemma stop_active_isActive : isActive (snd (stop now source w)) = false.
Proof. unfold isActive. now rewrite stop_active_ctl. Qed.
End StopActive.

(** ** [start] *)

Lemma start_active (now : Z) (w : World) :
  isActive w = true -> start now w = (false, w).
Proof. intros H. unfold start. now rewrite H. Qed.

Section StartInactive.
Variables (now : Z) (w : World).
Hypothesis Hinactive : isActive w = false.

Lemma start_inactive_fst : fst (start now w) = true.
Proof. unfold start. now rewrite Hinactive. Qed.

Lemma start_inactive_ctl :
  ctl (snd (start now w)) =
  enter_state ALARM_TRIGGERED now
    (set_testMode false (set_alarmStartTime now (ctl w))).
Proof.
  unfold start. rewrite Hinactive. simpl snd.
  rewrite sendTelegramNotification_ctl, transition_ctl. simpl.
  apply isActive_false_iff in Hinactive.
  destruct (currentState (ctl w)); simpl in *; try reflexivity;
    destruct Hinactive; discriminate.
Qed.

Lemma start_inactive_state : state (hw (snd (start now w))) = state (hw w).
Proof.
  unfold start. rewrite Hinactive. simpl snd.
  now rewrite sendTelegramNotification_hw, transition_state.
Qed.

Lemma start_inactive_isActive : isActive (snd (start now w)) = true.
Proof. unfold isActive. now rewrite start_inactive_ctl. Qed.
End StartInactive.

(** ** The three parts of [update] *)

Section UpdateParts.
Variables (now : Z) (w : World).

Lemma updateBuzzerOutput_ctl : ctl (updateBuzzerOutput now w) = ctl w.
Proof.
  unfold updateBuzzerOutput.
  destruct (currentState (ctl w)); try reflexivity. apply pulseSmallBuzzer_ctl.
Qed.

Lemma updateBuzzerOutput_state :
  state (hw (updateBuzzerOutput now w)) = state (hw w).
Proof.
  unfold updateBuzzerOutput.
  destruct (currentState (ctl w)); try reflexivity. apply pulseSmallBuzzer_state.
Qed.

Lemma updateBuzzerOutput_online :
  botOnline (updateBuzzerOutput now w) = botOnline w.
Proof.
  unfold updateBuzzerOutput.
  destruct (currentState (ctl w)); try reflexivity. apply pulseSmallBuzzer_online.
Qed.

Lemma updateStage_ctl :
  ctl (updateStage now w) =
  match currentState (ctl w) with
  | ALARM_TRIGGERED | ALARM_WARNING | ALARM_ALERT =>
      if getStateDuration (currentState (ctl w)) <=?
         sub32 now (stageStartTime (ctl w))
      then enter_state (next_stage (currentState (ctl w))) now (ctl w)
      else ctl w
  | _ => ctl w
  end.
Proof.
  unfold updateStage.
  destruct (currentState (ctl w)) eqn:E; try reflexivity.
  - unfold updateTriggeredState, isStageDurationExceeded. rewrite E.
    break_if; [|reflexivity]. rewrite transition_ctl, E. reflexivity.
  - unfold updateWarningState, isStageDurationExceeded.
    rewrite updateBuzzerOutput_ctl, E.
    break_if; [|apply updateBuzzerOutput_ctl].
    rewrite transition_ctl, updateBuzzerOutput_ctl, E. reflexivity.
  - unfold updateAlertState, isStageDurationExceeded.
    rewrite updateBuzzerOutput_ctl, E.
    break_if; [|apply updateBuzzerOutput_ctl].
    rewrite transition_ctl, updateBuzzerOutput_ctl, E. reflexivity.
  - apply updateBuzzerOutput_ctl.
Qed.

Lemma updateStage_state : state (hw (updateStage now w)) = state (hw w).
Proof.
  unfold updateStage, updateTriggeredState, updateWarningState,
    updateAlertState, updateEmergencyState, updateIdleState.
  destruct (currentState (ctl w)); try reflexivity; repeat break_if;
    rewrite ?transition_state; try apply updateBuzzerOutput_state; reflexivity.
Qed.

Lemma updateStage_online : botOnline (updateStage now w) = botOnline w.
Proof.
  unfold updateStage, updateTriggeredState, updateWarningState,
    updateAlertState, updateEmergencyState, updateIdleState.
  destruct (currentState (ctl w)); try reflexivity; repeat break_if;
    rewrite ?transition_online; try apply updateBuzzerOutput_online; reflexivity.
Qed.

Lemma updateStage_inactive : isActive w = false -> updateStage now w = w.
Proof.
  intros H. apply isActive_false_iff in H. unfold updateStage.
  destruct (currentState (ctl w)); simpl in H; try reflexivity;
    destruct H; discriminate.
Qed.

Lemma updateStage_active :
  isActive w = true -> isActive (updateStage now w) = true.
Proof.
  intros H. unfold isActive in *. rewrite updateStage_ctl.
  destruct (currentState (ctl w)) eqn:E; try discriminate;
    try break_if; simpl; rewrite ?E; reflexivity.
Qed.

Lemma checkHardwareHealth_fst :
  fst (checkHardwareHealth w) =
  negb (relevant_failure (currentState (ctl w)) (state (hw w))).
Proof.
  unfold checkHardwareHealth, relevant_failure.
  destruct (currentState (ctl w)); simpl;
    destruct (HardwareStatus_eqb (smallBuzzer (state (hw w))) HW_STATUS_FAILED),
             (HardwareStatus_eqb (largeBuzzer (state (hw w))) HW_STATUS_FAILED);
    reflexivity.
Qed.

Lemma checkHardwareHealth_ok :
  fst (checkHardwareHealth w) = true -> snd (checkHardwareHealth w) = w.
Proof. unfold checkHardwareHealth. repeat break_if; simpl; congruence. Qed.

Lemma checkHardwareHealth_currentState :
  currentState (ctl (snd (checkHardwareHealth w))) = currentState (ctl w).
Proof.
  unfold checkHardwareHealth. repeat break_if; simpl;
    rewrite ?sendTelegramNotification_ctl; reflexivity.
Qed.

Lemma checkHardwareHealth_ctl :
  exists e,
    ctl (snd (checkHardwareHealth w)) = set_lastHardwareError e (ctl w).
Proof.
  unfold checkHardwareHealth. repeat break_if; simpl;
    rewrite ?sendTelegramNotification_ctl; simpl; eauto.
  exists (lastHardwareError (ctl w)). destruct (ctl w); reflexivity.
Qed.

Lemma checkHardwareHealth_state :
  state (hw (snd (checkHardwareHealth w))) = state (hw w).
Proof.
  unfold checkHardwareHealth. repeat break_if; simpl;
    rewrite ?sendTelegramNotification_hw; reflexivity.
Qed.

Lemma checkHardwareHealth_online :
  botOnline (snd (checkHardwareHealth w)) = botOnline w.
Proof.
  unfold checkHardwareHealth. repeat break_if; simpl;
    rewrite ?sendTelegramNotification_online; reflexivity.
Qed.

Lemma updateSafety_inactive : isActive w = false -> updateSafety now w = w.
Proof. intros H. unfold updateSafety. now rewrite H. Qed.

Lemma updateHealth_inactive : isActive w = false -> updateHealth now w = w.
Proof. intros H. unfold updateHealth. now rewrite H. Qed.

Lemma update_inactive : isActive w = false -> update now w = w.
Proof.
  intros H. unfold update.
  now rewrite updateStage_inactive, updateSafety_inactive,
    updateHealth_inactive.
Qed.
End UpdateParts.

(** ** The invariant of the call interface *)

Lemma stop_rest_or_active (now : Z) (source : AlarmStopSource) (w : World) :
  rest_or_active w -> rest_or_active (snd (stop now source w)).
Proof.
  intros H. destruct (isActive w) eqn:E.
  - left. split; [now rewrite stop_active_ctl | now apply stop_active_silent].
  - now rewrite stop_inactive.
Qed.

Lemma updateSafety_rest_or_active (now : Z) (w : World) :
  rest_or_active w -> rest_or_active (updateSafety now w).
Proof.
  intros H. unfold updateSafety. break_if; [|assumption].
  now apply stop_rest_or_active.
Qed.

Lemma updateHealth_rest_or_active (now : Z) (w : World) :
  rest_or_active w -> rest_or_active (updateHealth now w).
Proof.
  intros H. unfold updateHealth.
  destruct (isActive w && hardwareChecksEnabled (ctl w)) eqn:E; [|assumption].
  apply andb_true_iff in E. destruct E as [Ea _].
  break_if; [|assumption].
  set (w1 := with_ctl (set_lastCheck now (ctl w)) w).
  assert (Ha1 : isActive w1 = true) by exact Ea.
  destruct (checkHardwareHealth w1) as [ok w2] eqn:Ec.
  assert (Ha2 : isActive w2 = true).
  { unfold isActive.
    replace w2 with (snd (checkHardwareHealth w1)) by now rewrite Ec.
    rewrite checkHardwareHealth_currentState. exact Ha1. }
  destruct ok; simpl.
  - now right.
  - apply stop_rest_or_active. now right.
Qed.

Lemma update_rest_or_active (now : Z) (w : World) :
  rest_or_active w -> rest_or_active (update now w).
Proof.
  intros H. unfold update.
  apply updateHealth_rest_or_active, updateSafety_rest_or_active.
  destruct (isActive w) eqn:E.
  - right. now apply updateStage_active.
  - now rewrite updateStage_inactive.
Qed.

Lemma testBuzzer_ctl (ch : Channel) (w : World) : ctl (testBuzzer ch w) = ctl w.
Proof. reflexivity. Qed.

Lemma testBuzzer_small_pwm (w : World) :
  pwmSmall (hw (testBuzzer BUZZER_PWM_CHANNEL_SMALL w)) = 0 /\
  pwmLarge (hw (testBuzzer BUZZER_PWM_CHANNEL_SMALL w)) = pwmLarge (hw w).
Proof. split; reflexivity. Qed.

Lemma testBuzzer_large_pwm (w : World) :
  pwmLarge (hw (testBuzzer BUZZER_PWM_CHANNEL_LARGE w)) = 0 /\
  pwmSmall (hw (testBuzzer BUZZER_PWM_CHANNEL_LARGE w)) = pwmSmall (hw w).
Proof. split; reflexivity. Qed.

Lemma testAlarm_inactive (w : World) :
  isActive w = false ->
  currentState (ctl (snd (testAlarm w))) = currentState (ctl w) /\
  silent (snd (testAlarm w)).
Proof.
  intros E. unfold testAlarm. rewrite E. cbv zeta. cbn [snd].
  set (w1 := with_ctl (set_testMode true (ctl w)) w).
  set (w2 := sendTelegramNotification MSG_TEST_START w1).
  set (w3 := sendTelegramNotification MSG_TEST_SMALL w2).
  set (w4 := testBuzzer BUZZER_PWM_CHANNEL_SMALL w3).
  set (w5 := sendTelegramNotification MSG_TEST_LARGE w4).
  set (w6 := testBuzzer BUZZER_PWM_CHANNEL_LARGE w5).
  set (w7 := sendTelegramNotification MSG_TEST_COMPLETE w6).
  assert (Hc : currentState (ctl w7) = currentState (ctl w)).
  { unfold w7. rewrite sendTelegramNotification_ctl. unfold w6.
    rewrite testBuzzer_ctl. unfold w5. rewrite sendTelegramNotification_ctl.
    unfold w4. rewrite testBuzzer_ctl. unfold w3.
    rewrite sendTelegramNotification_ctl. unfold w2.
    rewrite sendTelegramNotification_ctl. reflexivity. }
  split; [exact Hc|].
  unfold silent. change (hw (with_ctl (set_testMode false (ctl w7)) w7)) with (hw w7).
  unfold w7. rewrite sendTelegramNotification_hw. unfold w6.
  destruct (testBuzzer_large_pwm w5) as [-> ->].
  unfold w5. rewrite sendTelegramNotification_hw. unfold w4.
  destruct (testBuzzer_small_pwm w3) as [-> _]. split; reflexivity.
Qed.

Lemma testAlarm_rest_or_active (w : World) :
  rest_or_active w -> rest_or_active (snd (testAlarm w)).
Proof.
  intros H. destruct (isActive w) eqn:E.
  - unfold testAlarm. rewrite E. exact H.
  - destruct H as [[Hs _]|Ha]; [|congruence].
    destruct (testAlarm_inactive w E) as [Hc Hsil].
    left. split; [congruence | exact Hsil].
Qed.

Lemma exec_rest_or_active (c : Call) (w : World) :
  rest_or_active w -> rest_or_active (exec c w).
Proof.
  intros H. destruct c; simpl.
  - destruct (isActive w) eqn:E.
    + now rewrite start_active.
    + right. now apply start_inactive_isActive.
  - now apply stop_rest_or_active.
  - now apply update_rest_or_active.
  - now apply testAlarm_rest_or_active.
  - left. split; [reflexivity | split; reflexivity].
  - exact H.
  - exact H.
  - exact H.
  - exact H.
Qed.

Lemma reachable_rest_or_active (w : World) :
  reachable w -> rest_or_active w.
Proof.
  induction 1 as [w [Hc Hs]|c w _ IH].
  - left. split; [now rewrite Hc | exact Hs].
  - now apply exec_rest_or_active.
Qed.

Lemma reachable_not_stopped (w : World) :
  reachable w -> is_stopped (currentState (ctl w)) = false.
Proof.
  intros H. destruct (reachable_rest_or_active w H) as [[E _]|E].
  - now rewrite E.
  - apply isActive_iff in E. destruct E as [E|[E|[E|E]]]; now rewrite E.
Qed.

(** ** One tick of [update] on an active machine *)

Lemma stop_active_stopped_ctl (now : Z) (source : AlarmStopSource) (w : World) :
  isActive w = true ->
  ctl (snd (stop now source w)) = stopped_ctl now source (ctl w).
Proof. intros H. now rewrite stop_active_ctl. Qed.

Lemma isActive_ctl (w w' : World) :
  currentState (ctl w) = currentState (ctl w') -> isActive w = isActive w'.
Proof. unfold isActive. now intros ->. Qed.

Lemma updateStage_alarmStartTime (now : Z) (w : World) :
  alarmStartTime (ctl (updateStage now w)) = alarmStartTime (ctl w).
Proof.
  rewrite updateStage_ctl.
  destruct (currentState (ctl w)); try break_if; reflexivity.
Qed.

Lemma updateStage_flags (now : Z) (w : World) :
  hardwareChecksEnabled (ctl (updateStage now w)) = hardwareChecksEnabled (ctl w) /\
  lastCheck (ctl (updateStage now w)) = lastCheck (ctl w) /\
  telegramNotificationsEnabled (ctl (updateStage now w)) =
  telegramNotificationsEnabled (ctl w).
Proof.
  rewrite updateStage_ctl.
  destruct (currentState (ctl w)); try break_if; repeat split; reflexivity.
Qed.

Lemma updateHealth_due (now : Z) (w : World) :
  isActive w = true -> hardwareChecksEnabled (ctl w) = true ->
  10000 <= sub32 now (lastCheck (ctl w)) ->
  let w2 := with_ctl (set_lastCheck now (ctl w)) w in
  updateHealth now w =
  if fst (checkHardwareHealth w2) then w2
  else snd (stop now STOP_HARDWARE_ERROR (snd (checkHardwareHealth w2))).
Proof.
  intros Ha He Hd w2. unfold updateHealth.
  rewrite Ha, He. apply Z.leb_le in Hd. rewrite Hd. cbn [andb].
  fold w2. pose proof (checkHardwareHealth_ok w2) as Hok.
  destruct (checkHardwareHealth w2) as [ok w3]. cbn [fst snd] in *.
  destruct ok; cbn [negb]; [now rewrite Hok|reflexivity].
Qed.

Lemma updateHealth_not_due (now : Z) (w : World) :
  hardwareChecksEnabled (ctl w) && (10000 <=? sub32 now (lastCheck (ctl w)))
  = false ->
  updateHealth now w = w.
Proof.
  intros H. unfold updateHealth.
  destruct (isActive w); [|reflexivity].
  destruct (hardwareChecksEnabled (ctl w)); [|reflexivity].
  cbn [andb] in *. now rewrite H.
Qed.

Lemma update_active_outcome (now : Z) (w : World) :
  isActive w = true -> tick_outcome now w.
Proof.
  intros Ha.
  pose proof (updateStage_active now w Ha) as Ha1.
  destruct (updateStage_flags now w) as (Hen & Hlc & _).
  pose proof (updateStage_state now w) as Hst.
  assert (Hu : update now w = updateHealth now (updateSafety now (updateStage now w)))
    by reflexivity.
  remember (updateStage now w) as w1 eqn:Ew1.
  destruct (isSafetyTimeoutReached now w1) eqn:Es.
  - apply tick_timeout; rewrite <- Ew1; [exact Es|].
    rewrite Hu. unfold updateSafety. rewrite Ha1, Es. cbn [andb].
    rewrite updateHealth_inactive by now apply stop_active_isActive.
    now apply stop_active_stopped_ctl.
  - assert (E2 : updateSafety now w1 = w1).
    { unfold updateSafety. now rewrite Ha1, Es. }
    rewrite E2 in Hu.
    destruct (hardwareChecksEnabled (ctl w) &&
              (10000 <=? sub32 now (lastCheck (ctl w)))) eqn:Ed.
    + apply andb_true_iff in Ed. destruct Ed as [Ee Ed].
      apply Z.leb_le in Ed.
      rewrite updateHealth_due in Hu by congruence.
      remember (with_ctl (set_lastCheck now (ctl w1)) w1) as w2 eqn:Ew2.
      assert (Hcs2 : currentState (ctl w2) = currentState (ctl w1))
        by now rewrite Ew2.
      assert (Hst2 : state (hw w2) = state (hw w)) by now rewrite Ew2.
      pose proof (checkHardwareHealth_fst w2) as Hf.
      rewrite Hcs2, Hst2 in Hf.
      destruct (fst (checkHardwareHealth w2)) eqn:Eok.
      * apply tick_check_passed; rewrite <- ?Ew1; try assumption.
        -- symmetry in Hf. now apply negb_true_iff in Hf.
        -- now rewrite Hu, Ew2.
      * destruct (checkHardwareHealth_ctl w2) as [e He].
        apply (tick_check_failed now w e); rewrite <- ?Ew1; try assumption.
        -- symmetry in Hf. now apply negb_false_iff in Hf.
        -- rewrite Hu. rewrite stop_active_stopped_ctl.
           ++ now rewrite He, Ew2.
           ++ rewrite (isActive_ctl _ w1); [exact Ha1|].
              now rewrite checkHardwareHealth_currentState.
    + apply tick_no_check; rewrite <- ?Ew1; try assumption.
      rewrite Hu. rewrite updateHealth_not_due; [reflexivity|].
      now rewrite Hen, Hlc.
Qed.

(** ** The trace of a successful [stop] *)

Lemma transition_trace_extends (now : Z) (s : AlarmState) (w : World) :
  exists rest, trace (transitionToState now s w) = trace w ++ rest.
Proof.
  unfold transitionToState. break_if; [exists []; now rewrite app_nil_r|].
  destruct s; cbv iota.
  - rewrite setAlarmLED_trace, stopAllBuzzers_trace. simpl. eauto.
  - rewrite setAlarmLED_trace. exists []. now rewrite app_nil_r.
  - unfold blinkAlarmLED, Hardware.set_alarmLED, with_hw. simpl trace.
    rewrite sendTelegramNotification_trace. simpl. eauto.
  - unfold blinkAlarmLED, Hardware.set_alarmLED, with_hw. simpl trace.
    rewrite sendTelegramNotification_trace. simpl. eauto.
  - unfold blinkAlarmLED, Hardware.set_alarmLED, with_hw. simpl trace.
    rewrite sendTelegramNotification_trace. simpl. eauto.
  - exists []. now rewrite app_nil_r.
  - exists []. now rewrite app_nil_r.
  - exists []. now rewrite app_nil_r.
Qed.

Lemma calculateStatistics_trace (now : Z) (source : AlarmStopSource) (w : World) :
  trace (calculateStatistics now source w) =
  trace w ++ [EvStatistics (session_record now source (ctl w))].
Proof. reflexivity. Qed.

Lemma stop_active_trace (now : Z) (source : AlarmStopSource) (w : World) :
  isActive w = true ->
  exists rest,
    trace (snd (stop now source w)) =
    trace w ++
    EvLedcWrite BUZZER_PWM_CHANNEL_SMALL 0 ::
    EvLedcWrite BUZZER_PWM_CHANNEL_LARGE 0 ::
    EvStatistics (lastStatistics (ctl (snd (stop now source w)))) :: rest.
Proof.
  intros Ha. rewrite stop_active_stopped_ctl by assumption.
  rewrite stop_active_unfold by assumption. cbn [snd].
  match goal with
  | |- context [transitionToState now ALARM_IDLE ?x] =>
      destruct (transition_trace_extends now ALARM_IDLE x) as [r2 ->];
      match x with
      | transitionToState now ?s ?y =>
          destruct (transition_trace_extends now s y) as [r1 ->]
      end
  end.
  change (lastStatistics (stopped_ctl now source (ctl w)))
    with (session_record now source (ctl w)).
  destruct source; rewrite ?sendTelegramNotification_trace;
    rewrite calculateStatistics_trace, stopAllBuzzers_trace;
    change (ctl (stopAllBuzzers w)) with (ctl w);
    rewrite <- !app_assoc; cbn [app]; eauto.
Qed.

(** * The claims *)

(** C1. The central safety invariant.  In every world reachable from power-on
    by any sequence of calls - [start], [stop] for any reason, [update], and
    also [testAlarm], [reset], the two configuration setters, a new circuit
    check and a change of the bot's status - a machine that is not active
    (Idle or a Stopped state) has both buzzer channels at duty 0.  And a
    successful [stop], for every reason, starts by writing duty 0 to the
    small and then the large channel: these are the first two things it does
    to the outside, ahead of the statistics record and of every message, and
    both channels are still at 0 when it returns. *)
Theorem C1_silence_invariant :
  (forall w : World,
      reachable w -> isActive w = false ->
      pwmSmall (hw w) = 0 /\ pwmLarge (hw w) = 0) /\
  (forall (now : Z) (source : AlarmStopSource) (w : World),
      isActive w = true ->
      fst (stop now source w) = true /\
      (exists rest,
          trace (snd (stop now source w)) =
          trace w ++
          EvLedcWrite BUZZER_PWM_CHANNEL_SMALL 0 ::
          EvLedcWrite BUZZER_PWM_CHANNEL_LARGE 0 ::
          EvStatistics (lastStatistics (ctl (snd (stop now source w)))) :: rest) /\
      pwmSmall (hw (snd (stop now source w))) = 0 /\
      pwmLarge (hw (snd (stop now source w))) = 0).
Proof.
  split.
  - intros w Hr Hi.
    destruct (reachable_rest_or_active w Hr) as [[_ Hs]|Ha]; [exact Hs|congruence].
  - intros now source w Ha. split; [|split].
    + now rewrite stop_active_unfold.
    + now apply stop_active_trace.
    + now apply stop_active_silent.
Qed.

Lemma boot_initial : initial boot.
Proof. repeat split. Qed.

Lemma C1_silence_invariant_witness :
  (let w := exec (CallUpdate 4000) (exec (CallStart 1000) boot) in
   let w' := exec (CallStop 5000 STOP_SILENCE_BUTTON) w in
   (pwmSmall (hw w') = 0 /\ pwmLarge (hw w') = 0) /\
   fst (stop 5000 STOP_SILENCE_BUTTON w) = true).
Proof.
  split.
  - apply (proj1 C1_silence_invariant).
    + do 3 apply reachable_call. apply reachable_initial, boot_initial.
    + reflexivity.
  - apply (proj2 C1_silence_invariant 5000 STOP_SILENCE_BUTTON). reflexivity.
Defined.

Lemma stop_after_start_idle (now now' : Z) (source : AlarmStopSource) (w : World) :
  currentState (ctl (snd (stop now' source (snd (start now w))))) = ALARM_IDLE.
Proof.
  destruct (isActive w) eqn:E.
  - rewrite start_active by assumption. simpl snd.
    now rewrite stop_active_ctl.
  - rewrite stop_active_ctl by now apply start_inactive_isActive.
    reflexivity.
Qed.

(** C2. A successful [stop], for every reason and from every active state,
    makes both transitions inside the one call: it reaches the Stopped state
    that matches the reason and goes on to Idle from there, so that on return
    the state is Idle with the matching Stopped state as [previousState],
    [isActive] is false, and [start] succeeds at once.  No world reachable
    through the call interface shows a Stopped state between two calls.  And
    [start] followed directly by [stop], whatever the reason and whatever the
    world before, ends in Idle and not active. *)
Theorem C2_stop_returns_to_idle :
  (forall (now : Z) (source : AlarmStopSource) (w : World),
      isActive w = true ->
      fst (stop now source w) = true /\
      (exists waypoint,
          currentState (ctl waypoint) = stopped_state_of source /\
          snd (stop now source w) = transitionToState now ALARM_IDLE waypoint) /\
      currentState (ctl (snd (stop now source w))) = ALARM_IDLE /\
      previousState (ctl (snd (stop now source w))) = stopped_state_of source /\
      isActive (snd (stop now source w)) = false /\
      (forall now' : Z, fst (start now' (snd (stop now source w))) = true)) /\
  (forall w : World, reachable w -> is_stopped (currentState (ctl w)) = false) /\
  (forall (now now' : Z) (source : AlarmStopSource) (w : World),
      currentState (ctl (snd (stop now' source (snd (start now w))))) = ALARM_IDLE /\
      isActive (snd (stop now' source (snd (start now w)))) = false).
Proof.
  split; [|split].
  - intros now source w Ha.
    pose proof (stop_active_isActive now source w Ha) as Hi.
    repeat split.
    + now rewrite stop_active_unfold.
    + rewrite stop_active_unfold by assumption. simpl snd.
      eexists. split; [|reflexivity].
      apply transition_currentState.
    + now rewrite stop_active_ctl.
    + now rewrite stop_active_ctl.
    + exact Hi.
    + intros now'. now apply start_inactive_fst.
  - exact reachable_not_stopped.
  - intros now now' source w.
    pose proof (stop_after_start_idle now now' source w) as H.
    split; [exact H|]. unfold isActive. now rewrite H.
Qed.

Lemma C2_stop_returns_to_idle_witness :
  let w := exec (CallUpdate 4000) (exec (CallStart 1000) boot) in
  currentState (ctl w) = ALARM_WARNING /\
  currentState (ctl (snd (stop 5000 STOP_TELEGRAM_COMMAND w))) = ALARM_IDLE /\
  is_stopped (currentState (ctl w)) = false.
Proof.
  split; [reflexivity|]. split.
  - apply (proj1 C2_stop_returns_to_idle 5000 STOP_TELEGRAM_COMMAND). reflexivity.
  - apply (proj1 (proj2 C2_stop_returns_to_idle)).
    do 2 apply reachable_call. apply reachable_initial, boot_initial.
Defined.

(** C4. Calls made in the wrong state are refused and change nothing.  In a
    world reached through the call interface, [start] outside Idle returns
    false and hands back the world untouched (in any world at all it does so
    whenever the machine is active); [stop], for every reason, does the same
    in Idle and in the three Stopped states, so in Idle the current state and
    the statistics of the last session stay as they were; and [testAlarm]
    does the same while the machine is active. *)
Theorem C4_invalid_calls_refused :
  (forall (now : Z) (w : World),
      reachable w -> currentState (ctl w) <> ALARM_IDLE ->
      start now w = (false, w)) /\
  (forall (now : Z) (w : World),
      isActive w = true -> start now w = (false, w)) /\
  (forall (now : Z) (source : AlarmStopSource) (w : World),
      currentState (ctl w) = ALARM_IDLE \/
      is_stopped (currentState (ctl w)) = true ->
      stop now source w = (false, w)) /\
  (forall (now : Z) (source : AlarmStopSource) (w : World),
      currentState (ctl w) = ALARM_IDLE ->
      fst (stop now source w) = false /\
      currentState (ctl (snd (stop now source w))) = ALARM_IDLE /\
      lastStatistics (ctl (snd (stop now source w))) = lastStatistics (ctl w)) /\
  (forall w : World, isActive w = true -> testAlarm w = (false, w)).
Proof.
  repeat split.
  - intros now w Hr Hne. apply start_active.
    destruct (reachable_rest_or_active w Hr) as [[E _]|E]; [contradiction|exact E].
  - intros now w. apply start_active.
  - intros now source w H. apply stop_inactive. now apply isActive_false_iff.
  - rewrite stop_inactive; [reflexivity|]. apply isActive_false_iff. now left.
  - rewrite stop_inactive; [assumption|]. apply isActive_false_iff. now left.
  - rewrite stop_inactive; [reflexivity|]. apply isActive_false_iff. now left.
  - intros w H. unfold testAlarm. now rewrite H.
Qed.

Lemma C4_invalid_calls_refused_witness :
  let w := exec (CallStart 1000) boot in
  start 2000 w = (false, w) /\
  stop 2000 STOP_SILENCE_BUTTON boot = (false, boot) /\
  testAlarm w = (false, w).
Proof.
  destruct C4_invalid_calls_refused as (Hstart & _ & Hstop & _ & Htest).
  split; [|split].
  - apply Hstart.
    + apply reachable_call, reachable_initial, boot_initial.
    + discriminate.
  - apply Hstop. left. reflexivity.
  - apply Htest. reflexivity.
Defined.

(** ** Statistics *)

Lemma sub32_range (a b : Z) : 0 <= sub32 a b < UINT32_MOD.
Proof. unfold sub32, UINT32_MOD. apply Z.mod_pos_bound. lia. Qed.

Lemma sub32_exact (a b : Z) : 0 <= b <= a -> a < UINT32_MOD -> sub32 a b = a - b.
Proof. intros H1 H2. unfold sub32. apply Z.mod_small. lia. Qed.

Lemma updateStage_rank (now : Z) (w : World) :
  AlarmState_rank (currentState (ctl w)) <=
  AlarmState_rank (currentState (ctl (updateStage now w))).
Proof.
  rewrite updateStage_ctl.
  destruct (currentState (ctl w)) eqn:E; try break_if; simpl; rewrite ?E; simpl; lia.
Qed.

(** C5. The record of a completed session.  When [stop] ends a session at
    time [now] for the reason [source], the record holds the session's start
    time, [now] as stop time and the reason; its duration is
    [(stopTime - startTime) / 1000] in the clock's unsigned arithmetic, which
    is never negative and is the plain quotient whenever the clock has not
    wrapped in between; [maxStageReached] is the state the machine was in
    when [stop] was called; and [hardwareIssueDetected] is true exactly for
    the reason HardwareFailure.  Within a session the stage never goes
    down: a tick of [update] on an active machine either leaves it active in
    a stage at least as high, or ends the session with a record whose
    [maxStageReached] is at least the stage before the tick. *)
Theorem C5_session_statistics :
  (forall (now : Z) (source : AlarmStopSource) (w : World),
      isActive w = true ->
      let s := lastStatistics (ctl (snd (stop now source w))) in
      startTime s = alarmStartTime (ctl w) /\
      stopTime s = now /\
      stopSource s = source /\
      duration s = sub32 (stopTime s) (startTime s) / 1000 /\
      0 <= duration s /\
      (0 <= startTime s <= stopTime s -> stopTime s < UINT32_MOD ->
       duration s = (stopTime s - startTime s) / 1000) /\
      maxStageReached s = currentState (ctl w) /\
      (hardwareIssueDetected s = true <-> source = STOP_HARDWARE_ERROR)) /\
  (forall (now : Z) (w : World),
      isActive w = true ->
      (isActive (update now w) = true ->
       AlarmState_rank (currentState (ctl w)) <=
       AlarmState_rank (currentState (ctl (update now w)))) /\
      (isActive (update now w) = false ->
       stopTime (lastStatistics (ctl (update now w))) = now /\
       AlarmState_rank (currentState (ctl w)) <=
       AlarmState_rank (maxStageReached (lastStatistics (ctl (update now w)))))).
Proof.
  split.
  - intros now source w Ha s. subst s.
    rewrite stop_active_stopped_ctl by assumption. simpl.
    repeat split; try reflexivity.
    + apply Z.div_pos; [apply sub32_range | lia].
    + intros H1 H2. now rewrite sub32_exact.
    + destruct source; discriminate || reflexivity.
    + intros ->. reflexivity.
  - intros now w Ha.
    pose proof (updateStage_rank now w) as Hr.
    pose proof (updateStage_active now w Ha) as Ha1.
    destruct (update_active_outcome now w Ha) as [Hs Hc|Hs Hd Hc|Hs He Hd Hf Hc|e Hs He Hd Hf Hc];
      unfold isActive; rewrite Hc; simpl; split; intros H;
      try discriminate; try (split; [reflexivity|]); try exact Hr.
    + unfold isActive in Ha1. congruence.
    + unfold isActive in Ha1. simpl in H. congruence.
Qed.

Lemma C5_session_statistics_witness :
  let w := exec (CallUpdate 4000) (exec (CallStart 1000) boot) in
  let s := lastStatistics (ctl (snd (stop 6500 STOP_SILENCE_BUTTON w))) in
  duration s = 5 /\ maxStageReached s = ALARM_WARNING /\
  hardwareIssueDetected s = false.
Proof.
  intros w s.
  destruct (proj1 C5_session_statistics 6500 STOP_SILENCE_BUTTON w eq_refl)
    as (_ & _ & _ & Hd & _ & _ & Hm & Hh).
  split; [|split].
  - exact Hd.
  - exact Hm.
  - destruct (hardwareIssueDetected s) eqn:E; [|reflexivity].
    apply Hh in E. discriminate.
Defined.

(** ** [getDuration] *)

(** C9, as it is worded, fails: half a second into a session the start
    timestamp is set and [getDuration] still returns 0, because it counts
    whole seconds. *)
Lemma C9_getDuration_zero_while_set :
  let w := snd (start 5000 boot) in
  alarmStartTime (ctl w) = 5000 /\ getDuration 5500 w = 0.
Proof. split; reflexivity. Qed.

(** C9, amended.  [getDuration] returns 0 whenever the session start
    timestamp is unset, as it is in the constructed controller and after
    [reset]; once the timestamp is set it returns the whole seconds elapsed
    since the start on the 32-bit clock, which is 0 exactly while fewer than
    1000 ms have elapsed.  A successful [stop] leaves the timestamp as it was,
    so with the machine back in Idle [getDuration] goes on returning the
    seconds elapsed since the start of the last session. *)
Theorem C9_getDuration_after_stop :
  (forall (now : Z) (w : World),
      alarmStartTime (ctl w) = 0 -> getDuration now w = 0) /\
  alarmStartTime init = 0 /\
  (forall w : World, alarmStartTime (ctl (reset w)) = 0) /\
  (forall (now : Z) (w : World),
      alarmStartTime (ctl w) <> 0 ->
      getDuration now w = sub32 now (alarmStartTime (ctl w)) / 1000 /\
      (getDuration now w = 0 <-> sub32 now (alarmStartTime (ctl w)) < 1000)) /\
  (forall (now : Z) (source : AlarmStopSource) (w : World),
      isActive w = true ->
      alarmStartTime (ctl (snd (stop now source w))) = alarmStartTime (ctl w) /\
      currentState (ctl (snd (stop now source w))) = ALARM_IDLE /\
      (alarmStartTime (ctl w) <> 0 ->
       forall now' : Z,
         getDuration now' (snd (stop now source w)) =
         sub32 now' (alarmStartTime (ctl w)) / 1000)).
Proof.
  split; [|split; [|split; [|split]]].
  - intros now w H. unfold getDuration. now rewrite H.
  - reflexivity.
  - reflexivity.
  - intros now w H. unfold getDuration.
    destruct (alarmStartTime (ctl w) =? 0) eqn:E;
      [apply Z.eqb_eq in E; contradiction|].
    split; [reflexivity|].
    pose proof (sub32_range now (alarmStartTime (ctl w))) as Hr.
    split.
    + intros Hz. apply Z.div_small_iff in Hz; lia.
    + intros Hlt. apply Z.div_small. lia.
  - intros now source w Ha.
    rewrite stop_active_stopped_ctl by assumption.
    split; [reflexivity|]. split; [reflexivity|].
    intros Hne now'. unfold getDuration.
    rewrite stop_active_stopped_ctl by assumption.
    change (alarmStartTime (stopped_ctl now source (ctl w)))
      with (alarmStartTime (ctl w)).
    destruct (alarmStartTime (ctl w) =? 0) eqn:E; [|reflexivity].
    apply Z.eqb_eq in E. contradiction.
Qed.

Lemma C9_getDuration_after_stop_witness :
  let w := snd (start 5000 boot) in
  let w' := snd (stop 9000 STOP_TELEGRAM_COMMAND w) in
  currentState (ctl w') = ALARM_IDLE /\ getDuration 65000 w' = 60.
Proof.
  intros w w'.
  destruct C9_getDuration_after_stop as (_ & _ & _ & _ & H).
  destruct (H 9000 STOP_TELEGRAM_COMMAND w eq_refl) as (_ & Hs & Hd).
  split; [exact Hs|].
  apply (Hd ltac:(discriminate) 65000).
Defined.

(** ** The user-stop path *)

Lemma transition_trace_quiet (now : Z) (s : AlarmState) (w : World) :
  is_stopped s = true -> trace (transitionToState now s w) = trace w.
Proof.
  intros H. unfold transitionToState. break_if; [reflexivity|].
  destruct s; try discriminate; reflexivity.
Qed.

Lemma transition_trace_idle (now : Z) (w : World) :
  currentState (ctl w) <> ALARM_IDLE ->
  trace (transitionToState now ALARM_IDLE w) =
  trace w ++ [EvLedcWrite BUZZER_PWM_CHANNEL_SMALL 0;
              EvLedcWrite BUZZER_PWM_CHANNEL_LARGE 0].
Proof.
  intros H. unfold transitionToState.
  destruct (AlarmState_eqb ALARM_IDLE (currentState (ctl w))) eqn:E.
  - apply AlarmState_eqb_eq in E. congruence.
  - now rewrite setAlarmLED_trace, stopAllBuzzers_trace.
Qed.

(** C10. Every reason other than SafetyTimeout and HardwareFailure - None and
    Completed among them - takes the user-stop path.  A successful [stop]
    for such a reason goes through StoppedByUser on its way to Idle and hands
    [sendTelegramNotification] the user-stop message with the session's
    duration and the label "Telegram" for RemoteCommand, "Button" for
    PhysicalButton and "Unknown" for the rest; the sink forwards it to the
    bot, after the silencing and the statistics and before the final
    silencing of the Idle entry, when notifications are enabled and the bot
    is online, and drops it otherwise.  The Stopped state of any reason is
    one of the three variants. *)
Theorem C10_user_stop_path :
  (forall (now : Z) (source : AlarmStopSource) (w : World),
      isActive w = true ->
      source <> STOP_SAFETY_TIMEOUT -> source <> STOP_HARDWARE_ERROR ->
      let m :=
        MSG_ALARM_STOPPED (sub32 now (alarmStartTime (ctl w)) / 1000)
          (source_label source) in
      let waypoint :=
        transitionToState now ALARM_STOPPED_USER
          (sendTelegramNotification m
             (calculateStatistics now source (stopAllBuzzers w))) in
      stop now source w = (true, transitionToState now ALARM_IDLE waypoint) /\
      currentState (ctl waypoint) = ALARM_STOPPED_USER /\
      previousState (ctl (snd (stop now source w))) = ALARM_STOPPED_USER /\
      trace (snd (stop now source w)) =
      trace w ++
      [EvLedcWrite BUZZER_PWM_CHANNEL_SMALL 0;
       EvLedcWrite BUZZER_PWM_CHANNEL_LARGE 0;
       EvStatistics (session_record now source (ctl w))] ++
      (if telegramNotificationsEnabled (ctl w) && botOnline w
       then [EvSendMessage m] else []) ++
      [EvLedcWrite BUZZER_PWM_CHANNEL_SMALL 0;
       EvLedcWrite BUZZER_PWM_CHANNEL_LARGE 0]) /\
  source_label STOP_TELEGRAM_COMMAND = "Telegram"%string /\
  source_label STOP_SILENCE_BUTTON = "Button"%string /\
  source_label STOP_NONE = "Unknown"%string /\
  source_label STOP_COMPLETED = "Unknown"%string /\
  (forall (now : Z) (source : AlarmStopSource) (w : World),
      isActive w = true ->
      let p := previousState (ctl (snd (stop now source w))) in
      (p = ALARM_STOPPED_USER \/ p = ALARM_STOPPED_TIMEOUT \/
       p = ALARM_STOPPED_ERROR) /\
      (p = ALARM_STOPPED_USER <->
       source <> STOP_SAFETY_TIMEOUT /\ source <> STOP_HARDWARE_ERROR)).
Proof.
  split; [|split; [|split; [|split; [|split]]]]; try reflexivity.
  - intros now source w Ha Hnt Hne m waypoint.
    assert (Hu : stop now source w = (true, transitionToState now ALARM_IDLE waypoint)).
    { rewrite stop_active_unfold by assumption. subst waypoint m.
      destruct source; try contradiction; reflexivity. }
    assert (Hw : currentState (ctl waypoint) = ALARM_STOPPED_USER)
      by apply transition_currentState.
    split; [exact Hu|]. split; [exact Hw|]. split.
    + rewrite stop_active_stopped_ctl by assumption.
      destruct source; try contradiction; reflexivity.
    + rewrite Hu. cbn [snd].
      rewrite transition_trace_idle by (rewrite Hw; discriminate).
      subst waypoint. rewrite transition_trace_quiet by reflexivity.
      rewrite sendTelegramNotification_trace, calculateStatistics_trace,
        stopAllBuzzers_trace.
      change (ctl (calculateStatistics now source (stopAllBuzzers w)))
        with (set_lastStatistics (session_record now source (ctl w)) (ctl w)).
      change (botOnline (calculateStatistics now source (stopAllBuzzers w)))
        with (botOnline w).
      change (ctl (stopAllBuzzers w)) with (ctl w).
      cbn [telegramNotificationsEnabled set_lastStatistics].
      rewrite <- !app_assoc. reflexivity.
  - intros now source w Ha p. subst p.
    rewrite stop_active_stopped_ctl by assumption.
    change (previousState (stopped_ctl now source (ctl w)))
      with (stopped_state_of source).
    split.
    + destruct source; auto.
    + split.
      * intros H. split; intros ->; discriminate.
      * intros [H1 H2]. destruct source; try contradiction; reflexivity.
Qed.

Lemma C10_user_stop_path_witness :
  let w := exec (CallUpdate 4000) (exec (CallStart 1000) boot) in
  previousState (ctl (snd (stop 6500 STOP_COMPLETED w))) = ALARM_STOPPED_USER /\
  In (EvSendMessage (MSG_ALARM_STOPPED 5 "Unknown"))
     (trace (snd (stop 6500 STOP_COMPLETED w))).
Proof.
  intros w.
  destruct (proj1 C10_user_stop_path 6500 STOP_COMPLETED w eq_refl
              ltac:(discriminate) ltac:(discriminate)) as (_ & _ & Hp & Ht).
  split; [exact Hp|].
  rewrite Ht. apply in_or_app. right. simpl. auto 10.
Defined.

(** ** Hardware failure during an alarm *)

Lemma run_reachable (cs : list Call) (w : World) :
  reachable w -> reachable (run cs w).
Proof.
  revert w. induction cs as [|c cs IH]; intros w H; simpl; [exact H|].
  apply IH. now apply reachable_call.
Qed.

(** C6, as it is worded, fails in two ways, both in worlds reached through
    the call interface.  In the first the small buzzer fails during Alert;
    the next tick at which the check is due is also the tick that escalates
    to Emergency, the check runs after the escalation, looks at the large
    buzzer only, and the alarm goes on.  In the second the large buzzer
    fails during Emergency; the next due tick is the tick of the safety
    timeout, which stops the alarm first: the machine goes to Idle through
    StoppedByTimeout and no hardware issue is recorded. *)
Lemma C6_due_check_passes_or_is_preempted :
  (let w := run [CallStart 7000; CallUpdate 10000; CallUpdate 40000;
                 CallUpdate 50000; CallUpdate 60000;
                 CallCheckBuzzerCircuits false true; CallUpdate 69999] boot in
   reachable w /\
   currentState (ctl w) = ALARM_ALERT /\
   smallBuzzer (state (hw w)) = HW_STATUS_FAILED /\
   hardwareChecksEnabled (ctl w) = true /\
   sub32 69999 (lastCheck (ctl w)) < 10000 /\
   10000 <= sub32 70000 (lastCheck (ctl w)) /\
   currentState (ctl (update 70000 w)) = ALARM_EMERGENCY /\
   isActive (update 70000 w) = true) /\
  (let w := run [CallStart 10000; CallUpdate 13000; CallUpdate 43000;
                 CallUpdate 73000; CallUpdate 300000;
                 CallCheckBuzzerCircuits true false; CallUpdate 309999] boot in
   reachable w /\
   currentState (ctl w) = ALARM_EMERGENCY /\
   largeBuzzer (state (hw w)) = HW_STATUS_FAILED /\
   hardwareChecksEnabled (ctl w) = true /\
   sub32 309999 (lastCheck (ctl w)) < 10000 /\
   10000 <= sub32 310000 (lastCheck (ctl w)) /\
   currentState (ctl (update 310000 w)) = ALARM_IDLE /\
   previousState (ctl (update 310000 w)) = ALARM_STOPPED_TIMEOUT /\
   stopSource (lastStatistics (ctl (update 310000 w))) = STOP_SAFETY_TIMEOUT /\
   hardwareIssueDetected (lastStatistics (ctl (update 310000 w))) = false).
Proof.
  split; intros w.
  - split; [apply run_reachable, reachable_initial, boot_initial|].
    vm_compute. repeat split; congruence.
  - split; [apply run_reachable, reachable_initial, boot_initial|].
    vm_compute. repeat split; congruence.
Qed.

Lemma relevant_failure_after_stage (now : Z) (w : World) :
  relevant_failure (currentState (ctl w)) (state (hw w)) = true ->
  (currentState (ctl w) = ALARM_ALERT -> isStageDurationExceeded now w = true ->
   largeBuzzer (state (hw w)) = HW_STATUS_FAILED) ->
  relevant_failure (currentState (ctl (updateStage now w))) (state (hw w)) = true.
Proof.
  intros Hr Hal. rewrite updateStage_ctl.
  unfold isStageDurationExceeded in Hal.
  destruct (currentState (ctl w)) eqn:E; cbv iota;
    try (rewrite E; exact Hr).
  - break_if; [|rewrite E; exact Hr]. cbn [currentState enter_state next_stage].
    unfold relevant_failure in *. cbn [orb] in Hr.
    apply andb_true_iff in Hr. destruct Hr as [-> _]. reflexivity.
  - break_if; [|rewrite E; exact Hr]. exact Hr.
  - break_if; [|rewrite E; exact Hr]. cbn [currentState enter_state next_stage].
    unfold relevant_failure.
    rewrite (Hal eq_refl eq_refl). reflexivity.
Qed.

Lemma isSafetyTimeoutReached_ctl (now : Z) (w w' : World) :
  alarmStartTime (ctl w) = alarmStartTime (ctl w') ->
  isSafetyTimeoutReached now w = isSafetyTimeoutReached now w'.
Proof. unfold isSafetyTimeoutReached. now intros ->. Qed.

(** C6, amended.  Take a tick of [update] on an active machine with hardware
    checks enabled, at which the 10 000 ms interval since the last check has
    elapsed and the safety timeout is not reached.  If the circuit relevant
    to the current stage is Failed (the small buzzer in Warning or Alert, the
    large one in Emergency, or both in any active state) and the tick does
    not escalate Alert to Emergency with a healthy large buzzer, then the
    tick forces [stop] with HardwareFailure: the machine is left in Idle,
    coming from StoppedByError, with both buzzers silent and the session
    recorded with reason HardwareFailure and [hardwareIssueDetected] true. *)
Theorem C6_failed_circuit_forces_stop :
  forall (now : Z) (w : World),
    isActive w = true ->
    hardwareChecksEnabled (ctl w) = true ->
    10000 <= sub32 now (lastCheck (ctl w)) ->
    isSafetyTimeoutReached now w = false ->
    relevant_failure (currentState (ctl w)) (state (hw w)) = true ->
    (currentState (ctl w) = ALARM_ALERT -> isStageDurationExceeded now w = true ->
     largeBuzzer (state (hw w)) = HW_STATUS_FAILED) ->
    currentState (ctl (update now w)) = ALARM_IDLE /\
    previousState (ctl (update now w)) = ALARM_STOPPED_ERROR /\
    stopSource (lastStatistics (ctl (update now w))) = STOP_HARDWARE_ERROR /\
    hardwareIssueDetected (lastStatistics (ctl (update now w))) = true /\
    pwmSmall (hw (update now w)) = 0 /\ pwmLarge (hw (update now w)) = 0.
Proof.
  intros now w Ha He Hd Hs Hr Hal.
  pose proof (relevant_failure_after_stage now w Hr Hal) as Hr1.
  assert (Hs1 : isSafetyTimeoutReached now (updateStage now w) = false).
  { rewrite <- Hs. apply isSafetyTimeoutReached_ctl, updateStage_alarmStartTime. }
  assert (Hsil : isActive (update now w) = false -> silent (update now w)).
  { intros Hi.
    destruct (update_rest_or_active now w (or_intror Ha)) as [[_ H]|H];
      [exact H | congruence]. }
  destruct (update_active_outcome now w Ha)
    as [Hs' Hc|Hs' Hd' Hc|Hs' He' Hd' Hf Hc|e Hs' He' Hd' Hf Hc].
  - congruence.
  - rewrite He in Hd'. simpl in Hd'. apply Z.leb_gt in Hd'. lia.
  - congruence.
  - assert (Hi : isActive (update now w) = false)
      by (unfold isActive; now rewrite Hc).
    rewrite Hc. simpl. repeat split; try reflexivity; now apply Hsil.
Qed.

Lemma C6_failed_circuit_forces_stop_witness :
  let w := run [CallStart 7000; CallUpdate 10000;
                CallCheckBuzzerCircuits false true] boot in
  currentState (ctl w) = ALARM_WARNING /\
  currentState (ctl (update 20000 w)) = ALARM_IDLE /\
  previousState (ctl (update 20000 w)) = ALARM_STOPPED_ERROR /\
  hardwareIssueDetected (lastStatistics (ctl (update 20000 w))) = true.
Proof.
  intros w. split; [reflexivity|].
  assert (H : 10000 <= sub32 20000 (lastCheck (ctl w))) by (vm_compute; congruence).
  destruct (C6_failed_circuit_forces_stop 20000 w eq_refl eq_refl H eq_refl eq_refl
              ltac:(discriminate)) as (H1 & H2 & _ & H4 & _).
  repeat split; assumption.
Defined.

(** ** Debouncing *)

Lemma sub32_diag (t : Z) : sub32 t t = 0.
Proof. unfold sub32. now rewrite Z.sub_diag. Qed.

Lemma eqb_negb_false (s : bool) : Bool.eqb (negb s) s = false.
Proof. destruct s; reflexivity. Qed.

Lemma eqb_false_negb (r s : bool) : Bool.eqb r s = false -> r = negb s.
Proof. destruct r, s; simpl; congruence. Qed.

Section Chatter.
Variable s : bool.

(** While the stable state is [s], a poll that reads [s] keeps it. *)
Lemma debounce_same (t : Z) (b : ButtonState) :
  stableState b = s ->
  stableState (snd (debounceButton t s b)) = s /\
  lastReading (snd (debounceButton t s b)) = s.
Proof.
  intros Hs. unfold debounceButton.
  destruct (Bool.eqb s (lastReading b)) eqn:E1; cbn [negb];
    cbn [snd lastChange stableState lastReading].
  - apply Bool.eqb_prop in E1.
    rewrite Hs, Bool.eqb_reflx. cbn [negb].
    break_if; split; congruence.
  - rewrite Hs, Bool.eqb_reflx. cbn [negb].
    break_if; split; reflexivity || assumption.
Qed.

(** A poll that reads the other value, no more than the settle window
    after the reading last changed, keeps the stable state too. *)
Lemma debounce_other_early (t : Z) (b : ButtonState) :
  stableState b = s ->
  (lastReading b = negb s -> sub32 t (lastChange b) <= BUTTON_DEBOUNCE_MS) ->
  let b' := snd (debounceButton t (negb s) b) in
  stableState b' = s /\ lastReading b' = negb s /\
  lastChange b' = (if Bool.eqb (negb s) (lastReading b) then lastChange b else t).
Proof.
  intros Hs Hearly. unfold debounceButton.
  destruct (Bool.eqb (negb s) (lastReading b)) eqn:E1; cbn [negb].
  - apply Bool.eqb_prop in E1. symmetry in E1.
    specialize (Hearly E1).
    destruct (BUTTON_DEBOUNCE_MS <? sub32 t (lastChange b)) eqn:E2.
    + apply Z.ltb_lt in E2. lia.
    + cbn [snd]. repeat split; assumption.
  - cbn [lastChange stableState lastReading].
    rewrite sub32_diag. change (BUTTON_DEBOUNCE_MS <? 0) with false.
    cbn [snd lastChange stableState lastReading]. repeat split; assumption.
Qed.

Lemma chatter_keeps_stable (l : list Sample) :
  forall b : ButtonState,
    stableState b = s ->
    (forall l1 run l2,
        l = l1 ++ run ++ l2 -> run <> [] ->
        Forall (fun p => snd p = negb s) run ->
        span run <= BUTTON_DEBOUNCE_MS) ->
    (lastReading b = negb s ->
     forall run l2,
       l = run ++ l2 -> run <> [] ->
       Forall (fun p => snd p = negb s) run ->
       sub32 (fst (last run (0, false))) (lastChange b) <= BUTTON_DEBOUNCE_MS) ->
    Forall (fun x => x = s) (stable_history b l).
Proof.
  induction l as [|[t r] l IH]; intros b Hs HA HB; [constructor|].
  cbn [stable_history].
  assert (HA' : forall l1 run l2,
             l = l1 ++ run ++ l2 -> run <> [] ->
             Forall (fun p => snd p = negb s) run ->
             span run <= BUTTON_DEBOUNCE_MS).
  { intros l1 run l2 El Hne Hrun.
    apply (HA ((t, r) :: l1) run l2); [now rewrite El | assumption..]. }
  destruct (Bool.eqb r s) eqn:Er.
  - apply Bool.eqb_prop in Er. subst r.
    destruct (debounce_same t b Hs) as [Hs' Hl'].
    constructor; [exact Hs'|].
    apply IH; [exact Hs' | exact HA' |].
    intros Hc. rewrite Hl' in Hc. symmetry in Hc.
    now apply Bool.no_fixpoint_negb in Hc.
  - apply eqb_false_negb in Er. subst r.
    assert (Hearly : lastReading b = negb s ->
                     sub32 t (lastChange b) <= BUTTON_DEBOUNCE_MS).
    { intros Hl. apply (HB Hl [(t, negb s)] l); [reflexivity|discriminate|].
      constructor; [reflexivity|constructor]. }
    destruct (debounce_other_early t b Hs Hearly) as (Hs' & Hl' & Hc').
    constructor; [exact Hs'|].
    apply IH; [exact Hs' | exact HA' |].
    intros _ run l2 El Hne Hrun. rewrite Hc'.
    destruct (Bool.eqb (negb s) (lastReading b)) eqn:E1.
    + apply Bool.eqb_prop in E1. symmetry in E1.
      assert (Hlast : last ((t, negb s) :: run) (0, false) = last run (0, false)).
      { destruct run; [contradiction|reflexivity]. }
      rewrite <- Hlast.
      apply (HB E1 ((t, negb s) :: run) l2);
        [now rewrite El | discriminate | now constructor].
    + assert (Hlast : last ((t, negb s) :: run) (0, false) = last run (0, false)).
      { destruct run; [contradiction|reflexivity]. }
      assert (Hspan : span ((t, negb s) :: run) <= BUTTON_DEBOUNCE_MS).
      { apply (HA [] ((t, negb s) :: run) l2);
          [now rewrite El | discriminate | now constructor]. }
      change (span ((t, negb s) :: run))
        with (sub32 (fst (last ((t, negb s) :: run) (0, false))) t) in Hspan.
      now rewrite Hlast in Hspan.
Qed.

(** Once the stable state equals the held reading nothing changes. *)
Lemma held_settled (l : list Sample) :
  forall b : ButtonState,
    stableState b = negb s ->
    Forall (fun p => snd p = negb s) l ->
    changes (negb s) (stable_history b l) = 0%nat.
Proof.
  induction l as [|[t r] l IH]; intros b Hs Hall; [reflexivity|].
  apply Forall_cons_iff in Hall. destruct Hall as [Hr Hall'].
  cbn [snd] in Hr. subst r.
  cbn [stable_history changes].
  assert (H : stableState (snd (debounceButton t (negb s) b)) = negb s).
  { unfold debounceButton.
    destruct (negb (Bool.eqb (negb s) (lastReading b)));
      cbn [stableState lastChange lastReading];
      rewrite Hs, Bool.eqb_reflx; cbn [negb]; break_if;
      cbn [snd stableState]; reflexivity || assumption. }
  rewrite H, Bool.eqb_reflx. now apply IH.
Qed.

(** The reading [negb s] is held and was first seen at [t0]: the stable
    state changes at the first poll more than the settle window later, and
    never otherwise. *)
Lemma held_changes (t0 : Z) (l : list Sample) :
  forall b : ButtonState,
    stableState b = s -> lastReading b = negb s -> lastChange b = t0 ->
    Forall (fun p => snd p = negb s) l ->
    changes s (stable_history b l) =
    if existsb (fun p => BUTTON_DEBOUNCE_MS <? sub32 (fst p) t0) l
    then 1%nat else 0%nat.
Proof.
  induction l as [|[t r] l IH]; intros b Hs Hl Hc Hall; [reflexivity|].
  apply Forall_cons_iff in Hall. destruct Hall as [Hr Hall'].
  cbn [snd] in Hr. subst r.
  cbn [stable_history changes existsb fst]. rewrite <- Hc.
  destruct (BUTTON_DEBOUNCE_MS <? sub32 t (lastChange b)) eqn:E.
  - assert (H : stableState (snd (debounceButton t (negb s) b)) = negb s).
    { unfold debounceButton. rewrite Hl, Bool.eqb_reflx. cbn [negb].
      rewrite E, Hs, eqb_negb_false. reflexivity. }
    rewrite H, eqb_negb_false. cbn [orb].
    rewrite held_settled by assumption. reflexivity.
  - assert (H : snd (debounceButton t (negb s) b) = b).
    { unfold debounceButton. rewrite Hl, Bool.eqb_reflx. cbn [negb].
      now rewrite E. }
    rewrite H, Hs, Bool.eqb_reflx. cbn [orb Nat.add].
    rewrite Hc. now apply IH.
Qed.
End Chatter.

(** C7, as it is worded, fails at the boundary: a press first read at clock
    value 100 and held through 150, polled every millisecond, has been held
    for the whole settle window of 50 ms and the stable state has not
    changed. *)
Lemma C7_window_boundary_no_change :
  let l := map (fun k => (100 + Z.of_nat k, true)) (seq 0 51) in
  Forall (fun p => snd p = true) l /\
  span l = BUTTON_DEBOUNCE_MS /\
  changes false (stable_history (mkButtonState false false 0) l) = 0%nat.
Proof.
  intros l. split; [|split].
  - apply Forall_forall. intros p Hp. apply in_map_iff in Hp.
    destruct Hp as (k & <- & _). reflexivity.
  - vm_compute. reflexivity.
  - vm_compute. reflexivity.
Qed.

(** C7, amended.  From a settled button (the last raw reading equals the
    stable state): if every run of equal consecutive raw readings in a
    sequence of polls spans at most the 50 ms settle window, first poll of
    the run to last, the stable state is the same after every poll.  And if
    the raw reading changes once, at the poll at [t0], and is held from
    there on, the stable state changes exactly once provided some later poll
    comes more than 50 ms after [t0] on the clock, and not at all
    otherwise. *)
Theorem C7_debounce :
  (forall (b : ButtonState) (l : list Sample),
      lastReading b = stableState b ->
      (forall (l1 run l2 : list Sample) (r : bool),
          l = l1 ++ run ++ l2 -> run <> [] ->
          Forall (fun p => snd p = r) run ->
          span run <= BUTTON_DEBOUNCE_MS) ->
      Forall (fun x => x = stableState b) (stable_history b l)) /\
  (forall (b : ButtonState) (t0 : Z) (l : list Sample),
      lastReading b = stableState b ->
      Forall (fun p => snd p = negb (stableState b)) l ->
      let h := stable_history b ((t0, negb (stableState b)) :: l) in
      ((exists p, In p l /\ BUTTON_DEBOUNCE_MS < sub32 (fst p) t0) ->
       changes (stableState b) h = 1%nat) /\
      ((forall p, In p l -> sub32 (fst p) t0 <= BUTTON_DEBOUNCE_MS) ->
       changes (stableState b) h = 0%nat)).
Proof.
  split.
  - intros b l Hset Hruns.
    apply chatter_keeps_stable; [reflexivity| |].
    + intros l1 run l2. apply Hruns.
    + intros Hl. rewrite Hset in Hl. symmetry in Hl.
      now apply Bool.no_fixpoint_negb in Hl.
  - intros b t0 l Hset Hall h. subst h.
    assert (Hearly : lastReading b = negb (stableState b) ->
                     sub32 t0 (lastChange b) <= BUTTON_DEBOUNCE_MS).
    { intros Hl. rewrite Hset in Hl. symmetry in Hl.
      now apply Bool.no_fixpoint_negb in Hl. }
    destruct (debounce_other_early (stableState b) t0 b eq_refl Hearly)
      as (Hs' & Hl' & Hc').
    rewrite Hset, eqb_negb_false in Hc'.
    cbn [stable_history changes]. rewrite Hs', Bool.eqb_reflx. cbn [Nat.add].
    rewrite (held_changes (stableState b) t0 l _ Hs' Hl' Hc' Hall).
    split.
    + intros (p & Hin & Hlate).
      assert (E : existsb (fun p => BUTTON_DEBOUNCE_MS <? sub32 (fst p) t0) l = true).
      { apply existsb_exists. exists p. split; [exact Hin|]. now apply Z.ltb_lt. }
      now rewrite E.
    + intros Hnone.
      destruct (existsb (fun p => BUTTON_DEBOUNCE_MS <? sub32 (fst p) t0) l) eqn:E;
        [|reflexivity].
      apply existsb_exists in E. destruct E as (p & Hin & Hlate).
      apply Z.ltb_lt in Hlate. specialize (Hnone p Hin). lia.
Qed.

Lemma C7_debounce_witness :
  changes false
    (stable_history (mkButtonState false false 0)
       ((100, true) :: map (fun k => (100 + Z.of_nat k, true)) (seq 1 51)))
  = 1%nat.
Proof.
  apply (proj1 (proj2 C7_debounce (mkButtonState false false 0) 100
                  (map (fun k => (100 + Z.of_nat k, true)) (seq 1 51))
                  eq_refl
                  ltac:(apply Forall_forall; intros p Hp;
                        apply in_map_iff in Hp;
                        destruct Hp as (k & <- & _); reflexivity))).
  exists (151, true). split.
  - apply in_map_iff. exists 51%nat. split; [reflexivity|].
    apply in_seq. lia.
  - vm_compute. reflexivity.
Defined.

(** ** The reset button's hold timer *)

Lemma updateButtons_reset (t : Z) (tr sr rr : bool) (h : Hardware) :
  let h' := updateButtons t tr sr rr h in
  resetButton h' = snd (debounceButton t rr (resetButton h)) /\
  buttonReset (state h') = stableState (resetButton h') /\
  resetButtonPressTime (state h') =
  if buttonReset (state h')
  then (if resetButtonPressTime (state h) =? 0 then t
        else resetButtonPressTime (state h))
  else 0.
Proof.
  unfold updateButtons.
  destruct (debounceButton t tr (testButton h)) as [bt tb].
  destruct (debounceButton t sr (silenceButton h)) as [bs sb].
  assert (E : fst (debounceButton t rr (resetButton h)) =
              stableState (snd (debounceButton t rr (resetButton h))))
    by reflexivity.
  destruct (debounceButton t rr (resetButton h)) as [br rb].
  cbn [fst snd] in E. cbn. repeat split. exact E.
Qed.

Lemma hold_origin (l : list ButtonPoll) :
  forall h : Hardware,
    resetButtonPressTime (state (poll_all l h)) <> 0 ->
    (resetButtonPressTime (state (poll_all l h)) = resetButtonPressTime (state h) /\
     Forall (fun x => x = true) (reset_history h l)) \/
    (exists l1 p l2,
        l = l1 ++ p :: l2 /\
        Forall (fun x => x = true) (reset_history (poll_all l1 h) (p :: l2)) /\
        resetButtonPressTime (state (poll_all l h)) = fst p).
Proof.
  induction l as [|q l IH]; intros h Hne.
  - left. split; [reflexivity|constructor].
  - change (poll_all (q :: l) h) with (poll_all l (poll_buttons q h)) in *.
    destruct (IH (poll_buttons q h) Hne) as [[Heq Hall]|(l1 & p & l2 & El & Hall & Hp)].
    + destruct q as [t [[tr sr] rr]].
      destruct (updateButtons_reset t tr sr rr h) as (_ & _ & Hpt).
      change (updateButtons t tr sr rr h) with (poll_buttons (t, (tr, sr, rr)) h) in Hpt.
      set (h1 := poll_buttons (t, (tr, sr, rr)) h) in *.
      destruct (buttonReset (state h1)) eqn:Eb; [|congruence].
      assert (Hh : Forall (fun x => x = true)
                     (reset_history h ((t, (tr, sr, rr)) :: l))).
      { cbn [reset_history]. fold h1. constructor; [exact Eb|exact Hall]. }
      destruct (resetButtonPressTime (state h) =? 0) eqn:Ez.
      * right. exists [], (t, (tr, sr, rr)), l.
        repeat split; [exact Hh|]. cbn [fst]. congruence.
      * left. split; [congruence|exact Hh].
    + right. exists (q :: l1), p, l2. subst l.
      split; [reflexivity|]. split; [exact Hall|exact Hp].
Qed.

(** C8. The hold timer of the reset button.  After every poll the hold
    timestamp is unset when the debounced state of the button is released,
    and then [isFactoryResetRequested] is false whatever the clock says;
    while the button is stably pressed the timestamp is never cleared: it is
    stamped with the time of the poll if it was unset and kept otherwise.  So
    starting with the timestamp unset, whenever [isFactoryResetRequested]
    returns true at time [now] the polls end in an unbroken run, beginning at
    some poll [p], after each of which the button was stably pressed, the
    timestamp is the time of [p], and at least 10 000 ms have passed on the
    clock between [p] and [now]: time held before a release counts for
    nothing. *)
Theorem C8_long_hold :
  (forall (p : ButtonPoll) (h : Hardware),
      let h' := poll_buttons p h in
      isResetButtonPressed h' = stableState (resetButton h') /\
      (isResetButtonPressed h' = false ->
       resetButtonPressTime (state h') = 0 /\
       forall now : Z, isFactoryResetRequested now h' = false) /\
      (isResetButtonPressed h' = true ->
       resetButtonPressTime (state h') =
       if resetButtonPressTime (state h) =? 0 then fst p
       else resetButtonPressTime (state h))) /\
  (forall (h0 : Hardware) (l : list ButtonPoll) (now : Z),
      resetButtonPressTime (state h0) = 0 ->
      isFactoryResetRequested now (poll_all l h0) = true ->
      exists l1 p l2,
        l = l1 ++ p :: l2 /\
        Forall (fun x => x = true) (reset_history (poll_all l1 h0) (p :: l2)) /\
        resetButtonPressTime (state (poll_all l h0)) = fst p /\
        RESET_HOLD_TIME_MS <= sub32 now (fst p)).
Proof.
  split.
  - intros [t [[tr sr] rr]] h h'.
    destruct (updateButtons_reset t tr sr rr h) as (_ & Hb & Hpt).
    fold (poll_buttons (t, (tr, sr, rr)) h) in Hb, Hpt. fold h' in Hb, Hpt.
    unfold isResetButtonPressed. split; [exact Hb|]. split.
    + intros E. rewrite E in Hpt. split; [exact Hpt|].
      intros now. unfold isFactoryResetRequested. now rewrite Hpt.
    + intros E. now rewrite E in Hpt.
  - intros h0 l now H0 Hreq.
    unfold isFactoryResetRequested in Hreq.
    destruct (resetButtonPressTime (state (poll_all l h0)) =? 0) eqn:Ez;
      [discriminate|].
    apply Z.eqb_neq in Ez.
    destruct (RESET_HOLD_TIME_MS <=?
              sub32 now (resetButtonPressTime (state (poll_all l h0)))) eqn:Eh;
      [|discriminate].
    apply Z.leb_le in Eh.
    destruct (hold_origin l h0 Ez) as [[Heq _]|(l1 & p & l2 & El & Hall & Hp)].
    + congruence.
    + exists l1, p, l2. rewrite Hp in Eh. repeat split; assumption.
Qed.

Lemma C8_long_hold_witness :
  let l := [(1000, (false, false, true)); (1060, (false, false, true));
            (11060, (false, false, true))] in
  exists l1 p l2,
    l = l1 ++ p :: l2 /\
    Forall (fun x => x = true) (reset_history (poll_all l1 init_hw) (p :: l2)) /\
    resetButtonPressTime (state (poll_all l init_hw)) = fst p /\
    RESET_HOLD_TIME_MS <= sub32 11060 (fst p).
Proof.
  intros l.
  apply (proj2 C8_long_hold init_hw l 11060); reflexivity.
Defined.

(** ** The escalation timeline *)

Lemma sub32_tick (T a e : Z) :
  0 <= a <= e -> e - a < UINT32_MOD ->
  sub32 (tick_time T e) (tick_time T a) = e - a.
Proof.
  intros H1 H2. unfold sub32, tick_time.
  rewrite <- Zminus_mod. replace (T + e - (T + a)) with (e - a) by lia.
  apply Z.mod_small. lia.
Qed.

Lemma sub32_tick0 (T e : Z) :
  0 <= T < UINT32_MOD -> 0 <= e < UINT32_MOD -> sub32 (tick_time T e) T = e.
Proof.
  intros HT He.
  replace T with (tick_time T 0) at 2
    by (unfold tick_time; rewrite Z.add_0_r; now apply Z.mod_small).
  rewrite sub32_tick; lia.
Qed.

Lemma update_state (now : Z) (w : World) :
  state (hw (update now w)) = state (hw w).
Proof.
  assert (Hsafe : forall v, state (hw (updateSafety now v)) = state (hw v)).
  { intros v. unfold updateSafety. break_if; [|reflexivity].
    apply andb_true_iff in Heqb. destruct Heqb as [Ha _].
    now apply stop_active_state. }
  assert (Hhealth : forall v, state (hw (updateHealth now v)) = state (hw v)).
  { intros v. destruct (isActive v) eqn:Ea; [|now rewrite updateHealth_inactive].
    destruct (hardwareChecksEnabled (ctl v) &&
              (10000 <=? sub32 now (lastCheck (ctl v)))) eqn:Ed;
      [|now rewrite updateHealth_not_due].
    apply andb_true_iff in Ed. destruct Ed as [Ee Ed]. apply Z.leb_le in Ed.
    rewrite updateHealth_due by assumption.
    break_if; [reflexivity|].
    rewrite stop_active_state.
    - now rewrite checkHardwareHealth_state.
    - rewrite (isActive_ctl _ v); [exact Ea|].
      now rewrite checkHardwareHealth_currentState. }
  unfold update. now rewrite Hhealth, Hsafe, updateStage_state.
Qed.

Lemma update_hardwareChecksEnabled (now : Z) (w : World) :
  hardwareChecksEnabled (ctl (update now w)) = hardwareChecksEnabled (ctl w).
Proof.
  destruct (isActive w) eqn:Ea; [|now rewrite update_inactive].
  destruct (updateStage_flags now w) as (Hen & _ & _).
  destruct (update_active_outcome now w Ea) as [Hs Hc|Hs Hd Hc|Hs He Hd Hf Hc|e Hs He Hd Hf Hc];
    rewrite Hc; exact Hen.
Qed.

Lemma update_checks_pass (now : Z) (w : World) :
  checks_pass w -> checks_pass (update now w).
Proof.
  unfold checks_pass. now rewrite update_hardwareChecksEnabled, update_state.
Qed.

Lemma checks_pass_no_failure (s : AlarmState) (w : World) :
  checks_pass w -> hardwareChecksEnabled (ctl w) = true ->
  relevant_failure s (state (hw w)) = false.
Proof.
  intros [Hd|[Hs Hl]] He; [congruence|]. unfold relevant_failure.
  destruct (smallBuzzer (state (hw w))), (largeBuzzer (state (hw w)));
    try contradiction; destruct s; reflexivity.
Qed.

Lemma stage_ok_active (T e : Z) (w : World) :
  stage_ok T e (ctl w) -> isActive w = true.
Proof.
  intros H. apply isActive_iff.
  destruct H as [(_ & H & _)|[(_ & H & _)|[(_ & H & _)|(_ & H)]]]; auto.
Qed.

Lemma updateStage_stage_ok (T e e' : Z) (w : World) :
  0 <= T < UINT32_MOD -> 0 <= e -> e' = e \/ e' = e + 1 ->
  stage_ok T e (ctl w) ->
  stage_ok T e' (ctl (updateStage (tick_time T e') w)).
Proof.
  intros HT He He' H. rewrite updateStage_ctl.
  destruct H as [(Hr & Hs & Ht)|[(Hr & Hs & Ht)|[(Hr & Hs & Ht)|(Hr & Hs)]]];
    rewrite Hs; cbv iota; rewrite ?Ht.
  - rewrite sub32_tick0 by (unfold UINT32_MOD in *; lia).
    change (getStateDuration ALARM_TRIGGERED) with 3000.
    destruct (3000 <=? e') eqn:E; [apply Z.leb_le in E|apply Z.leb_gt in E].
    + assert (e' = 3000) by lia. subst e'.
      right; left. split; [lia|]. split; reflexivity.
    + left. split; [lia|]. split; assumption.
  - rewrite sub32_tick by (unfold UINT32_MOD; lia).
    change (getStateDuration ALARM_WARNING) with 30000.
    destruct (30000 <=? e' - 3000) eqn:E; [apply Z.leb_le in E|apply Z.leb_gt in E].
    + assert (e' = 33000) by lia. subst e'.
      right; right; left. split; [lia|]. split; reflexivity.
    + right; left. split; [lia|]. split; assumption.
  - rewrite sub32_tick by (unfold UINT32_MOD; lia).
    change (getStateDuration ALARM_ALERT) with 30000.
    destruct (30000 <=? e' - 33000) eqn:E; [apply Z.leb_le in E|apply Z.leb_gt in E].
    + right; right; right. split; [lia|reflexivity].
    + right; right; left. split; [lia|]. split; assumption.
  - right; right; right. split; [lia|assumption].
Qed.

Lemma timeline_step (T e e' : Z) (w : World) :
  0 <= T < UINT32_MOD -> 0 <= e -> e' = e \/ e' = e + 1 ->
  checks_pass w -> timeline_inv T e (ctl w) ->
  timeline_inv T e' (ctl (update (tick_time T e') w)).
Proof.
  intros HT He He' Hcp [Hst [[Hok Hlim]|(HT0 & Hge & Hidle & Hsrc)]].
  - pose proof (stage_ok_active T e w Hok) as Ha.
    pose proof (updateStage_stage_ok T e e' w HT He He' Hok) as Hok1.
    pose proof (updateStage_alarmStartTime (tick_time T e') w) as Hst1.
    rewrite Hst in Hst1.
    assert (Hsafe : isSafetyTimeoutReached (tick_time T e') (updateStage (tick_time T e') w)
                    = if T =? 0 then false else 300000 <=? e').
    { unfold isSafetyTimeoutReached. rewrite Hst1.
      destruct (T =? 0) eqn:E0; [reflexivity|].
      apply Z.eqb_neq in E0. specialize (Hlim E0).
      rewrite sub32_tick0; [reflexivity|assumption|unfold UINT32_MOD; lia]. }
    destruct (update_active_outcome (tick_time T e') w Ha)
      as [Hs Hc|Hs Hd Hc|Hs He1 Hd Hf Hc|err Hs He1 Hd Hf Hc]; rewrite Hc.
    + rewrite Hsafe in Hs. destruct (T =? 0) eqn:E0; [discriminate|].
      apply Z.eqb_neq in E0. apply Z.leb_le in Hs.
      split; [exact Hst1|]. right. repeat split; assumption.
    + rewrite Hsafe in Hs. split; [exact Hst1|]. left. split; [exact Hok1|].
      intros E0. apply Z.eqb_neq in E0. rewrite E0 in Hs. now apply Z.leb_gt in Hs.
    + rewrite Hsafe in Hs. split; [exact Hst1|]. left. split; [exact Hok1|].
      intros E0. apply Z.eqb_neq in E0. rewrite E0 in Hs. now apply Z.leb_gt in Hs.
    + rewrite (checks_pass_no_failure _ w Hcp He1) in Hf. discriminate.
  - rewrite update_inactive
      by (apply isActive_false_iff; now left).
    split; [exact Hst|]. right. repeat split; try assumption. lia.
Qed.

Lemma last_cons_default (A : Type) (l : list A) :
  forall x d d' : A, last (x :: l) d = last (x :: l) d'.
Proof.
  induction l as [|y l IH]; intros x d d'; [reflexivity|].
  change (last (x :: y :: l) d) with (last (y :: l) d).
  change (last (x :: y :: l) d') with (last (y :: l) d').
  apply IH.
Qed.

Lemma timeline_run (T : Z) (es : list Z) :
  forall (e : Z) (w : World),
    0 <= T < UINT32_MOD -> 0 <= e -> dense_from e es = true ->
    checks_pass w -> timeline_inv T e (ctl w) ->
    timeline_inv T (last es e) (ctl (run_updates T es w)).
Proof.
  induction es as [|e1 es IH]; intros e w HT He Hd Hcp Hinv; [exact Hinv|].
  cbn [dense_from] in Hd. apply andb_true_iff in Hd. destruct Hd as [H1 Hd].
  assert (He1 : e1 = e \/ e1 = e + 1).
  { apply orb_true_iff in H1. destruct H1 as [H1|H1]; apply Z.eqb_eq in H1; auto. }
  assert (Hlast : last (e1 :: es) e = last es e1).
  { destruct es as [|x es']; [reflexivity|].
    change (last (e1 :: x :: es') e) with (last (x :: es') e).
    apply last_cons_default. }
  rewrite Hlast.
  change (run_updates T (e1 :: es) w)
    with (run_updates T es (update (tick_time T e1) w)).
  apply IH; [assumption | lia | assumption | now apply update_checks_pass |].
  now apply timeline_step with (e := e).
Qed.

Lemma start_timeline (T : Z) (w : World) :
  isActive w = false -> checks_pass w ->
  checks_pass (snd (start T w)) /\ timeline_inv T 0 (ctl (snd (start T w))).
Proof.
  intros Hi Hcp. split.
  - unfold checks_pass. rewrite start_inactive_state by assumption.
    now rewrite start_inactive_ctl.
  - rewrite start_inactive_ctl by assumption.
    split; [reflexivity|]. left. split; [|lia].
    left. split; [lia|]. split; reflexivity.
Qed.

Lemma start_boot_checks_pass (T : Z) :
  checks_pass (snd (start T boot)) /\ timeline_inv T 0 (ctl (snd (start T boot))).
Proof.
  apply start_timeline; [reflexivity|].
  right. split; discriminate.
Qed.

(** C3, as it is worded, fails in two ways, with [update] called once in
    every millisecond and no call of [stop] from outside.  With the small
    buzzer's circuit marked Failed and an alarm started at clock value 7000,
    the periodic check comes due at 10 000, in the tick that enters Warning,
    and stops the alarm: the state observed at T+3001 is Idle.  And an alarm
    started at clock value 0 carries the start timestamp that reads as
    unset, so its safety timeout never fires: at T+300 001 it is still in
    Emergency. *)
Lemma C3_timeline_broken_by_failed_check_or_zero_start :
  (let w0 := snd (checkBuzzerCircuits false true boot) in
   fst (start 7000 w0) = true /\
   dense_from 0 (every_ms 3001) = true /\
   last (every_ms 3001) 0 = 3001 /\
   currentState (ctl (run_updates 7000 (every_ms 3001) (snd (start 7000 w0))))
   = ALARM_IDLE) /\
  (fst (start 0 boot) = true /\
   dense_from 0 (every_ms 300001) = true /\
   last (every_ms 300001) 0 = 300001 /\
   currentState (ctl (run_updates 0 (every_ms 300001) (snd (start 0 boot))))
   = ALARM_EMERGENCY).
Proof.
  split.
  - vm_compute. repeat split; reflexivity.
  - assert (Hd : dense_from 0 (every_ms 300001) = true) by (vm_compute; reflexivity).
    assert (Hl : last (every_ms 300001) 0 = 300001) by (vm_compute; reflexivity).
    split; [reflexivity|]. split; [exact Hd|]. split; [exact Hl|].
    destruct (start_boot_checks_pass 0) as [Hcp Hinv].
    pose proof (timeline_run 0 (every_ms 300001) 0 (snd (start 0 boot))
                  ltac:(unfold UINT32_MOD; lia) ltac:(lia) Hd Hcp Hinv) as H.
    rewrite Hl in H. destruct H as [_ [[Hok _]|(Hne & _)]]; [|congruence].
    destruct Hok as [(Hr & _)|[(Hr & _)|[(Hr & _)|(_ & Hs)]]]; try lia.
    exact Hs.
Qed.

(** C3, amended.  Let [start] succeed at a clock value [T] other than 0, in
    a world where no periodic hardware check can fail (checks disabled, or
    neither buzzer circuit marked Failed), and let only [update] be called
    from then on, at least once in every millisecond.  Then the state after
    the last tick is the one the timeline prescribes for the offset of that
    tick: Warning at T+3001, Alert at T+33 001, Emergency at T+63 001, and
    Idle at T+300 001 with the recorded stop reason SafetyTimeout, the
    timeout having fired in Emergency. *)
Theorem C3_escalation_timeline :
  forall (T : Z) (w0 : World) (es : list Z),
    0 < T < UINT32_MOD ->
    isActive w0 = false ->
    checks_pass w0 ->
    dense_from 0 es = true ->
    let w := run_updates T es (snd (start T w0)) in
    let e := last es 0 in
    fst (start T w0) = true /\
    currentState (ctl w) = phase e /\
    (e = 3001 -> currentState (ctl w) = ALARM_WARNING) /\
    (e = 33001 -> currentState (ctl w) = ALARM_ALERT) /\
    (e = 63001 -> currentState (ctl w) = ALARM_EMERGENCY) /\
    (e = 300001 ->
     currentState (ctl w) = ALARM_IDLE /\
     stopSource (lastStatistics (ctl w)) = STOP_SAFETY_TIMEOUT).
Proof.
  intros T w0 es HT Hi Hcp Hd w e.
  destruct (start_timeline T w0 Hi Hcp) as [Hcp1 Hinv1].
  pose proof (timeline_run T es 0 (snd (start T w0))
                ltac:(lia) ltac:(lia) Hd Hcp1 Hinv1) as H.
  fold w e in H.
  assert (Hphase : currentState (ctl w) = phase e).
  { unfold phase. destruct H as [_ [[Hok Hlim]|(_ & Hge & Hs & _)]].
    - specialize (Hlim ltac:(lia)).
      destruct Hok as [(Hr & Hs & _)|[(Hr & Hs & _)|[(Hr & Hs & _)|(Hr & Hs)]]];
        rewrite Hs;
        repeat match goal with
               | |- context [?a <? ?b] =>
                   let E := fresh in
                   destruct (a <? b) eqn:E;
                   [apply Z.ltb_lt in E|apply Z.ltb_ge in E]; try lia
               end; reflexivity.
    - rewrite Hs.
      repeat match goal with
             | |- context [?a <? ?b] =>
                 let E := fresh in
                 destruct (a <? b) eqn:E;
                 [apply Z.ltb_lt in E|apply Z.ltb_ge in E]; try lia
             end; reflexivity. }
  split; [now apply start_inactive_fst|].
  split; [exact Hphase|].
  split; [intros E; rewrite Hphase, E; reflexivity|].
  split; [intros E; rewrite Hphase, E; reflexivity|].
  split; [intros E; rewrite Hphase, E; reflexivity|].
  intros E. split; [rewrite Hphase, E; reflexivity|].
  destruct H as [_ [[_ Hlim]|(_ & _ & _ & Hsrc)]]; [|exact Hsrc].
  specialize (Hlim ltac:(lia)). lia.
Qed.

Lemma C3_escalation_timeline_witness :
  let w := run_updates 1000 (every_ms 3001) (snd (start 1000 boot)) in
  fst (start 1000 boot) = true /\ currentState (ctl w) = ALARM_WARNING.
Proof.
  intros w.
  destruct (C3_escalation_timeline 1000 boot (every_ms 3001)
              ltac:(unfold UINT32_MOD; lia) eq_refl
              ltac:(right; split; discriminate)
              ltac:(vm_compute; reflexivity))
    as (Hs & _ & H3001 & _).
  split; [exact Hs|].
  apply H3001. vm_compute. reflexivity.
Defined.

(** * Further properties of the controller and the hardware layer *)

(** ** The buzzers in each state *)

Lemma transition_pwm (now : Z) (s : AlarmState) (w : World) :
  s <> ALARM_IDLE ->
  pwmSmall (hw (transitionToState now s w)) = pwmSmall (hw w) /\
  pwmLarge (hw (transitionToState now s w)) = pwmLarge (hw w).
Proof.
  intros Hs. unfold transitionToState. break_if; [split; reflexivity|].
  destruct s; try contradiction; cbv iota.
  - destruct (setAlarmLED_pwm
                (with_ctl (enter_state ALARM_TRIGGERED now (ctl w)) w) true)
      as [-> ->].
    split; reflexivity.
  - unfold blinkAlarmLED, Hardware.set_alarmLED, with_hw. cbn [hw pwmSmall pwmLarge].
    rewrite sendTelegramNotification_hw. split; reflexivity.
  - unfold blinkAlarmLED, Hardware.set_alarmLED, with_hw. cbn [hw pwmSmall pwmLarge].
    rewrite sendTelegramNotification_hw. split; reflexivity.
  - unfold blinkAlarmLED, Hardware.set_alarmLED, with_hw. cbn [hw pwmSmall pwmLarge].
    rewrite sendTelegramNotification_hw. split; reflexivity.
  - split; reflexivity.
  - split; reflexivity.
  - split; reflexivity.
Qed.

Lemma start_pwm (now : Z) (w : World) :
  pwmSmall (hw (snd (start now w))) = pwmSmall (hw w) /\
  pwmLarge (hw (snd (start now w))) = pwmLarge (hw w).
Proof.
  unfold start. break_if; [split; reflexivity|]. cbn [snd].
  rewrite sendTelegramNotification_hw.
  destruct (transition_pwm now ALARM_TRIGGERED
              (with_ctl (set_testMode false (set_alarmStartTime now (ctl w))) w)
              ltac:(discriminate)) as [-> ->].
  split; reflexivity.
Qed.

Lemma pulseSmallBuzzer_pwm (now : Z) (w : World) :
  (pwmSmall (hw w) = BUZZER_OFF \/ pwmSmall (hw w) = BUZZER_ON) ->
  let w' := snd (pulseSmallBuzzer now w) in
  (pwmSmall (hw w') = BUZZER_OFF \/ pwmSmall (hw w') = BUZZER_ON) /\
  (pwmLarge (hw w') = pwmLarge (hw w) \/ pwmLarge (hw w') = BUZZER_OFF).
Proof.
  intros H. unfold pulseSmallBuzzer.
  repeat break_if; cbn; auto.
Qed.

Lemma updateStage_policy (now : Z) (w : World) :
  actuator_policy w -> actuator_policy (updateStage now w).
Proof.
  unfold actuator_policy, updateStage, updateIdleState. intros H.
  destruct (currentState (ctl w)) eqn:E; try (rewrite E; exact H).
  - unfold updateTriggeredState. break_if; [|rewrite E; exact H].
    rewrite transition_currentState.
    destruct (transition_pwm now ALARM_WARNING w ltac:(discriminate)) as [-> ->].
    destruct H as (Hs & Hl & H0 & H1). repeat split; assumption.
  - unfold updateWarningState, updateBuzzerOutput. rewrite E.
    destruct H as (Hs & Hl & H0).
    destruct (pulseSmallBuzzer_pwm now w Hs) as [Hs' Hl'].
    assert (Hl0 : pwmLarge (hw (snd (pulseSmallBuzzer now w))) = BUZZER_OFF)
      by (destruct Hl' as [Hl'|Hl']; congruence).
    break_if.
    + rewrite transition_currentState.
      destruct (transition_pwm now ALARM_ALERT (snd (pulseSmallBuzzer now w))
                  ltac:(discriminate)) as [-> ->].
      repeat split; auto.
    + rewrite pulseSmallBuzzer_ctl, E. repeat split; auto.
  - unfold updateAlertState, updateBuzzerOutput. rewrite E.
    destruct H as (Hs & Hl & H0).
    break_if.
    + rewrite transition_currentState.
      destruct (transition_pwm now ALARM_EMERGENCY (setSmallBuzzer BUZZER_ON w)
                  ltac:(discriminate)) as [-> ->].
      repeat split; auto.
    + change (currentState (ctl (setSmallBuzzer BUZZER_ON w)))
        with (currentState (ctl w)). rewrite E. repeat split; auto.
  - unfold updateEmergencyState, updateBuzzerOutput. rewrite E.
    change (currentState (ctl (setLargeBuzzer BUZZER_ON w)))
      with (currentState (ctl w)). rewrite E.
    destruct H as (Hs & Hl & H0). repeat split; auto.
Qed.

Lemma idle_silent_policy (w : World) :
  currentState (ctl w) = ALARM_IDLE -> silent w -> actuator_policy w.
Proof.
  intros E [Hs Hl]. unfold actuator_policy. rewrite E, Hs, Hl.
  repeat split; auto.
Qed.

Lemma stop_policy (now : Z) (source : AlarmStopSource) (w : World) :
  actuator_policy w -> actuator_policy (snd (stop now source w)).
Proof.
  intros H. destruct (isActive w) eqn:E; [|now rewrite stop_inactive].
  apply idle_silent_policy;
    [now rewrite stop_active_stopped_ctl | now apply stop_active_silent].
Qed.

Lemma update_policy (now : Z) (w : World) :
  actuator_policy w -> actuator_policy (update now w).
Proof.
  intros H. apply (updateStage_policy now) in H. unfold update.
  set (w1 := updateStage now w) in *.
  assert (H2 : actuator_policy (updateSafety now w1)).
  { unfold updateSafety. break_if; [now apply stop_policy|exact H]. }
  set (w2 := updateSafety now w1) in *.
  destruct (isActive w2) eqn:Ea; [|now rewrite updateHealth_inactive].
  destruct (hardwareChecksEnabled (ctl w2) &&
            (10000 <=? sub32 now (lastCheck (ctl w2)))) eqn:Ed;
    [|now rewrite updateHealth_not_due].
  apply andb_true_iff in Ed. destruct Ed as [Ee Ed]. apply Z.leb_le in Ed.
  rewrite updateHealth_due by assumption.
  break_if; [exact H2|].
  apply stop_policy. unfold actuator_policy.
  rewrite checkHardwareHealth_currentState.
  assert (Hhw : hw (snd (checkHardwareHealth (with_ctl (set_lastCheck now (ctl w2)) w2)))
                = hw w2).
  { unfold checkHardwareHealth. repeat break_if; cbn [snd];
      rewrite ?sendTelegramNotification_hw; reflexivity. }
  rewrite Hhw. exact H2.
Qed.

(** X1. What the buzzers do in each state, in every world reached through
    the call interface: both channels carry duty 0 or 255 only; they are
    both off in Idle and during the whole Triggered delay; the large buzzer
    is off in every state but Emergency; and in Emergency the small buzzer
    is still on at full duty, left on by the Alert stage. *)
Theorem X1_actuator_policy :
  forall w : World,
    reachable w ->
    (pwmSmall (hw w) = 0 \/ pwmSmall (hw w) = 255) /\
    (pwmLarge (hw w) = 0 \/ pwmLarge (hw w) = 255) /\
    (currentState (ctl w) = ALARM_IDLE \/ currentState (ctl w) = ALARM_TRIGGERED ->
     pwmSmall (hw w) = 0 /\ pwmLarge (hw w) = 0) /\
    (currentState (ctl w) <> ALARM_EMERGENCY -> pwmLarge (hw w) = 0) /\
    (currentState (ctl w) = ALARM_EMERGENCY -> pwmSmall (hw w) = 255).
Proof.
  intros w Hr.
  assert (H : actuator_policy w).
  { induction Hr as [w [Hc [Hs Hl]]|c w Hr IH].
    - apply idle_silent_policy; [now rewrite Hc | now split].
    - pose proof (reachable_rest_or_active w Hr) as Hra.
      destruct c; cbn [exec].
      + destruct (isActive w) eqn:E; [now rewrite start_active|].
        destruct Hra as [[_ [Hs Hl]]|Ha]; [|congruence].
        unfold actuator_policy. rewrite start_inactive_ctl by assumption.
        destruct (start_pwm now w) as [-> ->]. rewrite Hs, Hl.
        repeat split; auto.
      + now apply stop_policy.
      + now apply update_policy.
      + destruct (isActive w) eqn:E.
        * unfold testAlarm. rewrite E. exact IH.
        * destruct Hra as [[Hi _]|Ha]; [|congruence].
          destruct (testAlarm_inactive w E) as [Hc Hsil].
          apply idle_silent_policy; [congruence|exact Hsil].
      + apply idle_silent_policy; [reflexivity|split; reflexivity].
      + exact IH.
      + exact IH.
      + exact IH.
      + exact IH. }
  unfold actuator_policy, policy_at, BUZZER_OFF, BUZZER_ON in H.
  destruct H as (Hs & Hl & H).
  split; [exact Hs|]. split; [exact Hl|].
  destruct (currentState (ctl w)); try contradiction; repeat split;
    try (intros [E|E]; discriminate); try (intros E; discriminate);
    try (intros E; contradiction); intuition congruence.
Qed.

Lemma X1_actuator_policy_witness :
  let w := run [CallStart 1000; CallUpdate 4000; CallUpdate 34000;
                CallUpdate 40000; CallUpdate 64000; CallUpdate 64001] boot in
  currentState (ctl w) = ALARM_EMERGENCY /\
  pwmSmall (hw w) = 255 /\ pwmLarge (hw w) = 255.
Proof.
  intros w.
  assert (Hr : reachable w) by (apply run_reachable, reachable_initial, boot_initial).
  destruct (X1_actuator_policy w Hr) as (_ & _ & _ & _ & H).
  split; [reflexivity|]. split; [apply H; reflexivity|reflexivity].
Defined.

(** ** One tick, from the caller's side *)

Lemma updateStage_step (now : Z) (w : World) :
  ctl (updateStage now w) = ctl w \/
  (ctl (updateStage now w) =
   enter_state (next_stage (currentState (ctl w))) now (ctl w) /\
   next_stage (currentState (ctl w)) <> currentState (ctl w) /\
   isStageDurationExceeded now w = true).
Proof.
  rewrite updateStage_ctl. unfold isStageDurationExceeded. cbv zeta.
  destruct (currentState (ctl w)) eqn:E; auto;
    (break_if; [right; split; [reflexivity|split; [discriminate|reflexivity]]
               |left; reflexivity]).
Qed.

(** X2. The transition table of [update].  A tick on a machine that is not
    active changes nothing at all.  A tick on an active machine leaves it in
    the same stage with its stage timer untouched, or moves it one stage up
    - never more than one, however late the tick - with the stage timer
    restarted at the time of the tick, or ends the session in Idle, and then
    the recorded reason is SafetyTimeout or HardwareFailure, the stop time is
    the time of the tick and the recorded stage is the one the tick had
    reached. *)
Theorem X2_update_transition_table :
  forall (now : Z) (w : World),
    (isActive w = false -> update now w = w) /\
    (isActive w = true ->
     let c := ctl w in
     let c' := ctl (update now w) in
     (currentState c' = currentState c /\
      stageStartTime c' = stageStartTime c /\
      previousState c' = previousState c) \/
     (currentState c' = next_stage (currentState c) /\
      currentState c' <> currentState c /\
      stageStartTime c' = now /\
      previousState c' = currentState c /\
      isStageDurationExceeded now w = true) \/
     (currentState c' = ALARM_IDLE /\
      stopTime (lastStatistics c') = now /\
      (stopSource (lastStatistics c') = STOP_SAFETY_TIMEOUT \/
       stopSource (lastStatistics c') = STOP_HARDWARE_ERROR) /\
      (maxStageReached (lastStatistics c') = currentState c \/
       maxStageReached (lastStatistics c') = next_stage (currentState c)))).
Proof.
  intros now w. split; [apply update_inactive|].
  intros Ha c c'. subst c c'.
  assert (Hm : currentState (ctl (updateStage now w)) = currentState (ctl w) \/
               currentState (ctl (updateStage now w)) = next_stage (currentState (ctl w))).
  { destruct (updateStage_step now w) as [->|[-> _]]; auto. }
  destruct (update_active_outcome now w Ha)
    as [Hs Hc|Hs Hd Hc|Hs He Hd Hf Hc|e Hs He Hd Hf Hc]; rewrite Hc.
  - right; right. repeat split; auto.
  - destruct (updateStage_step now w) as [->|(-> & Hne & Hex)].
    + left. repeat split.
    + right; left. repeat split; assumption.
  - destruct (updateStage_step now w) as [->|(-> & Hne & Hex)].
    + left. repeat split.
    + right; left. repeat split; assumption.
  - right; right. repeat split; auto.
Qed.

Lemma X2_update_transition_table_witness :
  let w := run [CallStart 1000] boot in
  currentState (ctl (update 200000 w)) = ALARM_WARNING /\
  stageStartTime (ctl (update 200000 w)) = 200000.
Proof.
  intros w.
  destruct (proj2 (X2_update_transition_table 200000 w) eq_refl)
    as [(H & _)|[(H1 & _ & H2 & _)|(H & _)]].
  - discriminate H.
  - split; [exact H1|exact H2].
  - discriminate H.
Defined.

(** X3. The safety timeout dominates.  On an active machine whose start
    timestamp is set, a tick that comes 300 000 ms or more after the start
    ends the session whatever the stage, the hardware status and the state of
    the periodic check: the machine is in Idle coming from StoppedByTimeout,
    both buzzers are off, the reason recorded is SafetyTimeout and no
    hardware issue is recorded. *)
Theorem X3_safety_timeout_dominates :
  forall (now : Z) (w : World),
    isActive w = true ->
    alarmStartTime (ctl w) <> 0 ->
    ALARM_SAFETY_TIMEOUT_MS <= sub32 now (alarmStartTime (ctl w)) ->
    currentState (ctl (update now w)) = ALARM_IDLE /\
    previousState (ctl (update now w)) = ALARM_STOPPED_TIMEOUT /\
    stopSource (lastStatistics (ctl (update now w))) = STOP_SAFETY_TIMEOUT /\
    hardwareIssueDetected (lastStatistics (ctl (update now w))) = false /\
    pwmSmall (hw (update now w)) = 0 /\ pwmLarge (hw (update now w)) = 0.
Proof.
  intros now w Ha Hne Hel.
  assert (Hs : isSafetyTimeoutReached now (updateStage now w) = true).
  { unfold isSafetyTimeoutReached. rewrite updateStage_alarmStartTime.
    apply Z.eqb_neq in Hne. rewrite Hne. now apply Z.leb_le. }
  assert (Hsil : isActive (update now w) = false -> silent (update now w)).
  { intros Hi.
    destruct (update_rest_or_active now w (or_intror Ha)) as [[_ H]|H];
      [exact H | congruence]. }
  destruct (update_active_outcome now w Ha)
    as [Hs' Hc|Hs' Hd Hc|Hs' He Hd Hf Hc|e Hs' He Hd Hf Hc]; try congruence.
  assert (Hi : isActive (update now w) = false)
    by (unfold isActive; now rewrite Hc).
  rewrite Hc. repeat split; now apply Hsil.
Qed.

Lemma X3_safety_timeout_dominates_witness :
  let w := run [CallStart 1000; CallUpdate 4000] boot in
  currentState (ctl w) = ALARM_WARNING /\
  currentState (ctl (update 301000 w)) = ALARM_IDLE /\
  stopSource (lastStatistics (ctl (update 301000 w))) = STOP_SAFETY_TIMEOUT.
Proof.
  intros w. split; [reflexivity|].
  destruct (X3_safety_timeout_dominates 301000 w eq_refl
              ltac:(discriminate) ltac:(vm_compute; congruence))
    as (H1 & _ & H3 & _).
  split; assumption.
Defined.

(** ** Notifications *)

Lemma messages_emit_other (e : Event) (w : World) :
  is_message e = false -> messages (emit e w) = messages w.
Proof.
  intros H. unfold messages, emit. cbn [trace].
  rewrite filter_app. cbn [filter]. rewrite H. apply app_nil_r.
Qed.

Lemma messages_trace_eq (w w' : World) :
  trace w' = trace w -> messages w' = messages w.
Proof. unfold messages. now intros ->. Qed.

Lemma audible_eq (w w' : World) :
  telegramNotificationsEnabled (ctl w') = telegramNotificationsEnabled (ctl w) ->
  botOnline w' = botOnline w -> audible w' = audible w.
Proof. unfold audible. now intros -> ->. Qed.

Lemma ledcWrite_messages (ch : Channel) (d : Z) (w : World) :
  messages (ledcWrite ch d w) = messages w.
Proof. unfold ledcWrite. now rewrite messages_emit_other. Qed.

Lemma stopAllBuzzers_messages (w : World) :
  messages (stopAllBuzzers w) = messages w.
Proof.
  unfold stopAllBuzzers, setLargeBuzzer, setSmallBuzzer.
  now rewrite !ledcWrite_messages.
Qed.

Lemma sendTelegramNotification_messages (m : Message) (w : World) :
  messages (sendTelegramNotification m w) = messages w ++ announce (audible w) m.
Proof.
  unfold messages. rewrite sendTelegramNotification_trace, filter_app.
  unfold announce, audible. break_if; reflexivity.
Qed.

Lemma sendTelegramNotification_audible (m : Message) (w : World) :
  audible (sendTelegramNotification m w) = audible w.
Proof.
  apply audible_eq;
    [now rewrite sendTelegramNotification_ctl | apply sendTelegramNotification_online].
Qed.

Lemma pulseSmallBuzzer_messages (now : Z) (w : World) :
  messages (snd (pulseSmallBuzzer now w)) = messages w.
Proof.
  unfold pulseSmallBuzzer, stopAllBuzzers, setLargeBuzzer, setSmallBuzzer.
  repeat break_if; cbn [snd];
    repeat first [ rewrite ledcWrite_messages
                 | match goal with
                   | |- context [messages (set_pulse ?a ?b ?c ?v)] =>
                       change (messages (set_pulse a b c v)) with (messages v)
                   end ];
    reflexivity.
Qed.

Lemma transition_messages (now : Z) (s : AlarmState) (w : World) :
  messages (transitionToState now s w) =
  messages w ++
  (if AlarmState_eqb s (currentState (ctl w)) then []
   else entry_messages (audible w) s).
Proof.
  unfold transitionToState. break_if; [now rewrite app_nil_r|].
  set (w1 := with_ctl (enter_state s now (ctl w)) w).
  assert (Hm : messages w1 = messages w) by reflexivity.
  assert (Ha : audible w1 = audible w) by reflexivity.
  destruct s; cbv iota; cbn [entry_messages].
  - rewrite (messages_trace_eq (stopAllBuzzers w1)) by apply setAlarmLED_trace.
    now rewrite stopAllBuzzers_messages, app_nil_r.
  - rewrite (messages_trace_eq w1) by apply setAlarmLED_trace.
    now rewrite app_nil_r.
  - rewrite (messages_trace_eq (sendTelegramNotification MSG_WARNING_STARTED w1))
      by reflexivity.
    now rewrite sendTelegramNotification_messages, Hm, Ha.
  - rewrite (messages_trace_eq (sendTelegramNotification MSG_ALERT_STARTED w1))
      by reflexivity.
    now rewrite sendTelegramNotification_messages, Hm, Ha.
  - rewrite (messages_trace_eq (sendTelegramNotification MSG_EMERGENCY_STARTED w1))
      by reflexivity.
    now rewrite sendTelegramNotification_messages, Hm, Ha.
  - now rewrite app_nil_r.
  - now rewrite app_nil_r.
  - now rewrite app_nil_r.
Qed.

Lemma transition_audible (now : Z) (s : AlarmState) (w : World) :
  audible (transitionToState now s w) = audible w.
Proof.
  apply audible_eq; [|apply transition_online].
  rewrite transition_ctl. break_if; reflexivity.
Qed.

Lemma stop_active_messages (now : Z) (source : AlarmStopSource) (w : World) :
  isActive w = true ->
  messages (snd (stop now source w)) =
  messages w ++
  stop_messages (audible w) source (sub32 now (alarmStartTime (ctl w)) / 1000).
Proof.
  intros Ha. rewrite stop_active_unfold by assumption. cbn [snd].
  rewrite transition_messages.
  match goal with
  | |- context [AlarmState_eqb ALARM_IDLE (currentState (ctl ?x))] =>
      replace (AlarmState_eqb ALARM_IDLE (currentState (ctl x))) with false
        by (rewrite transition_currentState; now destruct source)
  end.
  cbn [entry_messages]. rewrite app_nil_r.
  rewrite transition_messages.
  replace (entry_messages _ (stopped_state_of source)) with (@nil Event)
    by now destruct source.
  assert (Hif : forall (b : bool), (if b then @nil Event else []) = []) by now intros [].
  rewrite Hif, app_nil_r.
  set (w2 := calculateStatistics now source (stopAllBuzzers w)).
  assert (Hm : messages w2 = messages w).
  { unfold w2, calculateStatistics. rewrite messages_emit_other by reflexivity.
    change (messages (with_ctl _ (stopAllBuzzers w)))
      with (messages (stopAllBuzzers w)).
    apply stopAllBuzzers_messages. }
  assert (Hau : audible w2 = audible w) by reflexivity.
  destruct source; cbn [stop_messages source_label];
    rewrite ?sendTelegramNotification_messages, ?Hm, ?Hau;
    try reflexivity; now rewrite app_nil_r.
Qed.

Lemma stop_audible (now : Z) (source : AlarmStopSource) (w : World) :
  audible (snd (stop now source w)) = audible w.
Proof.
  destruct (isActive w) eqn:E; [|now rewrite stop_inactive].
  apply audible_eq; [|now apply stop_active_online].
  now rewrite stop_active_stopped_ctl.
Qed.

Lemma start_inactive_messages (now : Z) (w : World) :
  isActive w = false ->
  messages (snd (start now w)) =
  messages w ++ announce (audible w) MSG_WAKE_RECEIVED.
Proof.
  intros Hi. unfold start. rewrite Hi. cbn [snd].
  rewrite sendTelegramNotification_messages, transition_audible,
    transition_messages.
  cbn [entry_messages].
  assert (Hif : forall (b : bool), (if b then @nil Event else []) = []) by now intros [].
  rewrite Hif, app_nil_r. reflexivity.
Qed.

Lemma updateBuzzerOutput_messages (now : Z) (w : World) :
  messages (updateBuzzerOutput now w) = messages w.
Proof.
  unfold updateBuzzerOutput, setSmallBuzzer, setLargeBuzzer.
  destruct (currentState (ctl w)); try reflexivity;
    [apply pulseSmallBuzzer_messages | apply ledcWrite_messages..].
Qed.

Lemma updateBuzzerOutput_audible (now : Z) (w : World) :
  audible (updateBuzzerOutput now w) = audible w.
Proof.
  apply audible_eq;
    [now rewrite updateBuzzerOutput_ctl | apply updateBuzzerOutput_online].
Qed.

Lemma updateStage_messages (now : Z) (w : World) :
  messages (updateStage now w) =
  messages w ++
  match currentState (ctl w) with
  | ALARM_TRIGGERED | ALARM_WARNING | ALARM_ALERT =>
      if getStateDuration (currentState (ctl w)) <=?
         sub32 now (stageStartTime (ctl w))
      then entry_messages (audible w) (next_stage (currentState (ctl w)))
      else []
  | _ => []
  end.
Proof.
  unfold updateStage, updateIdleState.
  destruct (currentState (ctl w)) eqn:E; try now rewrite app_nil_r.
  - unfold updateTriggeredState, isStageDurationExceeded. rewrite E.
    break_if; [|now rewrite app_nil_r].
    rewrite transition_messages, E. reflexivity.
  - unfold updateWarningState, isStageDurationExceeded.
    rewrite updateBuzzerOutput_ctl, E.
    break_if; [|rewrite updateBuzzerOutput_messages; now rewrite app_nil_r].
    rewrite transition_messages, updateBuzzerOutput_ctl, E,
      updateBuzzerOutput_messages, updateBuzzerOutput_audible.
    reflexivity.
  - unfold updateAlertState, isStageDurationExceeded.
    rewrite updateBuzzerOutput_ctl, E.
    break_if; [|rewrite updateBuzzerOutput_messages; now rewrite app_nil_r].
    rewrite transition_messages, updateBuzzerOutput_ctl, E,
      updateBuzzerOutput_messages, updateBuzzerOutput_audible.
    reflexivity.
  - unfold updateEmergencyState.
    rewrite updateBuzzerOutput_messages. now rewrite app_nil_r.
Qed.

Lemma updateStage_audible (now : Z) (w : World) :
  audible (updateStage now w) = audible w.
Proof.
  apply audible_eq; [|apply updateStage_online].
  now destruct (updateStage_flags now w) as (_ & _ & ->).
Qed.

Lemma checkHardwareHealth_messages (w : World) :
  messages (snd (checkHardwareHealth w)) =
  messages w ++
  failure_messages (audible w) (currentState (ctl w)) (state (hw w)).
Proof.
  unfold checkHardwareHealth, failure_messages.
  repeat break_if; cbn [snd]; rewrite ?sendTelegramNotification_messages;
    try reflexivity; now rewrite app_nil_r.
Qed.

Lemma checkHardwareHealth_audible (w : World) :
  audible (snd (checkHardwareHealth w)) = audible w.
Proof.
  apply audible_eq; [|apply checkHardwareHealth_online].
  destruct (checkHardwareHealth_ctl w) as [e ->]. reflexivity.
Qed.

Lemma announce_muted (m : Message) : announce false m = [].
Proof. reflexivity. Qed.

Lemma entry_messages_muted (s : AlarmState) : entry_messages false s = [].
Proof. destruct s; reflexivity. Qed.

Lemma stop_messages_muted (source : AlarmStopSource) (n : Z) :
  stop_messages false source n = [].
Proof. destruct source; reflexivity. Qed.

Lemma failure_messages_muted (s : AlarmState) (h : HardwareState) :
  failure_messages false s h = [].
Proof. unfold failure_messages. repeat break_if; reflexivity. Qed.

Lemma stop_muted (now : Z) (source : AlarmStopSource) (w : World) :
  audible w = false -> messages (snd (stop now source w)) = messages w.
Proof.
  intros Hm. destruct (isActive w) eqn:E; [|now rewrite stop_inactive].
  rewrite stop_active_messages by assumption.
  now rewrite Hm, stop_messages_muted, app_nil_r.
Qed.

Lemma update_muted (now : Z) (w : World) :
  audible w = false -> messages (update now w) = messages w.
Proof.
  intros Hm. unfold update.
  set (w1 := updateStage now w).
  assert (Hm1 : messages w1 = messages w).
  { unfold w1. rewrite updateStage_messages, Hm.
    destruct (currentState (ctl w)); try break_if;
      rewrite ?entry_messages_muted; apply app_nil_r. }
  assert (Ha1 : audible w1 = false) by (unfold w1; now rewrite updateStage_audible).
  set (w2 := updateSafety now w1).
  assert (Hm2 : messages w2 = messages w).
  { unfold w2, updateSafety. break_if; [|exact Hm1].
    now rewrite stop_muted. }
  assert (Ha2 : audible w2 = false).
  { unfold w2, updateSafety. break_if; [|exact Ha1]. now rewrite stop_audible. }
  destruct (isActive w2) eqn:Ea; [|now rewrite updateHealth_inactive].
  destruct (hardwareChecksEnabled (ctl w2) &&
            (10000 <=? sub32 now (lastCheck (ctl w2)))) eqn:Ed;
    [|now rewrite updateHealth_not_due].
  apply andb_true_iff in Ed. destruct Ed as [Ee Ed]. apply Z.leb_le in Ed.
  rewrite updateHealth_due by assumption.
  set (w3 := with_ctl (set_lastCheck now (ctl w2)) w2).
  assert (Hm3 : messages w3 = messages w) by exact Hm2.
  assert (Ha3 : audible w3 = false) by exact Ha2.
  break_if; [exact Hm3|].
  rewrite stop_muted by now rewrite checkHardwareHealth_audible.
  now rewrite checkHardwareHealth_messages, Ha3, failure_messages_muted, app_nil_r.
Qed.

Lemma with_ctl_trace (c : AlarmController) (w : World) :
  trace (with_ctl c w) = trace w.
Proof. reflexivity. Qed.

Lemma testBuzzer_trace (ch : Channel) (w : World) :
  trace (testBuzzer ch w) =
  trace w ++ [EvLedcWrite ch BUZZER_ON; EvLedcWrite ch BUZZER_OFF].
Proof.
  unfold testBuzzer, ledcWrite, emit, with_hw. cbn [trace].
  now rewrite <- app_assoc.
Qed.

Lemma testBuzzer_audible (ch : Channel) (w : World) :
  audible (testBuzzer ch w) = audible w.
Proof. reflexivity. Qed.

Lemma sendTelegramNotification_announce (m : Message) (w : World) :
  trace (sendTelegramNotification m w) = trace w ++ announce (audible w) m.
Proof. apply sendTelegramNotification_trace. Qed.

Lemma set_testMode_audible (b : bool) (w : World) :
  audible (with_ctl (set_testMode b (ctl w)) w) = audible w.
Proof. reflexivity. Qed.

Lemma testAlarm_inactive_trace (w : World) :
  isActive w = false ->
  trace (snd (testAlarm w)) =
  trace w ++
  announce (audible w) MSG_TEST_START ++
  announce (audible w) MSG_TEST_SMALL ++
  [EvLedcWrite BUZZER_PWM_CHANNEL_SMALL BUZZER_ON;
   EvLedcWrite BUZZER_PWM_CHANNEL_SMALL BUZZER_OFF] ++
  announce (audible w) MSG_TEST_LARGE ++
  [EvLedcWrite BUZZER_PWM_CHANNEL_LARGE BUZZER_ON;
   EvLedcWrite BUZZER_PWM_CHANNEL_LARGE BUZZER_OFF] ++
  announce (audible w) MSG_TEST_COMPLETE.
Proof.
  intros E. unfold testAlarm. rewrite E. cbv zeta. cbn [snd].
  rewrite with_ctl_trace.
  rewrite sendTelegramNotification_announce, testBuzzer_trace,
    sendTelegramNotification_announce, testBuzzer_trace,
    sendTelegramNotification_announce, sendTelegramNotification_announce,
    with_ctl_trace.
  rewrite !testBuzzer_audible, !sendTelegramNotification_audible,
    !testBuzzer_audible, !sendTelegramNotification_audible,
    !set_testMode_audible.
  now rewrite <- !app_assoc.
Qed.

(** X4. What [stop] tells the bot for the two reasons outside the user path.
    A successful [stop] for SafetyTimeout passes the bot the timeout message
    and nothing else, and only when notifications are enabled and the bot is
    online; a successful [stop] for HardwareFailure passes the bot nothing at
    all. *)
Theorem X4_stop_messages_timeout_and_failure :
  forall (now : Z) (w : World),
    isActive w = true ->
    messages (snd (stop now STOP_SAFETY_TIMEOUT w)) =
    messages w ++
    (if telegramNotificationsEnabled (ctl w) && botOnline w
     then [EvSendMessage MSG_ALARM_TIMEOUT] else []) /\
    messages (snd (stop now STOP_HARDWARE_ERROR w)) = messages w.
Proof.
  intros now w Ha. split.
  - now rewrite stop_active_messages.
  - rewrite stop_active_messages by assumption. apply app_nil_r.
Qed.

Lemma X4_stop_messages_timeout_and_failure_witness :
  let w := run [CallStart 1000; CallUpdate 4000] boot in
  messages (snd (stop 9000 STOP_HARDWARE_ERROR w)) = messages w.
Proof.
  intros w.
  apply (proj2 (X4_stop_messages_timeout_and_failure 9000 w eq_refl)).
Defined.

(** X5. A muted device sends nothing.  In a world where notifications are
    disabled or the bot is offline, no call of the interface - [start],
    [stop] for any reason, [update], [testAlarm], [reset], the setters, a
    circuit check, a change of the bot's status - passes a message to the
    bot. *)
Theorem X5_muted_sends_nothing :
  forall (c : Call) (w : World),
    telegramNotificationsEnabled (ctl w) = false \/ botOnline w = false ->
    messages (exec c w) = messages w.
Proof.
  intros c w Hm.
  assert (Ha : audible w = false).
  { unfold audible. destruct Hm as [-> | ->]; [reflexivity|apply andb_false_r]. }
  destruct c; cbn [exec].
  - destruct (isActive w) eqn:E; [now rewrite start_active|].
    rewrite start_inactive_messages by assumption.
    rewrite Ha. apply app_nil_r.
  - now apply stop_muted.
  - now apply update_muted.
  - destruct (isActive w) eqn:E; [unfold testAlarm; now rewrite E|].
    unfold messages. rewrite testAlarm_inactive_trace by assumption.
    rewrite Ha. cbn [announce app].
    rewrite filter_app. apply app_nil_r.
  - unfold reset. rewrite (messages_trace_eq (stopAllBuzzers w)) by reflexivity.
    apply stopAllBuzzers_messages.
  - reflexivity.
  - reflexivity.
  - reflexivity.
  - reflexivity.
Qed.

Lemma X5_muted_sends_nothing_witness :
  let w := run [CallSetTelegramNotificationsEnabled false; CallStart 1000] boot in
  messages (exec (CallUpdate 4000) w) = messages w.
Proof.
  intros w. apply X5_muted_sends_nothing. left. reflexivity.
Defined.

Lemma set_testMode_twice (a b : bool) (c : AlarmController) :
  set_testMode a (set_testMode b c) = set_testMode a c.
Proof. reflexivity. Qed.

Lemma testAlarm_inactive_ctl (w : World) :
  isActive w = false ->
  ctl (snd (testAlarm w)) = set_testMode false (ctl w).
Proof.
  intros E. unfold testAlarm. rewrite E. cbv zeta. cbn [snd].
  change (ctl (with_ctl ?c ?v)) with c.
  rewrite sendTelegramNotification_ctl, testBuzzer_ctl,
    sendTelegramNotification_ctl, testBuzzer_ctl,
    !sendTelegramNotification_ctl.
  reflexivity.
Qed.

(** X6. The test script.  [testAlarm] on a machine that is not active
    returns true and does, in this order: the start message, the
    small-buzzer message, the small buzzer on and off, the large-buzzer
    message, the large buzzer on and off, the completion message - the four
    messages only when notifications are enabled and the bot is online.  It
    leaves both buzzers off, the test-mode flag cleared, and the state, the
    timestamps and the statistics of the last session as they were. *)
Theorem X6_test_script :
  forall w : World,
    isActive w = false ->
    fst (testAlarm w) = true /\
    trace (snd (testAlarm w)) =
    trace w ++
    announce (audible w) MSG_TEST_START ++
    announce (audible w) MSG_TEST_SMALL ++
    [EvLedcWrite BUZZER_PWM_CHANNEL_SMALL BUZZER_ON;
     EvLedcWrite BUZZER_PWM_CHANNEL_SMALL BUZZER_OFF] ++
    announce (audible w) MSG_TEST_LARGE ++
    [EvLedcWrite BUZZER_PWM_CHANNEL_LARGE BUZZER_ON;
     EvLedcWrite BUZZER_PWM_CHANNEL_LARGE BUZZER_OFF] ++
    announce (audible w) MSG_TEST_COMPLETE /\
    pwmSmall (hw (snd (testAlarm w))) = 0 /\
    pwmLarge (hw (snd (testAlarm w))) = 0 /\
    testMode (ctl (snd (testAlarm w))) = false /\
    currentState (ctl (snd (testAlarm w))) = currentState (ctl w) /\
    stageStartTime (ctl (snd (testAlarm w))) = stageStartTime (ctl w) /\
    alarmStartTime (ctl (snd (testAlarm w))) = alarmStartTime (ctl w) /\
    lastStatistics (ctl (snd (testAlarm w))) = lastStatistics (ctl w).
Proof.
  intros w E.
  destruct (testAlarm_inactive w E) as [_ [Hs Hl]].
  rewrite testAlarm_inactive_ctl by assumption.
  split; [unfold testAlarm; now rewrite E|].
  split; [now apply testAlarm_inactive_trace|].
  repeat split; assumption.
Qed.

Lemma X6_test_script_witness :
  fst (testAlarm boot) = true /\
  messages (snd (testAlarm boot)) =
  [EvSendMessage MSG_TEST_START; EvSendMessage MSG_TEST_SMALL;
   EvSendMessage MSG_TEST_LARGE; EvSendMessage MSG_TEST_COMPLETE].
Proof.
  destruct (X6_test_script boot eq_refl) as (H1 & H2 & _).
  split; [exact H1|]. unfold messages. rewrite H2. reflexivity.
Defined.

(** X7. [reset] aborts without a trace of a session.  From any world, also
    in the middle of an alarm, it leaves the machine in Idle with both
    buzzers off, the timestamps unset, the statistics and the error text
    cleared, and the two configuration switches and the time of the last
    hardware check as they were.  All it does to the outside is the two
    silencing writes: no session is recorded and no message sent.  Unlike
    [stop] it does not touch the alarm LED, which keeps the level and the
    blinking it had.  Afterwards [getDuration] is 0 and [start] succeeds. *)
Theorem X7_reset_aborts_silently :
  forall (w : World) (now : Z),
    let w' := reset w in
    currentState (ctl w') = ALARM_IDLE /\
    previousState (ctl w') = ALARM_IDLE /\
    stageStartTime (ctl w') = 0 /\
    alarmStartTime (ctl w') = 0 /\
    lastStatistics (ctl w') = mkAlarmStatistics 0 0 0 STOP_NONE ALARM_IDLE false /\
    lastHardwareError (ctl w') = EmptyString /\
    telegramNotificationsEnabled (ctl w') = telegramNotificationsEnabled (ctl w) /\
    hardwareChecksEnabled (ctl w') = hardwareChecksEnabled (ctl w) /\
    lastCheck (ctl w') = lastCheck (ctl w) /\
    pwmSmall (hw w') = 0 /\ pwmLarge (hw w') = 0 /\
    trace w' =
    trace w ++ [EvLedcWrite BUZZER_PWM_CHANNEL_SMALL 0;
                EvLedcWrite BUZZER_PWM_CHANNEL_LARGE 0] /\
    alarmLED (hw w') = alarmLED (hw w) /\
    pinAlarmLED (hw w') = pinAlarmLED (hw w) /\
    getDuration now w' = 0 /\
    fst (start now w') = true /\
    currentState (ctl (snd (start now w'))) = ALARM_TRIGGERED.
Proof.
  intros w now w'. subst w'.
  assert (Hi : isActive (reset w) = false) by reflexivity.
  repeat split; try reflexivity;
    try (now apply start_inactive_fst);
    try (now rewrite start_inactive_ctl);
    try (unfold reset; rewrite with_ctl_trace; apply stopAllBuzzers_trace).
Qed.

(** ** The countdown shown in the status text *)

(** X8. [getTimeRemainingInStage], the countdown [getStateString] prints.
    It is 0 on a machine that is not active, never negative and never more
    than the stage's duration in whole seconds (3 in Triggered, 30 in Warning
    and Alert).  In the three timed stages it is 0 exactly when the stage's
    duration has been exceeded, that is when the next tick will escalate; and
    while it has not, it is at least 1 and equals the duration minus the
    whole seconds elapsed in the stage. *)
Theorem X8_time_remaining :
  forall (now : Z) (w : World),
    let r := getTimeRemainingInStage now w in
    let s := currentState (ctl w) in
    (isActive w = false -> r = 0) /\
    0 <= r <= getStateDuration s / 1000 /\
    (s = ALARM_TRIGGERED \/ s = ALARM_WARNING \/ s = ALARM_ALERT ->
     (r = 0 <-> isStageDurationExceeded now w = true) /\
     (isStageDurationExceeded now w = false ->
      1 <= r /\
      r = getStateDuration s / 1000 - sub32 now (stageStartTime (ctl w)) / 1000)).
Proof.
  intros now w r s. subst r s. unfold getTimeRemainingInStage.
  pose proof (sub32_range now (stageStartTime (ctl w))) as Hr.
  split; [intros ->; reflexivity|]. split.
  - destruct (isActive w); cbn [negb].
    + break_if.
      * split; [lia|]. apply Z.div_pos; [|lia].
        destruct (currentState (ctl w)); vm_compute; congruence.
      * apply Z.leb_gt in Heqb.
        assert (0 <= sub32 now (stageStartTime (ctl w)) / 1000)
          by (apply Z.div_pos; lia).
        lia.
    + split; [lia|]. apply Z.div_pos; [|lia].
      destruct (currentState (ctl w)); vm_compute; congruence.
  - intros Hs.
    assert (Ha : isActive w = true) by (apply isActive_iff; tauto).
    rewrite Ha. cbn [negb]. unfold isStageDurationExceeded.
    set (el := sub32 now (stageStartTime (ctl w))) in *.
    assert (Hd : exists k, 1 <= k /\ getStateDuration (currentState (ctl w)) = 1000 * k).
    { destruct Hs as [-> | [-> | ->]];
        [exists 3|exists 30|exists 30]; split; (lia || reflexivity). }
    destruct Hd as (k & Hk & ->).
    replace (1000 * k / 1000) with k
      by (rewrite Z.mul_comm; symmetry; apply Z.div_mul; lia).
    assert (Hdiv : k <= el / 1000 <-> 1000 * k <= el).
    { split; intros H.
      - pose proof (Z.mul_div_le el 1000 ltac:(lia)). nia.
      - apply Z.div_le_lower_bound; lia. }
    destruct (k <=? el / 1000) eqn:E1; [apply Z.leb_le in E1|apply Z.leb_gt in E1];
      destruct (1000 * k <=? el) eqn:E2;
      try (apply Z.leb_le in E2); try (apply Z.leb_gt in E2).
    + split; [tauto|discriminate].
    + apply Hdiv in E1. lia.
    + apply Hdiv in E2. lia.
    + split; [split; [lia|discriminate]|]. intros _. split; [lia|reflexivity].
Qed.

Lemma X8_time_remaining_witness :
  let w := run [CallStart 1000; CallUpdate 4000] boot in
  getTimeRemainingInStage 13500 w = 21.
Proof.
  intros w.
  destruct (X8_time_remaining 13500 w) as (_ & _ & H).
  destruct (H ltac:(right; left; reflexivity)) as [_ H2].
  destruct (H2 eq_refl) as [_ ->]. reflexivity.
Defined.

(** ** The pulse pattern *)

Lemma half_second_step (e e' : Z) :
  0 <= e -> e' = e \/ e' = e + 1 ->
  0 <= 500 * (e / 500) <= e' /\
  (500 <= e' - 500 * (e / 500) ->
   e' / 500 = e / 500 + 1 /\ e' = 500 * (e / 500 + 1)) /\
  (e' - 500 * (e / 500) < 500 -> e' / 500 = e / 500).
Proof.
  intros He He'.
  pose proof (Z.div_mod e 500 ltac:(lia)) as Hdm.
  pose proof (Z.mod_pos_bound e 500 ltac:(lia)) as Hm.
  assert (0 <= e / 500) by (apply Z.div_pos; lia).
  split; [lia|]. split; intros H1.
  - split; [|lia]. symmetry. apply (Z.div_unique e' 500 (e / 500 + 1) 0); lia.
  - symmetry. apply (Z.div_unique e' 500 (e / 500) (e' - 500 * (e / 500))); lia.
Qed.

Lemma tick_time_0 (t0 : Z) : 0 <= t0 < UINT32_MOD -> tick_time t0 0 = t0.
Proof. intros H. unfold tick_time. rewrite Z.add_0_r. now apply Z.mod_small. Qed.

Lemma pulse_first_call (t0 : Z) (w : World) :
  0 < t0 < UINT32_MOD -> pulseStartTime (hw w) = 0 ->
  fst (pulseSmallBuzzer t0 w) = false /\
  pulse_inv t0 0 (hw (snd (pulseSmallBuzzer t0 w))).
Proof.
  intros Ht Hs. unfold pulseSmallBuzzer. rewrite Hs. cbn [Z.eqb].
  cbn [hw setSmallBuzzer ledcWrite emit with_hw set_pulse pulseStartTime
       lastPulseToggle pulseState].
  rewrite sub32_diag.
  change (ALARM_WARNING_DURATION_MS <=? 0) with false.
  change (BUZZER_PULSE_ON_MS <=? 0) with false. cbv iota.
  split; [reflexivity|].
  unfold pulse_inv. cbn. rewrite tick_time_0 by lia. repeat split.
Qed.

Lemma pulse_step (t0 e e' : Z) (w : World) :
  0 < t0 < UINT32_MOD -> 0 <= e -> e' = e \/ e' = e + 1 -> e' < 30000 ->
  pulse_inv t0 e (hw w) ->
  fst (pulseSmallBuzzer (tick_time t0 e') w) = false /\
  pulse_inv t0 e' (hw (snd (pulseSmallBuzzer (tick_time t0 e') w))).
Proof.
  intros Ht He He' Hlim (Hs & Hp & Hl & Hd).
  destruct (half_second_step e e' He He') as (Hk & Hup & Hsame).
  unfold pulseSmallBuzzer.
  assert (E0 : (pulseStartTime (hw w) =? 0) = false)
    by (apply Z.eqb_neq; lia).
  rewrite E0, Hs, Hp, Hl.
  rewrite sub32_tick0 by (unfold UINT32_MOD in *; lia).
  rewrite sub32_tick by (unfold UINT32_MOD; lia).
  assert (E1 : (ALARM_WARNING_DURATION_MS <=? e') = false)
    by (apply Z.leb_gt; unfold ALARM_WARNING_DURATION_MS; lia).
  rewrite E1.
  change BUZZER_PULSE_ON_MS with 500. change BUZZER_PULSE_OFF_MS with 500.
  destruct (500 <=? e' - 500 * (e / 500)) eqn:E2;
    [apply Z.leb_le in E2; destruct (Hup E2) as [Hup1 Hup2]
    |apply Z.leb_gt in E2; specialize (Hsame E2)].
  - assert (Hev : Z.even (e' / 500) = negb (Z.even (e / 500))).
    { rewrite Hup1, Z.add_1_r, Z.even_succ. symmetry. apply Z.negb_even. }
    assert (Htk : tick_time t0 e' = tick_time t0 (500 * (e' / 500))).
    { f_equal. lia. }
    unfold pulse_inv. rewrite Hev.
    destruct (Z.even (e / 500)); cbn [fst snd negb];
      cbn [hw setSmallBuzzer ledcWrite emit with_hw set_pulse pulseStartTime
           lastPulseToggle pulseState pwmSmall];
      repeat split; assumption.
  - unfold pulse_inv. rewrite Hsame.
    destruct (Z.even (e / 500)); cbn [fst snd];
      repeat split; assumption.
Qed.

Lemma dense_from_le (l : list Z) :
  forall a : Z, dense_from a l = true -> a <= last l a.
Proof.
  induction l as [|x l IHl]; intros a H; [cbn; lia|].
  cbn [dense_from] in H. apply andb_true_iff in H. destruct H as [H1 H2].
  apply IHl in H2.
  assert (Hl : last (x :: l) a = last l x).
  { destruct l as [|y l']; [reflexivity|].
    change (last (x :: y :: l') a) with (last (y :: l') a).
    apply last_cons_default. }
  rewrite Hl.
  apply orb_true_iff in H1. destruct H1 as [H1|H1]; apply Z.eqb_eq in H1; lia.
Qed.

Lemma pulse_run_inv (t0 : Z) (es : list Z) :
  forall (e : Z) (w : World),
    0 < t0 < UINT32_MOD -> 0 <= e -> dense_from e es = true ->
    last es e < 30000 ->
    pulse_inv t0 e (hw w) ->
    pulse_inv t0 (last es e) (hw (pulse_run t0 es w)).
Proof.
  induction es as [|e1 es IH]; intros e w Ht He Hd Hlim Hinv; [exact Hinv|].
  cbn [dense_from] in Hd. apply andb_true_iff in Hd. destruct Hd as [H1 Hd].
  assert (He1 : e1 = e \/ e1 = e + 1).
  { apply orb_true_iff in H1. destruct H1 as [H1|H1]; apply Z.eqb_eq in H1; auto. }
  assert (Hlast : last (e1 :: es) e = last es e1).
  { destruct es as [|x es']; [reflexivity|].
    change (last (e1 :: x :: es') e) with (last (x :: es') e).
    apply last_cons_default. }
  rewrite Hlast in *.
  pose proof (dense_from_le es e1 Hd) as Hle.
  change (pulse_run t0 (e1 :: es) w)
    with (pulse_run t0 es (snd (pulseSmallBuzzer (tick_time t0 e1) w))).
  apply IH; [assumption | lia | assumption | assumption |].
  apply (pulse_step t0 e e1 w); try assumption; lia.
Qed.

(** X9. The pulse pattern of the Warning stage.  Let the pattern be idle
    (start timestamp unset) and let [pulseSmallBuzzer] be called first at a
    clock value [t0] other than 0 and from then on at least once in every
    millisecond.  Then, for as long as less than 30 000 ms have passed, the
    small buzzer is at full duty during the even half seconds since [t0] and
    off during the odd ones: 500 ms on, 500 ms off.  And any call that comes
    30 000 ms or more after [t0] reports the pattern complete, with both
    buzzers off and the start timestamp unset again. *)
Theorem X9_pulse_pattern :
  forall (t0 : Z) (w : World) (es : list Z),
    0 < t0 < UINT32_MOD ->
    pulseStartTime (hw w) = 0 ->
    dense_from 0 es = true ->
    last es 0 < 30000 ->
    let w' := pulse_run t0 (0 :: es) w in
    pwmSmall (hw w') = (if Z.even (last es 0 / 500) then 255 else 0) /\
    pulseStartTime (hw w') = t0 /\
    (forall e' : Z,
        30000 <= e' < UINT32_MOD ->
        fst (pulseSmallBuzzer (tick_time t0 e') w') = true /\
        pwmSmall (hw (snd (pulseSmallBuzzer (tick_time t0 e') w'))) = 0 /\
        pwmLarge (hw (snd (pulseSmallBuzzer (tick_time t0 e') w'))) = 0 /\
        pulseStartTime (hw (snd (pulseSmallBuzzer (tick_time t0 e') w'))) = 0).
Proof.
  intros t0 w es Ht Hs Hd Hlim w'.
  destruct (pulse_first_call t0 w Ht Hs) as [_ H0].
  assert (Hinv : pulse_inv t0 (last es 0) (hw w')).
  { subst w'.
    change (pulse_run t0 (0 :: es) w)
      with (pulse_run t0 es (snd (pulseSmallBuzzer (tick_time t0 0) w))).
    rewrite tick_time_0 by lia.
    apply pulse_run_inv; try assumption; lia. }
  destruct Hinv as (Hst & _ & _ & Hduty).
  split; [exact Hduty|]. split; [exact Hst|].
  intros e' He'. unfold pulseSmallBuzzer.
  assert (E0 : (pulseStartTime (hw w') =? 0) = false)
    by (apply Z.eqb_neq; lia).
  rewrite E0, Hst, sub32_tick0 by (unfold UINT32_MOD in *; lia).
  assert (E1 : (ALARM_WARNING_DURATION_MS <=? e') = true)
    by (apply Z.leb_le; unfold ALARM_WARNING_DURATION_MS; lia).
  rewrite E1. repeat split.
Qed.

Lemma X9_pulse_pattern_witness :
  let w' := pulse_run 4000 (0 :: every_ms 700) boot in
  pwmSmall (hw w') = 0 /\ pulseStartTime (hw w') = 4000.
Proof.
  intros w'.
  destruct (X9_pulse_pattern 4000 boot (every_ms 700)
              ltac:(unfold UINT32_MOD; lia) eq_refl
              ltac:(vm_compute; reflexivity)
              ltac:(vm_compute; reflexivity)) as (H1 & H2 & _).
  split; [exact H1|exact H2].
Defined.

(** ** The alarm LED *)

Lemma period_step (p e e' : Z) :
  0 < p -> 0 <= e -> e' = e \/ e' = e + 1 ->
  0 <= p * (e / p) <= e' /\
  (p <= e' - p * (e / p) -> e' / p = e / p + 1 /\ e' = p * (e / p + 1)) /\
  (e' - p * (e / p) < p -> e' / p = e / p).
Proof.
  intros Hp He He'.
  pose proof (Z.div_mod e p ltac:(lia)) as Hdm.
  pose proof (Z.mod_pos_bound e p ltac:(lia)) as Hm.
  assert (H0 : 0 <= e / p) by (apply Z.div_pos; lia).
  assert (H1 : 0 <= p * (e / p)) by (apply Z.mul_nonneg_nonneg; lia).
  assert (H2 : p * (e / p + 1) = p * (e / p) + p) by ring.
  split; [lia|]. split; intros H.
  - split; [|lia]. symmetry. apply (Z.div_unique e' p (e / p + 1) 0); lia.
  - symmetry. apply (Z.div_unique e' p (e / p) (e' - p * (e / p))); lia.
Qed.

Section Blink.
Variables (t0 ivl : Z) (phase0 : bool).
Hypothesis Ht0 : 0 <= t0 < UINT32_MOD.
Hypothesis Hivl : 0 < ivl <= 65535.

(** The LED [e] milliseconds after blinking was switched on at [t0]. *)
Let blink_inv (e : Z) (w : World) : Prop :=
  ledsEnabled (state (hw w)) = true /\
  enabled (alarmLED (hw w)) = true /\
  interval (alarmLED (hw w)) = ivl /\
  lastToggle (alarmLED (hw w)) = tick_time t0 (ivl * (e / ivl)) /\
  ledCurrentState (alarmLED (hw w)) = xorb phase0 (Z.odd (e / ivl)) /\
  (ivl <= e -> pinAlarmLED (hw w) = ledCurrentState (alarmLED (hw w))).

Lemma blink_step (e e' : Z) (w : World) :
  0 <= e -> e' = e \/ e' = e + 1 -> e' < UINT32_MOD ->
  blink_inv e w -> blink_inv e' (updateLEDs (tick_time t0 e') w).
Proof.
  intros He He' Hlim (Hen & Hbl & Hi & Hl & Hc & Hpin).
  destruct (period_step ivl e e' (proj1 Hivl) He He') as (Hk & Hup & Hsame).
  unfold updateLEDs, updateSingleLED. rewrite Hen, Hbl, Hi, Hl. cbn [negb].
  rewrite sub32_tick by lia.
  destruct (ivl <=? e' - ivl * (e / ivl)) eqn:E;
    [apply Z.leb_le in E; destruct (Hup E) as [Hup1 Hup2]
    |apply Z.leb_gt in E; specialize (Hsame E)].
  - unfold blink_inv, Hardware.set_alarmLED, with_hw.
    cbn [hw state alarmLED pinAlarmLED enabled interval lastToggle ledCurrentState].
    rewrite Hup1, Z.add_1_r, Z.odd_succ, <- Z.negb_odd, Hc.
    repeat split; try assumption.
    + f_equal. rewrite <- Z.add_1_r. lia.
    + now destruct phase0, (Z.odd (e / ivl)).
  - unfold blink_inv, Hardware.set_alarmLED, with_hw.
    cbn [hw state alarmLED pinAlarmLED enabled interval lastToggle ledCurrentState].
    rewrite Hsame. repeat split; try assumption.
    intros Hge. apply Hpin.
    assert (1 <= e / ivl).
    { rewrite <- Hsame. apply Z.div_le_lower_bound; lia. }
    pose proof (Z.mul_div_le e ivl ltac:(lia)). nia.
Qed.

Lemma blink_run_inv (es : list Z) :
  forall (e : Z) (w : World),
    0 <= e -> dense_from e es = true -> last es e < UINT32_MOD ->
    blink_inv e w -> blink_inv (last es e) (led_run t0 es w).
Proof.
  induction es as [|e1 es IH]; intros e w He Hd Hlim Hinv; [exact Hinv|].
  cbn [dense_from] in Hd. apply andb_true_iff in Hd. destruct Hd as [H1 Hd].
  assert (He1 : e1 = e \/ e1 = e + 1).
  { apply orb_true_iff in H1. destruct H1 as [H1|H1]; apply Z.eqb_eq in H1; auto. }
  assert (Hlast : last (e1 :: es) e = last es e1).
  { destruct es as [|x es']; [reflexivity|].
    change (last (e1 :: x :: es') e) with (last (x :: es') e).
    apply last_cons_default. }
  rewrite Hlast in *.
  assert (Hle : e1 <= last es e1) by now apply dense_from_le.
  change (led_run t0 (e1 :: es) w)
    with (led_run t0 es (updateLEDs (tick_time t0 e1) w)).
  apply IH; [lia | assumption | assumption |].
  apply (blink_step e e1 w); try assumption; lia.
Qed.

Lemma blink_start (w : World) :
  ledsEnabled (state (hw w)) = true ->
  ledCurrentState (alarmLED (hw w)) = phase0 ->
  blink_inv 0 (blinkAlarmLED t0 ivl w).
Proof.
  intros Hen Hc. unfold blink_inv, blinkAlarmLED, Hardware.set_alarmLED, with_hw.
  cbn [hw state alarmLED pinAlarmLED enabled interval lastToggle ledCurrentState].
  rewrite Z.div_0_l by lia. rewrite Z.mul_0_r, tick_time_0 by assumption.
  cbn [Z.odd]. rewrite xorb_false_r.
  repeat split; try assumption. intros H. lia.
Qed.

Lemma blink_pattern (w : World) (es : list Z) :
  ledsEnabled (state (hw w)) = true ->
  ledCurrentState (alarmLED (hw w)) = phase0 ->
  dense_from 0 es = true -> last es 0 < UINT32_MOD ->
  let w' := led_run t0 es (blinkAlarmLED t0 ivl w) in
  ledCurrentState (alarmLED (hw w')) = xorb phase0 (Z.odd (last es 0 / ivl)) /\
  (ivl <= last es 0 ->
   pinAlarmLED (hw w') = xorb phase0 (Z.odd (last es 0 / ivl))) /\
  (last es 0 < ivl -> pinAlarmLED (hw w') = pinAlarmLED (hw w)).
Proof.
  intros Hen Hc Hd Hlim w'.
  pose proof (blink_run_inv es 0 (blinkAlarmLED t0 ivl w) ltac:(lia) Hd Hlim
                (blink_start w Hen Hc)) as (_ & _ & _ & _ & Hcur & Hpin).
  fold w' in Hcur, Hpin.
  split; [exact Hcur|]. split; [intros H; rewrite Hpin by assumption; exact Hcur|].
  intros Hlt. subst w'. clear Hcur Hpin.
  assert (Hgen : forall es e v,
             0 <= e -> dense_from e es = true -> last es e < ivl ->
             blink_inv e v ->
             pinAlarmLED (hw (led_run t0 es v)) = pinAlarmLED (hw v)).
  { clear es Hd Hlim Hlt. induction es as [|e1 es IH]; intros e v He Hd Hlt Hinv;
      [reflexivity|].
    cbn [dense_from] in Hd. apply andb_true_iff in Hd. destruct Hd as [H1 Hd].
    assert (He1 : e1 = e \/ e1 = e + 1).
    { apply orb_true_iff in H1. destruct H1 as [H1|H1]; apply Z.eqb_eq in H1; auto. }
    assert (Hlast : last (e1 :: es) e = last es e1).
    { destruct es as [|x es']; [reflexivity|].
      change (last (e1 :: x :: es') e) with (last (x :: es') e).
      apply last_cons_default. }
    rewrite Hlast in *.
    assert (Hle : e1 <= last es e1) by now apply dense_from_le.
    change (led_run t0 (e1 :: es) v)
      with (led_run t0 es (updateLEDs (tick_time t0 e1) v)).
    assert (He1lim : e1 < UINT32_MOD).
    { unfold UINT32_MOD. lia. }
    rewrite (IH e1 (updateLEDs (tick_time t0 e1) v) ltac:(lia) Hd Hlt
               (blink_step e e1 v He He1 He1lim Hinv)).
    destruct Hinv as (Hen' & Hbl & Hi & Hl & _).
    unfold updateLEDs, updateSingleLED. rewrite Hen', Hbl, Hi, Hl. cbn [negb].
    assert (Hd0 : e / ivl = 0) by (apply Z.div_small; lia).
    rewrite Hd0, Z.mul_0_r, sub32_tick by lia.
    assert (E : (ivl <=? e1 - 0) = false) by (apply Z.leb_gt; lia).
    rewrite E. reflexivity. }
  rewrite (Hgen es 0 (blinkAlarmLED t0 ivl w) ltac:(lia) Hd Hlt
             (blink_start w Hen Hc)).
  reflexivity.
Qed.
End Blink.

(** X10. The blinking alarm LED.  Let blinking be switched on at clock value
    [t0] with a period [ivl] between 1 and 65 535 ms, with the LEDs enabled,
    and let [updateLEDs] be called at least once in every millisecond from
    then on.  Then the LED's phase is flipped once per elapsed period: after
    the poll at offset [e] it is the phase it had when blinking was switched
    on if [e / ivl] is even and the opposite if it is odd.  The pin shows
    that phase from the first flip on; before the first flip it keeps the
    level it had, whatever the phase. *)
Theorem X10_alarm_led_blink :
  forall (t0 ivl : Z) (w : World) (es : list Z),
    0 <= t0 < UINT32_MOD ->
    0 < ivl <= 65535 ->
    ledsEnabled (state (hw w)) = true ->
    dense_from 0 es = true ->
    last es 0 < UINT32_MOD ->
    let w' := led_run t0 es (blinkAlarmLED t0 ivl w) in
    let flipped := xorb (ledCurrentState (alarmLED (hw w))) (Z.odd (last es 0 / ivl)) in
    ledCurrentState (alarmLED (hw w')) = flipped /\
    (ivl <= last es 0 -> pinAlarmLED (hw w') = flipped) /\
    (last es 0 < ivl -> pinAlarmLED (hw w') = pinAlarmLED (hw w)).
Proof.
  intros t0 ivl w es Ht Hi Hen Hd Hlim.
  apply (blink_pattern t0 ivl (ledCurrentState (alarmLED (hw w))) Ht Hi w es);
    auto.
Qed.

Lemma X10_alarm_led_blink_witness :
  let w := snd (start 1000 boot) in
  let w' := led_run 4000 (every_ms 1500) (blinkAlarmLED 4000 LED_BLINK_SLOW w) in
  pinAlarmLED (hw w) = true /\
  ledCurrentState (alarmLED (hw w')) = true /\ pinAlarmLED (hw w') = true.
Proof.
  intros w w'. split; [reflexivity|].
  destruct (X10_alarm_led_blink 4000 LED_BLINK_SLOW w (every_ms 1500)
              ltac:(unfold UINT32_MOD; lia)
              ltac:(unfold LED_BLINK_SLOW; lia) eq_refl
              ltac:(vm_compute; reflexivity)
              ltac:(vm_compute; reflexivity)) as (H1 & H2 & _).
  split; [exact H1|]. apply H2. vm_compute. congruence.
Defined.

(** ** One poll of a button *)

(** X11. One poll of [debounceButton].  The value returned is the stored
    stable state, and the raw reading is remembered.  The stable state
    changes only to the raw reading, and only when the previous poll read the
    same value and more than 50 ms have passed on the clock since the reading
    last changed; under those two conditions it does take the raw reading.
    A reading that differs from the previous one never changes the stable
    state, however old the last change, and restarts the settle timer.  And
    polling again in the same millisecond with the same reading changes
    nothing. *)
Theorem X11_debounce_poll :
  forall (now : Z) (raw : bool) (b : ButtonState),
    let r := fst (debounceButton now raw b) in
    let b' := snd (debounceButton now raw b) in
    r = stableState b' /\
    lastReading b' = raw /\
    (stableState b' <> stableState b ->
     stableState b' = raw /\ lastReading b = raw /\
     BUTTON_DEBOUNCE_MS < sub32 now (lastChange b)) /\
    (lastReading b = raw -> BUTTON_DEBOUNCE_MS < sub32 now (lastChange b) ->
     stableState b' = raw) /\
    (lastReading b <> raw ->
     stableState b' = stableState b /\ lastChange b' = now) /\
    debounceButton now raw b' = (r, b').
Proof.
  intros now raw [lr st lc] r b'. subst r b'. unfold debounceButton.
  cbn [lastReading stableState lastChange].
  destruct (BUTTON_DEBOUNCE_MS <? sub32 now lc) eqn:E;
    destruct raw, lr, st;
    repeat first
      [ rewrite sub32_diag
      | rewrite E
      | progress change (BUTTON_DEBOUNCE_MS <? 0) with false
      | progress cbn [Bool.eqb negb fst snd lastReading stableState lastChange] ];
    repeat split; intros; try congruence;
    try (apply Z.ltb_lt in E; exact E);
    try (apply Z.ltb_ge in E; lia).
Qed.

Lemma X11_debounce_poll_witness :
  let b := mkButtonState false false 100 in
  stableState (snd (debounceButton 999999 true b)) = false /\
  lastChange (snd (debounceButton 999999 true b)) = 999999.
Proof.
  intros b.
  destruct (X11_debounce_poll 999999 true b) as (_ & _ & _ & _ & H & _).
  apply H. discriminate.
Defined.

(** ** The rate limit of the hardware check *)

(** X12. The periodic hardware check is rate limited.  On an active machine,
    a tick that comes less than 10 000 ms after the last check, or with the
    checks disabled, runs no check: the time of the last check and the error
    text stay as they were, and if the tick ends the session it is for the
    safety timeout - a circuit marked Failed goes unnoticed until the check
    is due.  A tick at which the check is due, with checks enabled and the
    safety timeout not reached, stamps the time of the tick as the time of
    the last check, whether the check passes or fails. *)
Theorem X12_hardware_check_rate_limit :
  forall (now : Z) (w : World),
    isActive w = true ->
    (hardwareChecksEnabled (ctl w) = false \/
     sub32 now (lastCheck (ctl w)) < 10000 ->
     lastCheck (ctl (update now w)) = lastCheck (ctl w) /\
     lastHardwareError (ctl (update now w)) = lastHardwareError (ctl w) /\
     (currentState (ctl (update now w)) = ALARM_IDLE ->
      stopSource (lastStatistics (ctl (update now w))) = STOP_SAFETY_TIMEOUT)) /\
    (hardwareChecksEnabled (ctl w) = true ->
     10000 <= sub32 now (lastCheck (ctl w)) ->
     isSafetyTimeoutReached now w = false ->
     lastCheck (ctl (update now w)) = now).
Proof.
  intros now w Ha.
  destruct (updateStage_flags now w) as (_ & Hlc & _).
  assert (Hle : lastHardwareError (ctl (updateStage now w)) = lastHardwareError (ctl w)).
  { destruct (updateStage_step now w) as [->|[-> _]]; reflexivity. }
  assert (Hact : isActive (updateStage now w) = true) by now apply updateStage_active.
  assert (Hs1 : isSafetyTimeoutReached now (updateStage now w) = isSafetyTimeoutReached now w).
  { apply isSafetyTimeoutReached_ctl, updateStage_alarmStartTime. }
  split.
  - intros Hnd.
    destruct (update_active_outcome now w Ha)
      as [Hs Hc|Hs Hd Hc|Hs He Hd Hf Hc|e Hs He Hd Hf Hc]; rewrite Hc.
    + repeat split; assumption.
    + split; [exact Hlc|]. split; [exact Hle|].
      intros Hi. apply isActive_iff in Hact.
      destruct Hact as [E|[E|[E|E]]]; congruence.
    + destruct Hnd as [Hnd|Hnd]; [congruence|lia].
    + destruct Hnd as [Hnd|Hnd]; [congruence|lia].
  - intros He Hd Hs.
    destruct (update_active_outcome now w Ha)
      as [Hs' Hc|Hs' Hd' Hc|Hs' He' Hd' Hf Hc|e Hs' He' Hd' Hf Hc]; rewrite Hc.
    + congruence.
    + rewrite He in Hd'. cbn [andb] in Hd'. apply Z.leb_gt in Hd'. lia.
    + reflexivity.
    + reflexivity.
Qed.

Lemma X12_hardware_check_rate_limit_witness :
  let w := run [CallStart 7000; CallUpdate 10000;
                CallCheckBuzzerCircuits false true] boot in
  currentState (ctl w) = ALARM_WARNING /\
  smallBuzzer (state (hw w)) = HW_STATUS_FAILED /\
  lastCheck (ctl (update 19999 w)) = 10000 /\
  isActive (update 19999 w) = true.
Proof.
  intros w. split; [reflexivity|]. split; [reflexivity|].
  destruct (proj1 (X12_hardware_check_rate_limit 19999 w eq_refl)
              ltac:(right; vm_compute; reflexivity)) as (H & _).
  split; [exact H|reflexivity].
Defined.

(** ** The messages of an undisturbed alarm *)

Lemma updateHealth_healthy (now : Z) (w : World) :
  checks_pass w ->
  messages (updateHealth now w) = messages w /\
  audible (updateHealth now w) = audible w.
Proof.
  intros Hcp.
  destruct (isActive w) eqn:Ea; [|now rewrite updateHealth_inactive].
  destruct (hardwareChecksEnabled (ctl w) &&
            (10000 <=? sub32 now (lastCheck (ctl w)))) eqn:Ed;
    [|now rewrite updateHealth_not_due].
  apply andb_true_iff in Ed. destruct Ed as [Ee Ed]. apply Z.leb_le in Ed.
  rewrite updateHealth_due by assumption.
  rewrite checkHardwareHealth_fst.
  change (state (hw (with_ctl (set_lastCheck now (ctl w)) w))) with (state (hw w)).
  rewrite (checks_pass_no_failure _ w Hcp Ee). cbn [negb]. split; reflexivity.
Qed.

Lemma update_audible (now : Z) (w : World) :
  audible (update now w) = audible w.
Proof.
  unfold update.
  assert (Hh : forall v, audible (updateHealth now v) = audible v).
  { intros v.
    destruct (isActive v) eqn:Ea; [|now rewrite updateHealth_inactive].
    destruct (hardwareChecksEnabled (ctl v) &&
              (10000 <=? sub32 now (lastCheck (ctl v)))) eqn:Ed;
      [|now rewrite updateHealth_not_due].
    apply andb_true_iff in Ed. destruct Ed as [Ee Ed]. apply Z.leb_le in Ed.
    rewrite updateHealth_due by assumption.
    break_if; [reflexivity|].
    now rewrite stop_audible, checkHardwareHealth_audible. }
  rewrite Hh. unfold updateSafety.
  break_if; [rewrite stop_audible|]; apply updateStage_audible.
Qed.

Lemma update_messages_healthy (now : Z) (w : World) :
  isActive w = true -> checks_pass w ->
  messages (update now w) =
  messages (updateStage now w) ++
  (if isSafetyTimeoutReached now w
   then announce (audible w) MSG_ALARM_TIMEOUT else []).
Proof.
  intros Ha Hcp. unfold update.
  pose proof (updateStage_active now w Ha) as Ha1.
  assert (Hs : isSafetyTimeoutReached now (updateStage now w) =
               isSafetyTimeoutReached now w)
    by apply isSafetyTimeoutReached_ctl, updateStage_alarmStartTime.
  unfold updateSafety. rewrite Ha1, Hs. cbn [andb].
  destruct (isSafetyTimeoutReached now w).
  - rewrite updateHealth_inactive by now apply stop_active_isActive.
    rewrite stop_active_messages by assumption.
    now rewrite updateStage_audible.
  - rewrite app_nil_r. apply updateHealth_healthy.
    unfold checks_pass in *.
    destruct (updateStage_flags now w) as (-> & _ & _).
    now rewrite updateStage_state.
Qed.

Ltac decide_leb :=
  repeat match goal with
         | |- context [?c <=? ?x] =>
             first [ replace (c <=? x) with true
                       by (symmetry; apply Z.leb_le; lia)
                   | replace (c <=? x) with false
                       by (symmetry; apply Z.leb_gt; lia) ]
         end.

Lemma timeline_step_messages (T e e' : Z) (w : World) (base : list Event) :
  0 < T < UINT32_MOD -> 0 <= e -> e' = e \/ e' = e + 1 ->
  checks_pass w -> timeline_inv T e (ctl w) ->
  messages w = base ++ sent (audible w) e ->
  messages (update (tick_time T e') w) = base ++ sent (audible w) e'.
Proof.
  intros HT He He' Hcp [Hst [[Hok Hlim]|(HT0 & Hge & Hidle & Hsrc)]] Hm.
  - specialize (Hlim ltac:(lia)).
    pose proof (stage_ok_active T e w Hok) as Ha.
    rewrite update_messages_healthy by assumption.
    rewrite updateStage_messages, Hm.
    unfold isSafetyTimeoutReached. rewrite Hst.
    replace (T =? 0) with false by (symmetry; apply Z.eqb_neq; lia).
    rewrite sub32_tick0 by (unfold UINT32_MOD in *; lia).
    change ALARM_SAFETY_TIMEOUT_MS with 300000.
    unfold sent.
    destruct Hok as [(Hr & Hs & Ht)|[(Hr & Hs & Ht)|[(Hr & Hs & Ht)|(Hr & Hs)]]];
      rewrite Hs; cbv iota; rewrite ?Ht.
    + rewrite sub32_tick0 by (unfold UINT32_MOD in *; lia).
      change (getStateDuration ALARM_TRIGGERED) with 3000.
      destruct (3000 <=? e') eqn:E; [apply Z.leb_le in E|apply Z.leb_gt in E];
        decide_leb; cbn [next_stage entry_messages];
        rewrite ?app_nil_r, <- ?app_assoc; reflexivity.
    + rewrite sub32_tick by (unfold UINT32_MOD; lia).
      change (getStateDuration ALARM_WARNING) with 30000.
      destruct (30000 <=? e' - 3000) eqn:E;
        [apply Z.leb_le in E|apply Z.leb_gt in E];
        decide_leb; cbn [next_stage entry_messages];
        rewrite ?app_nil_r, <- ?app_assoc; reflexivity.
    + rewrite sub32_tick by (unfold UINT32_MOD; lia).
      change (getStateDuration ALARM_ALERT) with 30000.
      destruct (30000 <=? e' - 33000) eqn:E;
        [apply Z.leb_le in E|apply Z.leb_gt in E];
        decide_leb; cbn [next_stage entry_messages];
        rewrite ?app_nil_r, <- ?app_assoc; reflexivity.
    + destruct (300000 <=? e') eqn:E;
        [apply Z.leb_le in E|apply Z.leb_gt in E];
        decide_leb; rewrite ?app_nil_r, <- ?app_assoc; reflexivity.
  - rewrite update_inactive by (apply isActive_false_iff; now left).
    rewrite Hm. unfold sent. decide_leb. reflexivity.
Qed.

Lemma timeline_run_messages (T : Z) (es : list Z) (base : list Event) :
  forall (e : Z) (w : World),
    0 < T < UINT32_MOD -> 0 <= e -> dense_from e es = true ->
    checks_pass w -> timeline_inv T e (ctl w) ->
    messages w = base ++ sent (audible w) e ->
    messages (run_updates T es w) = base ++ sent (audible w) (last es e).
Proof.
  induction es as [|e1 es IH]; intros e w HT He Hd Hcp Hinv Hm; [exact Hm|].
  cbn [dense_from] in Hd. apply andb_true_iff in Hd. destruct Hd as [H1 Hd].
  assert (He1 : e1 = e \/ e1 = e + 1).
  { apply orb_true_iff in H1. destruct H1 as [H1|H1]; apply Z.eqb_eq in H1; auto. }
  assert (Hlast : last (e1 :: es) e = last es e1).
  { destruct es as [|x es']; [reflexivity|].
    change (last (e1 :: x :: es') e) with (last (x :: es') e).
    apply last_cons_default. }
  rewrite Hlast.
  change (run_updates T (e1 :: es) w)
    with (run_updates T es (update (tick_time T e1) w)).
  rewrite <- (update_audible (tick_time T e1) w).
  apply IH; [assumption | lia | assumption | now apply update_checks_pass | |].
  - apply timeline_step with (e := e); try assumption; lia.
  - rewrite update_audible. now apply timeline_step_messages with (e := e).
Qed.

(** X13. The messages of an undisturbed alarm.  Under the conditions of the
    escalation timeline (a start that succeeds at a clock value other than
    0, no hardware check that can fail, [update] at least once in every
    millisecond, nothing else called), the messages passed to the bot up to
    the tick at offset [e] are, in this order and nothing else: the
    acknowledgement of the start, then the Warning message once 3000 ms have
    passed, the Alert message after 33 000, the Emergency message after
    63 000 and the timeout message after 300 000 - all of them when
    notifications are enabled and the bot is online, none of them
    otherwise. *)
Theorem X13_timeline_messages :
  forall (T : Z) (w0 : World) (es : list Z),
    0 < T < UINT32_MOD ->
    isActive w0 = false ->
    checks_pass w0 ->
    dense_from 0 es = true ->
    let w := run_updates T es (snd (start T w0)) in
    let a := telegramNotificationsEnabled (ctl w0) && botOnline w0 in
    messages w = messages w0 ++ sent a (last es 0) /\
    (300000 <= last es 0 -> a = true ->
     messages w =
     messages w0 ++
     [EvSendMessage MSG_WAKE_RECEIVED; EvSendMessage MSG_WARNING_STARTED;
      EvSendMessage MSG_ALERT_STARTED; EvSendMessage MSG_EMERGENCY_STARTED;
      EvSendMessage MSG_ALARM_TIMEOUT]).
Proof.
  intros T w0 es HT Hi Hcp Hd w a.
  destruct (start_timeline T w0 Hi Hcp) as [Hcp1 Hinv1].
  assert (Ha1 : audible (snd (start T w0)) = a).
  { apply audible_eq.
    - now rewrite start_inactive_ctl.
    - unfold start. rewrite Hi. cbn [snd].
      now rewrite sendTelegramNotification_online, transition_online. }
  assert (Hm1 : messages (snd (start T w0)) =
                messages w0 ++ sent (audible (snd (start T w0))) 0).
  { rewrite start_inactive_messages by assumption. rewrite Ha1.
    unfold sent. cbn. now rewrite app_nil_r. }
  pose proof (timeline_run_messages T es (messages w0) 0 (snd (start T w0))
                HT ltac:(lia) Hd Hcp1 Hinv1 Hm1) as H.
  fold w in H. rewrite Ha1 in H.
  split; [exact H|].
  intros Hge Hau. rewrite H, Hau. unfold sent. decide_leb. reflexivity.
Qed.

Lemma X13_timeline_messages_witness :
  messages (run_updates 1000 (every_ms 3001) (snd (start 1000 boot))) =
  [EvSendMessage MSG_WAKE_RECEIVED; EvSendMessage MSG_WARNING_STARTED].
Proof.
  destruct (X13_timeline_messages 1000 boot (every_ms 3001)
              ltac:(unfold UINT32_MOD; lia) eq_refl
              ltac:(right; split; discriminate)
              ltac:(vm_compute; reflexivity)) as [H _].
  rewrite H. vm_compute. reflexivity.
Defined.

(** ** Setup *)

(** X14. What [setup()] establishes.  Whatever the two circuit checks read
    back - also with both circuits failed - [alarmController.begin()]
    succeeds after [hardware.begin()], and the world [setup()] leaves is one
    the call interface starts from: the controller as constructed, in Idle,
    both buzzer channels at duty 0, the circuit statuses those of the second
    check, nothing sent to the bot.  Called on hardware that has never been
    checked, [alarmController.begin()] returns false and changes nothing. *)
Theorem X14_setup_establishes_initial :
  forall s1 l1 s2 l2 online : bool,
    let w := setup s1 l1 s2 l2 (constructed online) in
    fst (AlarmController_begin
           (snd (checkBuzzerCircuits s2 l2
                   (snd (Hardware_begin s1 l1 (constructed online)))))) = true /\
    initial w /\
    reachable w /\
    smallBuzzer (state (hw w)) = (if s2 then HW_STATUS_OK else HW_STATUS_FAILED) /\
    largeBuzzer (state (hw w)) = (if l2 then HW_STATUS_OK else HW_STATUS_FAILED) /\
    messages w = [] /\
    AlarmController_begin (constructed online) = (false, constructed online).
Proof.
  intros s1 l1 s2 l2 online w.
  assert (Hi : initial w) by (destruct s1, l1, s2, l2; repeat split).
  split; [destruct s1, l1, s2, l2; reflexivity|].
  split; [exact Hi|]. split; [now apply reachable_initial|].
  repeat split; destruct s1, l1, s2, l2; reflexivity.
Qed.

(** ** The /wake command *)



(** ** From the first press reading to the factory reset *)

Lemma debounce_pressed_stays (t : Z) (b : ButtonState) :
  stableState b = true -> stableState (snd (debounceButton t true b)) = true.
Proof.
  intros Hs. unfold debounceButton.
  destruct (negb (Bool.eqb true (lastReading b)));
    cbn [stableState lastChange lastReading];
    rewrite Hs; cbn [Bool.eqb negb]; break_if; cbn [snd stableState];
    reflexivity || assumption.
Qed.

Lemma hold_continues (rest : list ButtonPoll) :
  forall (h : Hardware) (P : Z),
    stableState (resetButton h) = true ->
    resetButtonPressTime (state h) = P -> P <> 0 ->
    Forall (fun p => snd (snd p) = true) rest ->
    resetButtonPressTime (state (poll_all rest h)) = P.
Proof.
  induction rest as [|[t [[tr sr] rr]] rest IH]; intros h P Hs Hp Hne Hall;
    [exact Hp|].
  apply Forall_cons_iff in Hall. destruct Hall as [Hr Hall]. cbn [snd] in Hr.
  subst rr.
  change (poll_all ((t, (tr, sr, true)) :: rest) h)
    with (poll_all rest (updateButtons t tr sr true h)).
  destruct (updateButtons_reset t tr sr true h) as (Hrb & Hb & Hpt).
  assert (Hst : stableState (resetButton (updateButtons t tr sr true h)) = true)
    by (rewrite Hrb; now apply debounce_pressed_stays).
  apply IH; try assumption.
  rewrite Hpt, Hb, Hst, Hp.
  apply Z.eqb_neq in Hne. now rewrite Hne.
Qed.

Lemma hold_begins (t0 : Z) (rest : list ButtonPoll) :
  forall h : Hardware,
    resetButton h = mkButtonState true false t0 ->
    resetButtonPressTime (state h) = 0 ->
    Forall (fun p => snd (snd p) = true /\ fst p <> 0) rest ->
    resetButtonPressTime (state (poll_all rest h)) =
    match find (fun p => BUTTON_DEBOUNCE_MS <? sub32 (fst p) t0) rest with
    | Some p => fst p
    | None => 0
    end.
Proof.
  induction rest as [|[t [[tr sr] rr]] rest IH]; intros h Hrb Hp Hall;
    [exact Hp|].
  apply Forall_cons_iff in Hall. destruct Hall as [[Hr Ht] Hall].
  cbn [snd fst] in Hr, Ht. subst rr.
  change (poll_all ((t, (tr, sr, true)) :: rest) h)
    with (poll_all rest (updateButtons t tr sr true h)).
  destruct (updateButtons_reset t tr sr true h) as (Hrb' & Hb & Hpt).
  rewrite Hrb in Hrb'. unfold debounceButton in Hrb'.
  cbn [lastReading stableState lastChange Bool.eqb negb] in Hrb'.
  cbn [find fst].
  destruct (BUTTON_DEBOUNCE_MS <? sub32 t t0) eqn:E.
  - cbn [snd] in Hrb'.
    apply hold_continues; try assumption.
    + now rewrite Hrb'.
    + rewrite Hpt, Hb, Hrb', Hp. reflexivity.
    + eapply Forall_impl; [|exact Hall]. now intros p [H _].
  - cbn [snd] in Hrb'.
    apply IH; try assumption.
    rewrite Hpt, Hb, Hrb'. reflexivity.
Qed.

(** X16. From the first press reading to the factory reset.  Let the reset
    button be settled released with the hold timestamp unset, and let it then
    read pressed at every poll, the first at [t0] (no poll at clock value
    0).  The hold timestamp is the time of the first poll that comes more
    than 50 ms after [t0], and unset while there has been none.  So
    [isFactoryResetRequested] turns true 10 000 ms after that poll, not
    10 000 ms after the first press reading: the debounce delay comes on
    top of the hold threshold. *)
Theorem X16_hold_counts_from_stable_press :
  forall (h : Hardware) (t0 : Z) (tr0 sr0 : bool) (rest : list ButtonPoll)
         (now : Z),
    lastReading (resetButton h) = false ->
    stableState (resetButton h) = false ->
    resetButtonPressTime (state h) = 0 ->
    Forall (fun p => snd (snd p) = true /\ fst p <> 0) rest ->
    let h' := poll_all ((t0, (tr0, sr0, true)) :: rest) h in
    let first_stable :=
      find (fun p => BUTTON_DEBOUNCE_MS <? sub32 (fst p) t0) rest in
    resetButtonPressTime (state h') =
    match first_stable with Some p => fst p | None => 0 end /\
    (isFactoryResetRequested now h' = true <->
     exists p, first_stable = Some p /\ RESET_HOLD_TIME_MS <= sub32 now (fst p)).
Proof.
  intros h t0 tr0 sr0 rest now Hl Hs Hp Hall h' first_stable.
  assert (Hpt : resetButtonPressTime (state h') =
                match first_stable with Some p => fst p | None => 0 end).
  { subst h' first_stable.
    change (poll_all ((t0, (tr0, sr0, true)) :: rest) h)
      with (poll_all rest (updateButtons t0 tr0 sr0 true h)).
    destruct (updateButtons_reset t0 tr0 sr0 true h) as (Hrb & Hb & Hpt).
    assert (Hrb1 : resetButton (updateButtons t0 tr0 sr0 true h) =
                   mkButtonState true false t0).
    { rewrite Hrb. unfold debounceButton. rewrite Hl, Hs.
      cbn [Bool.eqb negb lastReading stableState lastChange].
      rewrite sub32_diag. reflexivity. }
    apply hold_begins; try assumption.
    rewrite Hpt, Hb, Hrb1. reflexivity. }
  split; [exact Hpt|].
  unfold isFactoryResetRequested. rewrite Hpt.
  assert (Hfound : forall p, first_stable = Some p -> fst p <> 0).
  { intros p Hf. subst first_stable. apply find_some in Hf.
    destruct Hf as [Hin _].
    rewrite Forall_forall in Hall. now apply Hall. }
  destruct first_stable as [p|].
  - specialize (Hfound p eq_refl). apply Z.eqb_neq in Hfound. rewrite Hfound.
    destruct (RESET_HOLD_TIME_MS <=? sub32 now (fst p)) eqn:E.
    + apply Z.leb_le in E. split; [intros _; exists p; now split|reflexivity].
    + apply Z.leb_gt in E. split; [discriminate|].
      intros (q & Hq & Hge). injection Hq as <-. lia.
  - cbn [Z.eqb]. split; [discriminate|]. intros (q & Hq & _). discriminate.
Qed.

Lemma X16_hold_counts_from_stable_press_witness :
  let rest := [(1030, (false, false, true)); (1060, (false, false, true));
               (11000, (false, false, true))] in
  let h' := poll_all ((1000, (false, false, true)) :: rest) init_hw in
  resetButtonPressTime (state h') = 1060 /\
  isFactoryResetRequested 11000 h' = false.
Proof.
  intros rest h'.
  destruct (X16_hold_counts_from_stable_press init_hw 1000 false false rest 11000
              eq_refl eq_refl eq_refl
              ltac:(repeat constructor; discriminate)) as [H1 H2].
  split; [exact H1|].
  destruct (isFactoryResetRequested 11000 h') eqn:E; [|reflexivity].
  apply H2 in E. destruct E as (p & Hp & Hge).
  injection Hp as <-. vm_compute in Hge. congruence.
Defined.

(** ** Two ticks in the same millisecond *)

Lemma updateStage_settled (now : Z) (w v : World) :
  currentState (ctl v) = currentState (ctl (updateStage now w)) ->
  stageStartTime (ctl v) = stageStartTime (ctl (updateStage now w)) ->
  ctl (updateStage now v) = ctl v /\
  messages (updateStage now v) = messages v.
Proof.
  intros Hcs Hst.
  rewrite (updateStage_ctl now v), (updateStage_messages now v), Hcs, Hst.
  rewrite (updateStage_ctl now w).
  destruct (currentState (ctl w)) eqn:E; rewrite ?E;
    try (split; [reflexivity|apply app_nil_r]);
    (destruct (getStateDuration _ <=? sub32 now (stageStartTime (ctl w))) eqn:Ex;
     [cbn [enter_state currentState stageStartTime next_stage];
      rewrite ?sub32_diag; cbn; split; [reflexivity|apply app_nil_r]
     |rewrite E, Ex; split; [reflexivity|apply app_nil_r]]).
Qed.

(** X17. Two ticks in the same millisecond.  Whatever the machine, a second
    [update] at the clock value of the first changes nothing in the
    controller and sends no message: a stage entered by the first tick is
    not left by the second, a session the first tick ended stays ended, and
    a hardware check the first tick ran is not run again. *)
Theorem X17_update_same_ms :
  forall (now : Z) (w : World),
    let w' := update now w in
    ctl (update now w') = ctl w' /\
    messages (update now w') = messages w'.
Proof.
  intros now w w'. subst w'.
  destruct (isActive w) eqn:Ha;
    [|rewrite (update_inactive now w Ha), (update_inactive now w Ha); now split].
  assert (Hidle : currentState (ctl (update now w)) = ALARM_IDLE ->
                  ctl (update now (update now w)) = ctl (update now w) /\
                  messages (update now (update now w)) = messages (update now w)).
  { intros Hi. rewrite (update_inactive now (update now w)); [now split|].
    apply isActive_false_iff. now left. }
  pose proof (updateStage_active now w Ha) as Ha1.
  destruct (updateStage_flags now w) as (Hen & Hlc & _).
  destruct (update_active_outcome now w Ha)
    as [Hs Hc|Hs Hd Hc|Hs He Hd Hf Hc|e Hs He Hd Hf Hc];
    try (apply Hidle; rewrite Hc; reflexivity).
  - (* no check was due *)
    destruct (updateStage_settled now w (update now w)) as [Hc1 Hm1];
      [now rewrite Hc|now rewrite Hc|].
    assert (E : update now (update now w) = updateStage now (update now w)).
    { unfold update at 1.
      assert (E2 : updateSafety now (updateStage now (update now w)) =
                   updateStage now (update now w)).
      { unfold updateSafety.
        rewrite (isSafetyTimeoutReached_ctl now _ (updateStage now w))
          by now rewrite Hc1, Hc.
        rewrite Hs. now rewrite andb_false_r. }
      rewrite E2. apply updateHealth_not_due.
      now rewrite Hc1, Hc, Hen, Hlc. }
    rewrite E. now split.
  - (* the check ran and passed *)
    destruct (updateStage_settled now w (update now w)) as [Hc1 Hm1];
      [now rewrite Hc|now rewrite Hc|].
    assert (E : update now (update now w) = updateStage now (update now w)).
    { unfold update at 1.
      assert (E2 : updateSafety now (updateStage now (update now w)) =
                   updateStage now (update now w)).
      { unfold updateSafety.
        rewrite (isSafetyTimeoutReached_ctl now _ (updateStage now w))
          by now rewrite Hc1, Hc.
        rewrite Hs. now rewrite andb_false_r. }
      rewrite E2. apply updateHealth_not_due.
      rewrite Hc1, Hc. cbn [set_lastCheck lastCheck hardwareChecksEnabled].
      rewrite sub32_diag. apply andb_false_r. }
    rewrite E. now split.
Qed.

(** ** The alarm LED by stage *)

Lemma ledcWrite_led (ch : Channel) (d : Z) (w : World) :
  led_view (ledcWrite ch d w) = led_view w.
Proof. destruct ch; reflexivity. Qed.

Lemma stopAllBuzzers_led (w : World) : led_view (stopAllBuzzers w) = led_view w.
Proof. reflexivity. Qed.

Lemma sendTelegramNotification_led (m : Message) (w : World) :
  led_view (sendTelegramNotification m w) = led_view w.
Proof. unfold led_view. now rewrite sendTelegramNotification_hw. Qed.

Lemma pulseSmallBuzzer_led (now : Z) (w : World) :
  led_view (snd (pulseSmallBuzzer now w)) = led_view w.
Proof.
  unfold pulseSmallBuzzer. cbv zeta.
  destruct (pulseStartTime (hw w) =? 0); repeat break_if; reflexivity.
Qed.

Lemma updateBuzzerOutput_led (now : Z) (w : World) :
  led_view (updateBuzzerOutput now w) = led_view w.
Proof.
  unfold updateBuzzerOutput.
  destruct (currentState (ctl w)); try reflexivity.
  apply pulseSmallBuzzer_led.
Qed.

Lemma checkHardwareHealth_led (w : World) :
  led_view (snd (checkHardwareHealth w)) = led_view w.
Proof.
  unfold checkHardwareHealth. cbv zeta.
  repeat break_if; cbn [snd]; rewrite ?sendTelegramNotification_led; reflexivity.
Qed.

Lemma testBuzzer_led (ch : Channel) (w : World) :
  led_view (testBuzzer ch w) = led_view w.
Proof. destruct ch; reflexivity. Qed.

Lemma with_ctl_led (c : AlarmController) (w : World) :
  led_view (with_ctl c w) = led_view w.
Proof. reflexivity. Qed.

Lemma transition_led_stopped (now : Z) (s : AlarmState) (w : World) :
  is_stopped s = true -> led_view (transitionToState now s w) = led_view w.
Proof.
  intros Hs. unfold transitionToState. break_if; [reflexivity|].
  destruct s; try discriminate; reflexivity.
Qed.

Lemma transition_led (now : Z) (s : AlarmState) (w : World) :
  ledsEnabled (state (hw w)) = true ->
  AlarmState_eqb s (currentState (ctl w)) = false ->
  is_stopped s = false ->
  led_at s (led_view (transitionToState now s w)).
Proof.
  intros Hen Hne Hs. unfold transitionToState. rewrite Hne.
  destruct s; try discriminate.
  - unfold setAlarmLED.
    change (ledsEnabled (state (hw (stopAllBuzzers
              (with_ctl (enter_state ALARM_IDLE now (ctl w)) w)))))
      with (ledsEnabled (state (hw w))).
    rewrite Hen. cbn [negb]. unfold led_at, led_view. cbn. auto.
  - unfold setAlarmLED.
    change (ledsEnabled (state (hw
              (with_ctl (enter_state ALARM_TRIGGERED now (ctl w)) w))))
      with (ledsEnabled (state (hw w))).
    rewrite Hen. cbn [negb]. unfold led_at, led_view. cbn. auto.
  - unfold blinkAlarmLED, led_at, led_view, Hardware.set_alarmLED.
    cbn [with_hw hw state alarmLED pinAlarmLED enabled interval].
    rewrite sendTelegramNotification_hw. cbn. auto.
  - unfold blinkAlarmLED, led_at, led_view, Hardware.set_alarmLED.
    cbn [with_hw hw state alarmLED pinAlarmLED enabled interval].
    rewrite sendTelegramNotification_hw. cbn. auto.
  - unfold blinkAlarmLED, led_at, led_view, Hardware.set_alarmLED.
    cbn [with_hw hw state alarmLED pinAlarmLED enabled interval].
    rewrite sendTelegramNotification_hw. cbn. auto.
Qed.

Lemma led_policy_enabled (w : World) :
  led_policy w -> ledsEnabled (state (hw w)) = true.
Proof. unfold led_policy, led_at, led_view. now intros [H _]. Qed.

Lemma led_policy_not_stopped (w : World) :
  led_policy w -> is_stopped (currentState (ctl w)) = false.
Proof.
  unfold led_policy, led_at, led_view. intros [_ H].
  destruct (currentState (ctl w)); try reflexivity; contradiction.
Qed.

Lemma led_policy_frame (w w' : World) :
  currentState (ctl w') = currentState (ctl w) ->
  led_view w' = led_view w ->
  led_policy w -> led_policy w'.
Proof. unfold led_policy. now intros -> ->. Qed.

Lemma start_led (now : Z) (w : World) :
  led_policy w -> led_policy (snd (start now w)).
Proof.
  intros H. unfold start. destruct (isActive w) eqn:E; [exact H|].
  cbv zeta. cbn [snd]. unfold led_policy.
  rewrite sendTelegramNotification_ctl, sendTelegramNotification_led,
    transition_currentState.
  apply transition_led; [now apply led_policy_enabled| |reflexivity].
  apply isActive_false_iff in E. pose proof (led_policy_not_stopped w H) as Hn.
  destruct E as [E|E]; [|congruence].
  cbn [with_ctl ctl set_testMode set_alarmStartTime currentState].
  now rewrite E.
Qed.

Lemma stop_led (now : Z) (source : AlarmStopSource) (w : World) :
  isActive w = true -> ledsEnabled (state (hw w)) = true ->
  led_policy (snd (stop now source w)).
Proof.
  intros Ha Hen. rewrite (stop_active_unfold now source w Ha). cbn [snd].
  unfold led_policy. rewrite transition_currentState.
  apply transition_led; [| |reflexivity].
  - rewrite transition_state.
    destruct source; rewrite ?sendTelegramNotification_hw; exact Hen.
  - rewrite transition_currentState. destruct source; reflexivity.
Qed.

Lemma stop_led_policy (now : Z) (source : AlarmStopSource) (w : World) :
  led_policy w -> led_policy (snd (stop now source w)).
Proof.
  intros H. destruct (isActive w) eqn:E.
  - apply stop_led; [exact E|now apply led_policy_enabled].
  - now rewrite stop_inactive.
Qed.

Lemma escalate_led (now : Z) (s : AlarmState) (w : World) :
  led_policy w ->
  AlarmState_eqb s (currentState (ctl w)) = false -> is_stopped s = false ->
  led_policy (transitionToState now s (updateBuzzerOutput now w)).
Proof.
  intros H Hne Hs. unfold led_policy. rewrite transition_currentState.
  apply transition_led; [| |exact Hs].
  - rewrite updateBuzzerOutput_state. now apply led_policy_enabled.
  - now rewrite updateBuzzerOutput_ctl.
Qed.

Lemma updateBuzzerOutput_led_policy (now : Z) (w : World) :
  led_policy w -> led_policy (updateBuzzerOutput now w).
Proof.
  apply led_policy_frame;
    [now rewrite updateBuzzerOutput_ctl|apply updateBuzzerOutput_led].
Qed.

Lemma updateStage_led (now : Z) (w : World) :
  led_policy w -> led_policy (updateStage now w).
Proof.
  intros H. unfold updateStage.
  destruct (currentState (ctl w)) eqn:E; try exact H.
  - unfold updateTriggeredState. break_if; [|exact H].
    unfold led_policy. rewrite transition_currentState.
    apply transition_led;
      [now apply led_policy_enabled|now rewrite E|reflexivity].
  - unfold updateWarningState. cbv zeta.
    break_if; [|now apply updateBuzzerOutput_led_policy].
    apply escalate_led; [exact H|now rewrite E|reflexivity].
  - unfold updateAlertState. cbv zeta.
    break_if; [|now apply updateBuzzerOutput_led_policy].
    apply escalate_led; [exact H|now rewrite E|reflexivity].
  - unfold updateEmergencyState. now apply updateBuzzerOutput_led_policy.
Qed.

Lemma updateSafety_led (now : Z) (w : World) :
  led_policy w -> led_policy (updateSafety now w).
Proof.
  intros H. unfold updateSafety. break_if; [|exact H].
  now apply stop_led_policy.
Qed.

Lemma updateHealth_led (now : Z) (w : World) :
  led_policy w -> led_policy (updateHealth now w).
Proof.
  intros H.
  destruct (isActive w) eqn:Ea; [|now rewrite updateHealth_inactive].
  destruct (hardwareChecksEnabled (ctl w) &&
            (10000 <=? sub32 now (lastCheck (ctl w)))) eqn:Ed;
    [|now rewrite updateHealth_not_due].
  apply andb_true_iff in Ed. destruct Ed as [Ee Ed]. apply Z.leb_le in Ed.
  rewrite updateHealth_due by assumption. cbv zeta.
  assert (H1 : led_policy (with_ctl (set_lastCheck now (ctl w)) w)) by exact H.
  break_if; [exact H1|].
  apply stop_led_policy.
  revert H1. apply led_policy_frame;
    [apply checkHardwareHealth_currentState|apply checkHardwareHealth_led].
Qed.

Lemma update_led (now : Z) (w : World) :
  led_policy w -> led_policy (update now w).
Proof.
  intros H. unfold update.
  now apply updateHealth_led, updateSafety_led, updateStage_led.
Qed.

Lemma testAlarm_led (w : World) :
  led_policy w -> led_policy (snd (testAlarm w)).
Proof.
  intros H. destruct (isActive w) eqn:E.
  - unfold testAlarm. now rewrite E.
  - revert H. apply led_policy_frame; [now apply testAlarm_inactive|].
    unfold testAlarm. rewrite E. cbv zeta. cbn [snd].
    rewrite with_ctl_led, sendTelegramNotification_led, testBuzzer_led,
      sendTelegramNotification_led, testBuzzer_led,
      !sendTelegramNotification_led.
    apply with_ctl_led.
Qed.

Lemma updateLEDs_led (now : Z) (w : World) :
  led_policy w -> led_policy (updateLEDs now w).
Proof.
  intros H. unfold updateLEDs.
  rewrite (led_policy_enabled w H). cbn [negb].
  unfold updateSingleLED.
  destruct (enabled (alarmLED (hw w))) eqn:En; cbn [negb].
  - break_if; [|revert H; now apply led_policy_frame].
    unfold led_policy, led_at, led_view in *.
    cbn [Hardware.set_alarmLED with_hw hw ctl state alarmLED pinAlarmLED
         enabled interval].
    destruct H as [He H]. split; [exact He|].
    destruct (currentState (ctl w)); try exact H;
      destruct H as [H1 H2]; try congruence; now split.
  - revert H. apply led_policy_frame; [reflexivity|].
    unfold led_view, Hardware.set_alarmLED, with_hw. cbn.
    now destruct (alarmLED (hw w)).
Qed.

Lemma loop_exec_led (c : LoopCall) (w : World) :
  is_reset c = false -> led_policy w -> led_policy (loop_exec c w).
Proof.
  intros Hc H. destruct c as [c|now]; [|now apply updateLEDs_led].
  destruct c; cbn [loop_exec exec]; try discriminate.
  - now apply start_led.
  - now apply stop_led_policy.
  - now apply update_led.
  - now apply testAlarm_led.
  - exact H.
  - exact H.
  - exact H.
  - exact H.
Qed.

Lemma setup_led_policy (s1 l1 s2 l2 online : bool) :
  led_policy (setup s1 l1 s2 l2 (constructed online)).
Proof. destruct s1, l1, s2, l2; vm_compute; auto. Qed.

(** X18. The alarm LED follows the stage.  Take a world in which the alarm
    LED is as the entry action of the current state sets it: off in Idle,
    steadily on in Triggered, blinking with an interval of 1000 ms in
    Warning, 500 ms in Alert and 200 ms in Emergency (the world [setup()]
    leaves is one, [setup_led_policy]).  Then it is so after any sequence of
    controller calls and [updateLEDs] polls that contains no [reset].  A
    [reset] of an active machine breaks it: the machine is in Idle with the
    alarm LED still on or blinking. *)
Theorem X18_alarm_led_follows_stage :
  forall w : World,
    led_policy w ->
    (forall cs : list LoopCall,
        forallb (fun c => negb (is_reset c)) cs = true ->
        led_policy (loop_run cs w)) /\
    (isActive w = true -> ~ led_policy (reset w)).
Proof.
  intros w H. split.
  - intros cs. revert w H.
    induction cs as [|c cs IH]; intros w H Hall; [exact H|].
    cbn [forallb] in Hall. apply andb_true_iff in Hall.
    destruct Hall as [Hc Hall]. apply negb_true_iff in Hc.
    cbn [loop_run fold_left]. apply IH; [|exact Hall].
    now apply loop_exec_led.
  - intros Ha Hr. apply isActive_iff in Ha.
    unfold led_policy, led_at in *.
    change (led_view (reset w)) with (led_view w) in Hr.
    change (currentState (ctl (reset w))) with ALARM_IDLE in Hr.
    destruct (led_view w) as [[en l] pin].
    destruct H as [_ H]. destruct Hr as [_ [Hr1 Hr2]].
    destruct Ha as [E|[E|[E|E]]]; rewrite E in H; destruct H; congruence.
Qed.

Lemma X18_alarm_led_follows_stage_witness :
  led_policy (setup true true true true (constructed true)) /\
  led_policy
    (loop_run [Controller (CallStart 1000); LedTick 1500;
               Controller (CallUpdate 4000); LedTick 5000;
               Controller (CallStop 6000 STOP_SILENCE_BUTTON)]
       (setup true true true true (constructed true))) /\
  ~ led_policy
      (reset (snd (start 1000 (setup true true true true (constructed true))))).
Proof.
  pose proof (setup_led_policy true true true true true) as H0.
  split; [exact H0|]. split.
  - apply (X18_alarm_led_follows_stage _ H0). reflexivity.
  - assert (H1 : led_policy
                   (snd (start 1000 (setup true true true true (constructed true)))))
      by (vm_compute; auto).
    apply (X18_alarm_led_follows_stage _ H1). reflexivity.
Defined.
